(** * mycogeneexplorer: reaction graphs of genome scale metabolic models

    A shallow embedding of
      - [mycogeneexplorer/metabolic_network.py],
      - [mycogeneexplorer/network_analysis/reaction_network.py],
      - [mycogeneexplorer/network_analysis/utils.py],
      - [scripts/create_metabolic_network.py],
      - [mycogeneexplorer/progress_bar.py],
      - [find_edges_from_model] of [mycogeneexplorer/metabolite_network.py]
        and
      - [mycogeneexplorer/read_gene_list.py].

    Conventions.
      - numpy's [float64] values (stoichiometric coefficients, flux bounds,
        edge weights) are exact rationals [Q]; rounding, NaN and infinities
        are outside the model.
      - a pandas data frame is the list of its rows, a Python [dict] an
        association list in insertion order.
      - a Python exception is the [Raise] branch of [result].
      - the libraries the code calls are not part of the repository.
        cobra's flux variability analysis and file loaders and argparse's
        reading of the command line are section variables; the operations
        of pandas ([groupby], row selection and assignment) and the graph
        classes of networkx are modelled from their documented behaviour. *)

From Stdlib Require Import List String Ascii Bool ZArith QArith Lia Arith.
From Stdlib Require Import Sorting.Sorted Sorting.Permutation.
Import ListNotations.

Set Implicit Arguments.

(* ================================================================== *)
(** * Python values, exceptions and containers                          *)
(* ================================================================== *)

Module Py.

Inductive exn : Type :=
| KeyError
| IndexError
| AttributeError
| TypeError
| OSError
| SystemExit (code : Z).

Inductive result (A : Type) : Type :=
| Ok (a : A)
| Raise (e : exn).
Arguments Ok {A} a.
Arguments Raise {A} e.

Definition bind {A B} (r : result A) (k : A -> result B) : result B :=
  match r with
  | Ok a => k a
  | Raise e => Raise e
  end.

Definition of_option {A} (e : exn) (o : option A) : result A :=
  match o with
  | Some a => Ok a
  | None => Raise e
  end.

(** [[f(x) for x in l]] where [f] may raise: the first exception wins. *)
Fixpoint mapM {A B} (f : A -> result B) (l : list A) : result (list B) :=
  match l with
  | [] => Ok []
  | x :: t =>
      bind (f x) (fun y => bind (mapM f t) (fun ys => Ok (y :: ys)))
  end.

(** ** Insertion ordered dictionaries with string keys *)

Definition dict (V : Type) : Type := list (string * V).

Fixpoint dict_get {V} (k : string) (d : dict V) : option V :=
  match d with
  | [] => None
  | (k', v) :: t => if String.eqb k k' then Some v else dict_get k t
  end.

Definition dict_mem {V} (k : string) (d : dict V) : bool :=
  match dict_get k d with
  | Some _ => true
  | None => false
  end.

(** [d[k] = v]: an existing key keeps its position, a new key goes last. *)
Fixpoint dict_set {V} (k : string) (v : V) (d : dict V) : dict V :=
  match d with
  | [] => [(k, v)]
  | (k', v') :: t =>
      if String.eqb k k' then (k', v) :: t else (k', v') :: dict_set k v t
  end.

Definition keys {V} (d : dict V) : list string := map fst d.

(** ** itertools *)

(** [itertools.combinations(l, 2)] *)
Fixpoint combinations2 {A} (l : list A) : list (A * A) :=
  match l with
  | [] => []
  | x :: t => map (pair x) t ++ combinations2 t
  end.

(** [itertools.product(a, b)] *)
Definition product {A B} (a : list A) (b : list B) : list (A * B) :=
  flat_map (fun x => map (pair x) b) a.

(** ** pandas [groupby]

    [df.groupby(key)] with the default [sort=True] yields one group per
    distinct key, the keys in increasing order, and in each group the rows
    in the order of the frame. *)

Section GroupBy.
Context {K R : Type}.
Variable eqb : K -> K -> bool.
Variable leb : K -> K -> bool.
Variable key : R -> K.

Fixpoint unique (l : list K) : list K :=
  match l with
  | [] => []
  | x :: t => if existsb (eqb x) t then unique t else x :: unique t
  end.

Fixpoint insert (k : K) (l : list K) : list K :=
  match l with
  | [] => [k]
  | h :: t => if leb k h then k :: l else h :: insert k t
  end.

Definition sort (l : list K) : list K := fold_right insert [] l.

Definition group_keys (rows : list R) : list K :=
  sort (unique (map key rows)).

Definition group_rows (k : K) (rows : list R) : list R :=
  filter (fun r => eqb (key r) k) rows.

Definition groupby (rows : list R) : list (K * list R) :=
  map (fun k => (k, group_rows k rows)) (group_keys rows).
End GroupBy.

(** Keys of [groupby(["source", "sink"])] are tuples, ordered
    lexicographically. *)
Definition pair_eqb {K} (eqb : K -> K -> bool) (a b : K * K) : bool :=
  eqb (fst a) (fst b) && eqb (snd a) (snd b).

Definition pair_leb {K} (eqb leb : K -> K -> bool) (a b : K * K) : bool :=
  if eqb (fst a) (fst b) then leb (snd a) (snd b) else leb (fst a) (fst b).

(** ** float comparisons and reductions *)

Definition Qltb (x y : Q) : bool := negb (Qle_bool y x).

(** [series.min()] and [series.max()] of a column; the value for an empty
    column is never used by the callers below. *)
Definition series_min (l : list Q) : Q :=
  match l with
  | [] => 0%Q
  | x :: t => fold_left (fun m y => if Qle_bool m y then m else y) t x
  end.

Definition series_max (l : list Q) : Q :=
  match l with
  | [] => 0%Q
  | x :: t => fold_left (fun m y => if Qle_bool y m then m else y) t x
  end.

End Py.

Import Py.

Declare Scope py_scope.
Notation "x <- e ;; k" := (Py.bind e (fun x => k))
  (at level 61, e at next level, right associativity) : py_scope.
Open Scope py_scope.
Open Scope string_scope.

(* ================================================================== *)
(** * cobra: the parts of a metabolic model the code reads             *)
(* ================================================================== *)

Module Cobra.

(** [rxn.id], [rxn.metabolites] (a dict from metabolite to coefficient,
    here keyed by [met.id]) and [rxn.reversibility]. *)
Record Reaction : Type := mkReaction {
  id : string;
  metabolites : dict Q;
  reversibility : bool
}.

(** [model.reactions] *)
Definition Model : Type := list Reaction.

(** [rxn.get_coefficient(met_id)] *)
Definition get_coefficient (r : Reaction) (m : string) : result Q :=
  of_option KeyError (dict_get m (metabolites r)).

(** The frame returned by [flux_variability_analysis]: indexed by reaction
    id, with the columns [minimum] and [maximum]. *)
Record FluxRange : Type := mkFluxRange { minimum : Q; maximum : Q }.
Definition FvaFrame : Type := dict FluxRange.

(** [fva_results.loc[rxn_name, column]] *)
Definition loc (fva : FvaFrame) (rxn_name : string)
           (column : FluxRange -> Q) : result Q :=
  of_option KeyError (option_map column (dict_get rxn_name fva)).

(** cobra keeps reaction ids unique in a model and a reaction's
    metabolites are the keys of a dict. *)
Definition wf_model (m : Model) : Prop :=
  NoDup (map id m) /\ forall r, In r m -> NoDup (keys (metabolites r)).

End Cobra.

Import Cobra.

(* ================================================================== *)
(** * networkx: [Graph], [DiGraph] and the node-link document          *)
(* ================================================================== *)

Module Nx.

(** The attribute dict of an edge; the code only ever stores the keys
    ["weight"] and ["metabolite"]. *)
Record Attrs : Type := mkAttrs {
  weight : option Q;
  metabolite : option string
}.

Definition no_attrs : Attrs := mkAttrs None None.

Definition or_else {A} (a b : option A) : option A :=
  match a with
  | Some _ => a
  | None => b
  end.

(** [old.update(new)] *)
Definition update (old new : Attrs) : Attrs :=
  mkAttrs (or_else (weight new) (weight old))
          (or_else (metabolite new) (metabolite old)).

(** [nx.Graph] ([directed = false]) and [nx.DiGraph] ([directed = true]):
    [adj] is [_adj] (for a [DiGraph]: [_succ]), a dict of dicts. *)
Record Graph : Type := mkGraph {
  directed : bool;
  adj : dict (dict Attrs)
}.

Definition Edge : Type := string * string * Attrs.

(** [nx.Graph()] and [nx.DiGraph()] *)
Definition empty_graph (d : bool) : Graph := mkGraph d [].

Definition nodes (g : Graph) : list string := keys (adj g).

Definition neighbors (g : Graph) (u : string) : dict Attrs :=
  match dict_get u (adj g) with
  | Some nbrs => nbrs
  | None => []
  end.

(** [g.get_edge_data(u, v)] *)
Definition edge_data (g : Graph) (u v : string) : option Attrs :=
  dict_get v (neighbors g u).

Definition add_node (n : string) (g : Graph) : Graph :=
  if dict_mem n (adj g) then g
  else mkGraph (directed g) (dict_set n [] (adj g)).

(** [g.add_edge(u, v, **dd)]: missing end points become nodes, the data of
    an existing edge is updated, and an undirected graph stores the same
    data under both orientations. *)
Definition add_edge (u v : string) (dd : Attrs) (g : Graph) : Graph :=
  let g := add_node v (add_node u g) in
  let datadict :=
    update (match edge_data g u v with Some d => d | None => no_attrs end)
           dd in
  let adj1 := dict_set u (dict_set v datadict (neighbors g u)) (adj g) in
  if directed g then mkGraph true adj1
  else
    let nbrs_v := match dict_get v adj1 with Some n => n | None => [] end in
    mkGraph false (dict_set v (dict_set u datadict nbrs_v) adj1).

Definition add_edges_from (ebunch : list Edge) (g : Graph) : Graph :=
  fold_left (fun g e => add_edge (fst (fst e)) (snd (fst e)) (snd e) g)
            ebunch g.

(** [g.edges(data=True)] of an undirected graph reports every edge once,
    from the end point that comes first among the nodes. *)
Fixpoint edges_undirected (seen : list string) (a : dict (dict Attrs))
  : list Edge :=
  match a with
  | [] => []
  | (n, nbrs) :: t =>
      map (fun vd => (n, fst vd, snd vd))
          (filter (fun vd => negb (existsb (String.eqb (fst vd)) seen)) nbrs)
      ++ edges_undirected (n :: seen) t
  end.

Definition edges_directed (a : dict (dict Attrs)) : list Edge :=
  flat_map (fun nn => map (fun vd => (fst nn, fst vd, snd vd)) (snd nn)) a.

Definition edges (g : Graph) : list Edge :=
  if directed g then edges_directed (adj g)
  else edges_undirected [] (adj g).

(** The dict built by [nx.node_link_data]; [json.dump] followed by
    [json.load] returns it unchanged. *)
Record NodeLink : Type := mkNodeLink {
  nl_directed : option bool;
  nl_multigraph : option bool;
  nl_nodes : list string;
  nl_links : list Edge
}.

Definition node_link_data (g : Graph) : NodeLink :=
  mkNodeLink (Some (directed g)) (Some false) (nodes g) (edges g).

(** [nx.node_link_graph(data, directed=directed)]: the flags stored in the
    document take precedence over the keyword arguments.  Multigraphs are
    outside the model. *)
Definition node_link_graph (data : NodeLink) (directed : bool)
  : option Graph :=
  let multigraph :=
    match nl_multigraph data with Some b => b | None => true end in
  let directed :=
    match nl_directed data with Some b => b | None => directed end in
  if multigraph then None
  else
    let graph := fold_left (fun g n => add_node n g) (nl_nodes data)
                           (empty_graph directed) in
    Some (add_edges_from (nl_links data) graph).

End Nx.

(* ================================================================== *)
(** * Loading a model: [load_cobra_model_from_file]                     *)
(*    (identical in metabolic_network.py and network_analysis/utils.py) *)
(* ================================================================== *)

Module Loader.

(** What the caller passes as [model]: a path ([str]), an open file, an
    in-memory cobra model, or [None]. *)
Inductive ModelArg : Type :=
| ArgStr (path : string)
| ArgIO (handle : nat)
| ArgModel (m : Model)
| ArgNone.

Definition is_lower (c : ascii) : bool :=
  (97 <=? nat_of_ascii c)%nat && (nat_of_ascii c <=? 122)%nat.

(** The longest prefix of lower case letters, and what follows it. *)
Fixpoint span_lower (s : string) : string * string :=
  match s with
  | EmptyString => (EmptyString, EmptyString)
  | String c t =>
      if is_lower c
      then (String c (fst (span_lower t)), snd (span_lower t))
      else (EmptyString, s)
  end.

(** [$]: the end of the string, or just before a newline that ends it. *)
Definition at_end (s : string) : bool :=
  match s with
  | EmptyString => true
  | String c EmptyString => (nat_of_ascii c =? 10)%nat
  | _ => false
  end.

(** A match of ["\.[a-z]+$"] starting at the head of [s].  The greedy run
    of letters is the only candidate: a shorter run is followed by a
    letter, where [$] cannot match. *)
Definition match_extension (s : string) : option string :=
  match s with
  | String c t =>
      if (nat_of_ascii c =? 46)%nat
      then
        let run := fst (span_lower t) in
        if negb (String.eqb run EmptyString) && at_end (snd (span_lower t))
        then Some (String c run)
        else None
      else None
  | EmptyString => None
  end.

(** [re.findall("\.[a-z]+$", s)]: a match ends the scan, since at most a
    newline follows it. *)
Fixpoint findall_extension (s : string) : list string :=
  match match_extension s with
  | Some m => [m]
  | None =>
      match s with
      | EmptyString => []
      | String _ t => findall_extension t
      end
  end.

(** [not file_type] *)
Definition falsy (file_type : option string) : bool :=
  match file_type with
  | None => true
  | Some s => String.eqb s EmptyString
  end.

Definition tail (s : string) : string :=
  match s with
  | EmptyString => EmptyString
  | String _ t => t
  end.

(** The value of [file_type] after the first [if] statement. *)
Definition infer_file_type (model : ModelArg) (file_type : option string)
  : result (option string) :=
  match model with
  | ArgStr path =>
      if falsy file_type
      then
        m <- of_option IndexError
               (last (map Some (findall_extension path)) None) ;;
        Ok (Some (tail m))
      else Ok file_type
  | _ => Ok file_type
  end.

Definition mem (s : string) (l : list string) : bool :=
  existsb (String.eqb s) l.

Section Load.
(** [cobra.io.load_json_model], [read_sbml_model], [load_yaml_model] and
    [load_matlab_model]. *)
Variable load_json_model : ModelArg -> result Model.
Variable read_sbml_model : ModelArg -> result Model.
Variable load_yaml_model : ModelArg -> result Model.
Variable load_matlab_model : ModelArg -> result Model.

Definition load_cobra_model_from_file
           (model : ModelArg) (file_type : option string)
  : result (option Model) :=
  file_type <- infer_file_type model file_type ;;
  if falsy file_type then Raise AttributeError
  else
    let ft := match file_type with Some s => s | None => EmptyString end in
    if mem ft ["JSON"; "json"; ".json"] then
      m <- load_json_model model ;; Ok (Some m)
    else if mem ft ["sbml"; "xml"; "SBML"; ".xml"] then
      m <- read_sbml_model model ;; Ok (Some m)
    else if mem ft ["yaml"; ".yml"; "YAML"] then
      m <- load_yaml_model model ;; Ok (Some m)
    else if mem ft ["matlab"; "mat"; ".mat"; "Matlab"; "MatLab"] then
      m <- load_matlab_model model ;; Ok (Some m)
    else Ok None.

(** The first lines of the [create_*] functions: a cobra model is used
    as it is, anything else goes through the loader; reading
    [.reactions] of [None] raises [AttributeError]. *)
Definition resolve_model (model : ModelArg) (file_type : option string)
  : result Model :=
  match model with
  | ArgModel m => Ok m
  | _ =>
      loaded <- load_cobra_model_from_file model file_type ;;
      of_option AttributeError loaded
  end.
End Load.

End Loader.

Import Loader.

(* ================================================================== *)
(** * Edge weights and edge resolution (the same text in both files)   *)
(* ================================================================== *)

Module EdgeFrame.

(** [np.power(10., -30)] *)
Definition epsilon : Q := 1 # (10 ^ 30).

(** The weight computed from the [flux] and [coefficient] of a row of
    [source_df]; [np.reciprocal] is [Qinv]. *)
Definition edge_weight (reciprocal_weight : bool) (flux coefficient : Q)
  : Q :=
  if reciprocal_weight then / (flux * coefficient + epsilon)
  else flux * coefficient.

Section Keyed.
(** The type of the values of the [rxn] column. *)
Variable K : Type.

(** A row of [edge_weight_df]. *)
Record Candidate : Type := mkCandidate {
  source : K;
  sink : K;
  weight : Q;
  metabolite : string
}.

Definition to_edge (source sink : K) (row : Candidate)
  : K * K * Nx.Attrs :=
  (source, sink, Nx.mkAttrs (Some (weight row)) (Some (metabolite row))).

(** The body of the loop over
    [edge_weight_df.groupby(["source", "sink"])]. *)
Definition resolve_group (reciprocal_weight : bool) (source sink : K)
           (df : list Candidate) : result (K * K * Nx.Attrs) :=
  match df with
  | [row] => Ok (to_edge source sink row)
  | _ =>
      let target :=
        if reciprocal_weight then series_min (map weight df)
        else series_max (map weight df) in
      (* df.loc[df["weight"] == target].iloc[0] *)
      row <- of_option IndexError
               (hd_error
                  (filter (fun r => Qeq_bool (weight r) target) df)) ;;
      Ok (to_edge source sink row)
  end.

Definition pair_key (c : Candidate) : K * K := (source c, sink c).
End Keyed.

End EdgeFrame.

(* ================================================================== *)
(** * The reaction-metabolite frames (the same loops in both files)    *)
(* ================================================================== *)

Module RxnMetFrame.

(** The frame of [find_edges_from_model]: columns [rxn] and [met]. *)
Definition rxn_met_pairs (model : Model) : list (string * string) :=
  flat_map (fun r => map (fun m => (id r, fst m)) (metabolites r)) model.

(** A row of [rxn_met_df]. *)
Record Row : Type := mkRow {
  rxn : string;
  met : string;
  reversible : bool;
  coefficient : Q;
  flux_max : Q;
  flux_min : Q
}.

Definition rxn_met_rows (fva_results : FvaFrame) (model : Model)
  : result (list Row) :=
  rows <- mapM
            (fun r =>
               mapM (fun m =>
                       c <- get_coefficient r (fst m) ;;
                       fmax <- loc fva_results (id r) maximum ;;
                       fmin <- loc fva_results (id r) minimum ;;
                       Ok (mkRow (id r) (fst m) (reversibility r)
                                 c fmax fmin))
                    (metabolites r))
            model ;;
  Ok (List.concat rows).

End RxnMetFrame.

(* ================================================================== *)
(** * mycogeneexplorer/metabolic_network.py                             *)
(* ================================================================== *)

Module MetabolicNetwork.

Import EdgeFrame RxnMetFrame.

(** ** [find_edges_from_model] *)

Definition find_edges_from_model (model : Model) : list Nx.Edge :=
  let rxn_met_df := rxn_met_pairs model in
  flat_map
    (fun grp =>
       map (fun ij => (fst ij, snd ij, Nx.mkAttrs None (Some (fst grp))))
           (combinations2 (map fst (snd grp))))
    (groupby String.eqb String.leb snd rxn_met_df).

(** ** [find_directed_edges_from_model] *)

(** A row after [.drop("flux_min", axis=1).rename({"flux_max": "flux"})]
    (or the same with the two flux columns exchanged). *)
Record Entry : Type := mkEntry {
  e_rxn : string;
  e_met : string;
  e_reversible : bool;
  e_coefficient : Q;
  e_flux : Q
}.

Definition keep_flux_max (r : Row) : Entry :=
  mkEntry (rxn r) (met r) (reversible r) (coefficient r) (flux_max r).

Definition keep_flux_min (r : Row) : Entry :=
  mkEntry (rxn r) (met r) (reversible r) (coefficient r) (flux_min r).

(** The two [np.negative] assignments. *)
Definition negate (e : Entry) : Entry :=
  mkEntry (e_rxn e) (e_met e) (e_reversible e)
          (- e_coefficient e) (- e_flux e).

Definition source_df (df : list Row) : list Entry :=
  let irreversible_df := filter (fun r => negb (reversible r)) df in
  let sources_irreversible_df :=
    map keep_flux_max
        (filter (fun r => Qltb 0 (coefficient r)) irreversible_df) in
  let reversible_df := filter reversible df in
  let reversible_source_pos_coef_df :=
    map keep_flux_max
        (filter (fun r => Qltb 0 (coefficient r) && Qltb 0 (flux_max r))
                reversible_df) in
  let reversible_source_neg_coef_df :=
    map negate
        (map keep_flux_min
             (filter (fun r => Qltb (coefficient r) 0
                               && Qltb (flux_min r) 0)
                     reversible_df)) in
  sources_irreversible_df ++ reversible_source_pos_coef_df
    ++ reversible_source_neg_coef_df.

Definition sinks_df (df : list Row) : list Entry :=
  let irreversible_df := filter (fun r => negb (reversible r)) df in
  let sinks_irreversible_df :=
    map keep_flux_max
        (filter (fun r => Qltb (coefficient r) 0) irreversible_df) in
  let reversible_df := filter reversible df in
  let reversible_sink_pos_coef_df :=
    map negate
        (map keep_flux_min
             (filter (fun r => Qltb 0 (coefficient r)
                               && Qltb (flux_min r) 0)
                     reversible_df)) in
  let reversible_sink_neg_coef_df :=
    map keep_flux_max
        (filter (fun r => Qltb (coefficient r) 0 && Qltb 0 (flux_max r))
                reversible_df) in
  sinks_irreversible_df ++ reversible_sink_pos_coef_df
    ++ reversible_sink_neg_coef_df.

(** [(source_df.loc[source_df["rxn"] == source, "flux"] *
      source_df.loc[source_df["rxn"] == source, "coefficient"]).values[0]],
    with the reciprocal taken when asked for. *)
Definition source_weight (reciprocal_weight : bool)
           (sources : list Entry) (source : string) : result Q :=
  e <- of_option IndexError
         (hd_error (filter (fun e => String.eqb (e_rxn e) source) sources)) ;;
  Ok (edge_weight reciprocal_weight (e_flux e) (e_coefficient e)).

(** The body of the loop over [rxn_met_df.groupby("met")]. *)
Definition group_candidates (reciprocal_weight : bool)
           (metabolite : string) (df : list Row)
  : result (list (Candidate string)) :=
  let sources := source_df df in
  let sinks := sinks_df df in
  mapM (fun ss =>
          w <- source_weight reciprocal_weight sources (fst ss) ;;
          Ok (mkCandidate (fst ss) (snd ss) w metabolite))
       (product (map e_rxn sources) (map e_rxn sinks)).

Definition edge_weight_rows (reciprocal_weight : bool)
           (rxn_met_df : list Row) : result (list (Candidate string)) :=
  groups <- mapM (fun g => group_candidates reciprocal_weight (fst g) (snd g))
                 (groupby String.eqb String.leb met rxn_met_df) ;;
  Ok (List.concat groups).

Definition resolve_edges (reciprocal_weight : bool)
           (edge_weight_df : list (Candidate string))
  : result (list Nx.Edge) :=
  mapM (fun g =>
          resolve_group reciprocal_weight (fst (fst g)) (snd (fst g)) (snd g))
       (groupby (pair_eqb String.eqb) (pair_leb String.eqb String.leb)
                (@pair_key string) edge_weight_df).

(** ** Files holding node-link documents *)

Definition FileSystem : Type := dict Nx.NodeLink.

Inductive InFile : Type :=
| InPath (path : string)
| InHandle (contents : Nx.NodeLink).

Definition write_network (network : Nx.Graph) (out_path : string)
           (fs : FileSystem) : FileSystem :=
  dict_set out_path (Nx.node_link_data network) fs.

(** [None] stands for a multigraph document, which the model does not
    cover. *)
Definition read_network (in_file : InFile) (directed : bool)
           (fs : FileSystem) : result (option Nx.Graph) :=
  match in_file with
  | InPath path =>
      data <- of_option OSError (dict_get path fs) ;;
      Ok (Nx.node_link_graph data directed)
  | InHandle data => Ok (Nx.node_link_graph data directed)
  end.

Section WithCobra.
(** [cobra.flux_analysis.flux_variability_analysis(model, loopless=...,
    fraction_of_optimum=..., processes=1)] *)
Variable flux_variability_analysis :
  Model -> bool -> Q -> result FvaFrame.
Variable load_json_model : ModelArg -> result Model.
Variable read_sbml_model : ModelArg -> result Model.
Variable load_yaml_model : ModelArg -> result Model.
Variable load_matlab_model : ModelArg -> result Model.

Definition find_directed_edges_from_model
           (model : Model) (reciprocal_weight do_loopless : bool)
           (fva_prop : Q) : result (list Nx.Edge) :=
  fva_results <- flux_variability_analysis model do_loopless fva_prop ;;
  rxn_met_df <- rxn_met_rows fva_results model ;;
  edge_weight_df <- edge_weight_rows reciprocal_weight rxn_met_df ;;
  resolve_edges reciprocal_weight edge_weight_df.

Definition add_reaction_nodes (model : Model) (g : Nx.Graph) : Nx.Graph :=
  fold_left (fun g r => Nx.add_node (id r) g) model g.

Definition create_metabolic_network
           (model : ModelArg) (file_type : option string)
  : result Nx.Graph :=
  metabolic_model <-
    resolve_model load_json_model read_sbml_model load_yaml_model
                  load_matlab_model model file_type ;;
  let metabolic_graph :=
    add_reaction_nodes metabolic_model (Nx.empty_graph false) in
  Ok (Nx.add_edges_from (find_edges_from_model metabolic_model)
                        metabolic_graph).

Definition create_directed_metabolic_network
           (model : ModelArg) (file_type : option string)
           (reciprocal_weight do_loopless : bool) (fva_prop : Q)
  : result Nx.Graph :=
  metabolic_model <-
    resolve_model load_json_model read_sbml_model load_yaml_model
                  load_matlab_model model file_type ;;
  let metabolic_graph :=
    add_reaction_nodes metabolic_model (Nx.empty_graph true) in
  edges <- find_directed_edges_from_model metabolic_model
             reciprocal_weight do_loopless fva_prop ;;
  Ok (Nx.add_edges_from edges metabolic_graph).
End WithCobra.

End MetabolicNetwork.

(* ================================================================== *)
(** * mycogeneexplorer/network_analysis/reaction_network.py             *)
(*    (the [verbose] progress output is left out)                       *)
(* ================================================================== *)

Module ReactionNetwork.

Import EdgeFrame RxnMetFrame.

(** A value of an [object] column: a string, or the integer that the
    row assignment [df.loc[mask] = 0] writes into every column. *)
Inductive cell : Type :=
| CStr (s : string)
| CInt (z : Z).

Definition cell_eqb (a b : cell) : bool :=
  match a, b with
  | CStr s, CStr t => String.eqb s t
  | CInt x, CInt y => Z.eqb x y
  | _, _ => false
  end.

(** Group keys of mixed type: numbers come before strings. *)
Definition cell_leb (a b : cell) : bool :=
  match a, b with
  | CInt x, CInt y => Z.leb x y
  | CInt _, CStr _ => true
  | CStr _, CInt _ => false
  | CStr s, CStr t => String.leb s t
  end.

(** ** [find_edges_from_model] *)

Definition find_edges_from_model (model : Model) : list Nx.Edge :=
  let rxn_met_df := rxn_met_pairs model in
  flat_map
    (fun grp =>
       map (fun ij => (fst ij, snd ij, Nx.mkAttrs None (Some (fst grp))))
           (filter (fun ij => negb (String.eqb (fst ij) (snd ij)))
                   (combinations2 (map fst (snd grp)))))
    (groupby String.eqb String.leb snd rxn_met_df).

(** ** [find_directed_edges_from_model] *)

(** A row after [.drop([..., "reversible"], axis=1).rename(...)]. *)
Record Entry : Type := mkEntry {
  e_rxn : cell;
  e_met : cell;
  e_coefficient : Q;
  e_flux : Q
}.

Definition keep_flux_max (r : Row) : Entry :=
  mkEntry (CStr (rxn r)) (CStr (met r)) (coefficient r) (flux_max r).

Definition keep_flux_min (r : Row) : Entry :=
  mkEntry (CStr (rxn r)) (CStr (met r)) (coefficient r) (flux_min r).

Definition negate (e : Entry) : Entry :=
  mkEntry (e_rxn e) (e_met e) (- e_coefficient e) (- e_flux e).

(** [sources_irreversible_df.loc[sources_irreversible_df["flux"] < 0] = 0]:
    no column is named, so the assignment replaces every column of the
    selected rows. *)
Definition zero_negative_flux (e : Entry) : Entry :=
  if Qltb (e_flux e) 0 then mkEntry (CInt 0) (CInt 0) 0 0 else e.

Definition sources_irreversible_df (df : list Row) : list Entry :=
  let irreversible_df := filter (fun r => negb (reversible r)) df in
  map zero_negative_flux
      (map keep_flux_max
           (filter (fun r => Qltb 0 (coefficient r)) irreversible_df)).

Definition source_df (df : list Row) : list Entry :=
  let reversible_df := filter reversible df in
  let reversible_source_pos_coef_df :=
    map keep_flux_max
        (filter (fun r => Qltb 0 (coefficient r) && Qltb 0 (flux_max r))
                reversible_df) in
  let reversible_source_neg_coef_df :=
    map negate
        (map keep_flux_min
             (filter (fun r => Qltb (coefficient r) 0
                               && Qltb (flux_min r) 0)
                     reversible_df)) in
  sources_irreversible_df df ++ reversible_source_pos_coef_df
    ++ reversible_source_neg_coef_df.

Definition sinks_df (df : list Row) : list Entry :=
  let irreversible_df := filter (fun r => negb (reversible r)) df in
  let sinks_irreversible_df :=
    map keep_flux_max
        (filter (fun r => Qltb (coefficient r) 0) irreversible_df) in
  let reversible_df := filter reversible df in
  let reversible_sink_pos_coef_df :=
    map negate
        (map keep_flux_min
             (filter (fun r => Qltb 0 (coefficient r)
                               && Qltb (flux_min r) 0)
                     reversible_df)) in
  let reversible_sink_neg_coef_df :=
    map keep_flux_max
        (filter (fun r => Qltb (coefficient r) 0 && Qltb 0 (flux_max r))
                reversible_df) in
  sinks_irreversible_df ++ reversible_sink_pos_coef_df
    ++ reversible_sink_neg_coef_df.

Definition source_weight (reciprocal_weight : bool)
           (sources : list Entry) (source : cell) : result Q :=
  e <- of_option IndexError
         (hd_error (filter (fun e => cell_eqb (e_rxn e) source) sources)) ;;
  Ok (edge_weight reciprocal_weight (e_flux e) (e_coefficient e)).

Definition group_candidates (reciprocal_weight : bool)
           (metabolite : string) (df : list Row)
  : result (list (Candidate cell)) :=
  let sources := source_df df in
  let sinks := sinks_df df in
  mapM (fun ss =>
          w <- source_weight reciprocal_weight sources (fst ss) ;;
          Ok (mkCandidate (fst ss) (snd ss) w metabolite))
       (product (map e_rxn sources) (map e_rxn sinks)).

Definition edge_weight_rows (reciprocal_weight : bool)
           (rxn_met_df : list Row) : result (list (Candidate cell)) :=
  groups <- mapM (fun g => group_candidates reciprocal_weight (fst g) (snd g))
                 (groupby String.eqb String.leb met rxn_met_df) ;;
  Ok (List.concat groups).

(** The loop over the groups, with its [if source != sink] guard. *)
Definition resolve_edges (reciprocal_weight : bool)
           (edge_weight_df : list (Candidate cell))
  : result (list (cell * cell * Nx.Attrs)) :=
  mapM (fun g =>
          resolve_group reciprocal_weight (fst (fst g)) (snd (fst g)) (snd g))
       (filter (fun g => negb (cell_eqb (fst (fst g)) (snd (fst g))))
               (groupby (pair_eqb cell_eqb) (pair_leb cell_eqb cell_leb)
                        (@pair_key cell) edge_weight_df)).

Section WithCobra.
Variable flux_variability_analysis :
  Model -> bool -> Q -> result FvaFrame.

Definition find_directed_edges_from_model
           (model : Model) (reciprocal_weight do_loopless : bool)
           (fva_prop : Q) : result (list (cell * cell * Nx.Attrs)) :=
  fva_results <- flux_variability_analysis model do_loopless fva_prop ;;
  rxn_met_df <- rxn_met_rows fva_results model ;;
  edge_weight_df <- edge_weight_rows reciprocal_weight rxn_met_df ;;
  resolve_edges reciprocal_weight edge_weight_df.
End WithCobra.

End ReactionNetwork.

(* ================================================================== *)
(** * scripts/create_metabolic_network.py                               *)
(* ================================================================== *)

Module Script.

(** Values of the attributes of the parsed [Namespace]. *)
Inductive value : Type :=
| VNone
| VBool (b : bool)
| VStr (s : string)
| VFloat (q : Q).

Inductive action : Type :=
| Store
| StoreTrue.

(** One [parser.add_argument(...)] call. *)
Record Argument : Type := mkArgument {
  option_strings : list string;
  act : action;
  dest : string;
  default : value
}.

(** The parser built by [arg_parse]. *)
Definition parser : list Argument :=
  [ mkArgument ["-i"; "--input"] Store "input_file" (VStr "");
    mkArgument ["-o"; "--output"] Store "output_file" (VStr "");
    mkArgument ["-f"; "--file-type"] Store "file_type" VNone;
    mkArgument ["-d"; "--directed"] StoreTrue "directed" (VBool false);
    mkArgument ["-v"; "--verbose"] StoreTrue "verbose" (VBool false);
    mkArgument ["-r"; "--reciprocal"] StoreTrue "reciprocal" (VBool true);
    mkArgument ["-p"; "--fva-proportion"] Store "fva_prop"
               (VFloat (95 # 100));
    mkArgument ["-l"; "--loopless"] StoreTrue "loopless" (VBool false) ].

Definition Namespace : Type := dict value.

(** [setattr(namespace, action.dest, action.default)] for every argument
    whose [dest] is not set yet. *)
Definition defaults (p : list Argument) : Namespace :=
  fold_left (fun ns a => if dict_mem (dest a) ns then ns
                         else dict_set (dest a) (default a) ns)
            p [].

Definition find_argument (p : list Argument) (option_string : string)
  : option Argument :=
  find (fun a => mem option_string (option_strings a)) p.

(** What an option does once argparse has matched it and collected its
    command line values: [store] keeps its single value, [store_true]
    takes none and stores [True]; anything else is a usage error. *)
Definition run_action (p : list Argument) (ns : Namespace)
           (occurrence : string * list string) : result Namespace :=
  match find_argument p (fst occurrence) with
  | None => Raise (SystemExit 2)
  | Some a =>
      match act a, snd occurrence with
      | Store, [v] => Ok (dict_set (dest a) (VStr v) ns)
      | StoreTrue, [] => Ok (dict_set (dest a) (VBool true) ns)
      | _, _ => Raise (SystemExit 2)
      end
  end.

Fixpoint run_actions (p : list Argument) (ns : Namespace)
         (occurrences : list (string * list string)) : result Namespace :=
  match occurrences with
  | [] => Ok ns
  | o :: t => ns' <- run_action p ns o ;; run_actions p ns' t
  end.

Definition getattr (ns : Namespace) (name : string) : result value :=
  of_option AttributeError (dict_get name ns).

(** [if x:] *)
Definition truthy (v : value) : bool :=
  match v with
  | VNone => false
  | VBool b => b
  | VStr s => negb (String.eqb s EmptyString)
  | VFloat q => negb (Qeq_bool q 0)
  end.

(** The call [main] makes once the arguments are parsed and the model is
    loaded, with its keyword arguments.  ([verbose] is passed too, a
    keyword that the two functions of metabolic_network.py do not take;
    what follows the call is not modelled.) *)
Inductive Call : Type :=
| create_directed_metabolic_network
    (model : option Model) (reciprocal_weight do_loopless fva_prop
                            verbose : value)
| create_metabolic_network (model : option Model) (verbose : value).

Section WithArgparse.
(** argparse's reading of the command line: the option strings it
    recognises in [argv] (abbreviations expanded, clusters of short
    flags split) in order, each with the values it consumed, or the
    exit of a usage error or of [--help]. *)
Variable scan : list string -> list string
                -> result (list (string * list string)).
Variable load_json_model : ModelArg -> result Model.
Variable read_sbml_model : ModelArg -> result Model.
Variable load_yaml_model : ModelArg -> result Model.
Variable load_matlab_model : ModelArg -> result Model.

Definition arg_parse (argv : list string) : result Namespace :=
  occurrences <- scan (flat_map option_strings parser) argv ;;
  run_actions parser (defaults parser) occurrences.

Definition as_model_arg (v : value) : ModelArg :=
  match v with
  | VStr s => ArgStr s
  | _ => ArgNone
  end.

Definition as_file_type (v : value) : option string :=
  match v with
  | VStr s => Some s
  | _ => None
  end.

(** [main], up to the call that builds the network. *)
Definition main_call (argv : list string) : result Call :=
  args <- arg_parse argv ;;
  verbose <- getattr args "verbose" ;;
  input_file <- getattr args "input_file" ;;
  file_type <- getattr args "file_type" ;;
  model <- load_cobra_model_from_file
             load_json_model read_sbml_model load_yaml_model
             load_matlab_model
             (as_model_arg input_file) (as_file_type file_type) ;;
  directed <- getattr args "directed" ;;
  if truthy directed then
    reciprocal <- getattr args "reciprocal" ;;
    loopless <- getattr args "loopless" ;;
    fva_prop <- getattr args "fva_prop" ;;
    Ok (create_directed_metabolic_network
          model reciprocal loopless fva_prop verbose)
  else Ok (create_metabolic_network model verbose).
End WithArgparse.

End Script.

Unset Implicit Arguments.

(* ================================================================== *)
(** * mycogeneexplorer/progress_bar.py                                  *)
(* ================================================================== *)

Module Progress.

(** The exceptions of the modules above, and the one a division adds. *)
Inductive exn : Type :=
| ZeroDivisionError
| Other (e : Py.exn).

Inductive result (A : Type) : Type :=
| Return (a : A)
| Throw (e : exn).
Arguments Return {A} a.
Arguments Throw {A} e.

Definition bind {A B} (r : result A) (k : A -> result B) : result B :=
  match r with
  | Return a => k a
  | Throw e => Throw e
  end.

Definition lift {A} (r : Py.result A) : result A :=
  match r with
  | Ok a => Return a
  | Raise e => Throw (Other e)
  end.

(** The attributes of a [ProgressBar]; [total], [divisions] and [per] are
    integers in every use the repository makes of the class. *)
Record ProgressBar : Type := mkProgressBar {
  complete : string;
  remain : string;
  total : Z;
  progress : Z;
  per : Z;
  divisions : Z
}.

(** [int(a / b)]: the division raises for [b = 0], and [int] rounds its
    quotient towards zero. *)
Definition int_div (a b : Z) : result Z :=
  if Z.eqb b 0 then Throw ZeroDivisionError else Return (Z.quot a b).

(** [ProgressBar(completed_symbol, remaining_symbol, total, divisions, per)];
    [if divisions:] holds for an integer other than [0]. *)
Definition init (completed_symbol remaining_symbol : string) (total : Z)
           (divisions : option Z) (per : Z) : result ProgressBar :=
  let without_divisions :=
    bind (int_div total per)
         (fun d => Return (mkProgressBar completed_symbol remaining_symbol
                                         total 0 per d)) in
  match divisions with
  | Some d =>
      if Z.eqb d 0 then without_divisions
      else Return (mkProgressBar completed_symbol remaining_symbol
                                 total 0 (total / d) d)
  | None => without_divisions
  end.

(** The default symbols ["■"] and ["□"], in UTF-8. *)
Definition black_square : string :=
  String (ascii_of_nat 226) (String (ascii_of_nat 150)
    (String (ascii_of_nat 160) EmptyString)).

Definition white_square : string :=
  String (ascii_of_nat 226) (String (ascii_of_nat 150)
    (String (ascii_of_nat 161) EmptyString)).

(** What one call of [print] writes: a text, or the percentage
    [f"{progress / total * 100:.2f}%"], kept as its two numbers. *)
Inductive printed : Type :=
| Text (s : string)
| Percent (progress total : Z).

Definition carriage_return : string := String (ascii_of_nat 13) EmptyString.
Definition line_feed : string := String (ascii_of_nat 10) EmptyString.

(** [bar.print_bar(progress)]: what it prints when it returns.  (What was
    printed before an exception is not kept.) *)
Definition print_bar (bar : ProgressBar) (progress : Z)
  : result (list printed) :=
  bind (int_div progress (per bar))
       (fun completed =>
          if Z.eqb (total bar) 0 then Throw ZeroDivisionError
          else
            Return
              ([Text carriage_return]
                 ++ repeat (Text (complete bar)) (Z.to_nat completed)
                 ++ repeat (Text (remain bar))
                           (Z.to_nat (divisions bar - completed))
                 ++ [Percent progress (total bar)]
                 ++ (if Z.eqb progress (total bar)
                     then [Text (line_feed ++ "Finished!" ++ line_feed)]
                     else []))%list).

(** [bar.inc()] *)
Definition inc (bar : ProgressBar) : result (ProgressBar * list printed) :=
  let bar := mkProgressBar (complete bar) (remain bar) (total bar)
                           (progress bar + 1) (per bar) (divisions bar) in
  bind (print_bar bar (progress bar)) (fun out => Return (bar, out)).

(** [if verbose: bar.inc()], where [bar] is bound exactly when [verbose]
    holds: [None] stands for the unbound name. *)
Definition tick (bar : option ProgressBar) : result (option ProgressBar) :=
  match bar with
  | Some b => bind (inc b) (fun r => Return (Some (fst r)))
  | None => Return None
  end.

(** [if verbose: bar = ProgressBar(total=total, divisions=10)] *)
Definition start (verbose : bool) (total : Z) : result (option ProgressBar) :=
  if verbose
  then bind (init black_square white_square total (Some 10%Z) 10)
            (fun b => Return (Some b))
  else Return None.

End Progress.

(* ================================================================== *)
(** * reaction_network.py: the undirected network, with [verbose]       *)
(*    (of the progress output, only its exceptions are kept)            *)
(* ================================================================== *)

Module VerboseReactionNetwork.

Import Progress.

(** The loop over [model.reactions] (lines 34-41). *)
Fixpoint rxn_met_loop (bar : option ProgressBar) (reactions : list Reaction)
         (rxn_met : list (string * string))
  : result (list (string * string)) :=
  match reactions with
  | [] => Return rxn_met
  | r :: rest =>
      bind (tick bar)
           (fun bar =>
              rxn_met_loop bar rest
                (rxn_met ++ map (fun m => (id r, fst m)) (metabolites r))%list)
  end.

(** The loop over [rxn_met_df.groupby("met")] (lines 48-53). *)
Fixpoint edge_loop (bar : option ProgressBar)
         (groups : list (string * list (string * string)))
         (edge_list : list Nx.Edge) : result (list Nx.Edge) :=
  match groups with
  | [] => Return edge_list
  | grp :: rest =>
      bind (tick bar)
           (fun bar =>
              edge_loop bar rest
                (edge_list
                   ++ map (fun ij => (fst ij, snd ij,
                                      Nx.mkAttrs None (Some (fst grp))))
                          (filter (fun ij => negb (String.eqb (fst ij) (snd ij)))
                                  (combinations2 (map fst (snd grp)))))%list)
  end.

Definition find_edges_from_model (model : Model) (verbose : bool)
  : result (list Nx.Edge) :=
  bind (start verbose (Z.of_nat (List.length model)))
       (fun bar =>
  bind (rxn_met_loop bar model [])
       (fun rxn_met_df =>
  bind (start verbose
              (Z.of_nat (List.length
                           (unique String.eqb (map snd rxn_met_df)))))
       (fun bar =>
          edge_loop bar (groupby String.eqb String.leb snd rxn_met_df) []))).

Section WithCobra.
Variable load_json_model : ModelArg -> Py.result Model.
Variable read_sbml_model : ModelArg -> Py.result Model.
Variable load_yaml_model : ModelArg -> Py.result Model.
Variable load_matlab_model : ModelArg -> Py.result Model.

Definition create_reaction_network
           (model : ModelArg) (file_type : option string) (verbose : bool)
  : result Nx.Graph :=
  bind (lift (resolve_model load_json_model read_sbml_model load_yaml_model
                            load_matlab_model model file_type))
       (fun metabolic_model =>
          let metabolic_graph :=
            MetabolicNetwork.add_reaction_nodes
              metabolic_model (Nx.empty_graph false) in
          bind (find_edges_from_model metabolic_model verbose)
               (fun edges =>
                  Return (Nx.add_edges_from edges metabolic_graph))).
End WithCobra.

End VerboseReactionNetwork.

(* ================================================================== *)
(** * mycogeneexplorer/metabolite_network.py: [find_edges_from_model]   *)
(* ================================================================== *)

Module MetaboliteNetwork.

Import Progress.

(** An edge [(source, target, {"reaction": rxn_name})]. *)
Definition Edge : Type := string * string * string.

(** The body of the loop over [rxn.metabolites], on the lists [sources]
    and [targets]. *)
Definition classify (rxn : Reaction) (st : list string * list string)
           (met_name : string) : Py.result (list string * list string) :=
  if negb (reversibility rxn) then
    c <- get_coefficient rxn met_name ;;
    if Qltb c 0 then Ok (fst st ++ [met_name], snd st)%list
    else
      c <- get_coefficient rxn met_name ;;
      if Qltb 0 c then Ok (fst st, snd st ++ [met_name])%list
      else Ok st
  else Ok (fst st ++ [met_name], snd st ++ [met_name])%list.

Fixpoint classify_all (rxn : Reaction) (mets : list string)
         (st : list string * list string)
  : Py.result (list string * list string) :=
  match mets with
  | [] => Ok st
  | met_name :: rest =>
      st <- classify rxn st met_name ;; classify_all rxn rest st
  end.

(** The loop over [itertools.product(sources, targets)]. *)
Definition reaction_edges (rxn : Reaction) (st : list string * list string)
  : list Edge :=
  map (fun p => (fst p, snd p, id rxn))
      (filter (fun p => negb (String.eqb (fst p) (snd p)))
              (product (fst st) (snd st))).

(** The loop over [model.reactions]. *)
Fixpoint edge_loop (bar : option ProgressBar) (reactions : list Reaction)
         (edge_list : list Edge) : result (list Edge) :=
  match reactions with
  | [] => Return edge_list
  | rxn :: rest =>
      bind (tick bar)
           (fun bar =>
      bind (lift (classify_all rxn (keys (metabolites rxn)) ([], [])))
           (fun st =>
              edge_loop bar rest (edge_list ++ reaction_edges rxn st)%list))
  end.

Definition find_edges_from_model (model : Model) (verbose : bool)
  : result (list Edge) :=
  bind (start verbose (Z.of_nat (List.length model)))
       (fun bar => edge_loop bar model []).

End MetaboliteNetwork.

(* ================================================================== *)
(** * mycogeneexplorer/read_gene_list.py                                *)
(* ================================================================== *)

Module ReadGeneList.

(** [[a-zA-Z0-9]] *)
Definition is_alnum (c : ascii) : bool :=
  let n := nat_of_ascii c in
  ((97 <=? n)%nat && (n <=? 122)%nat)
  || ((65 <=? n)%nat && (n <=? 90)%nat)
  || ((48 <=? n)%nat && (n <=? 57)%nat).

(** [re.findall("[a-zA-Z0-9]+", s)], read from the left: [run] holds the
    characters of the match in progress, which ends at the first character
    outside the class or at the end of the string. *)
Fixpoint findall_alnum (run : string) (s : string) : list string :=
  match s with
  | EmptyString => if String.eqb run EmptyString then [] else [run]
  | String c t =>
      if is_alnum c then findall_alnum (run ++ String c EmptyString) t
      else ((if String.eqb run EmptyString then [] else [run])
              ++ findall_alnum EmptyString t)%list
  end.

Definition parse_list (genes : string) : list string :=
  findall_alnum EmptyString genes.

(** What [json.load] returns for the files of [data/name_dicts]: a list of
    strings or a dict from strings to strings. *)
Inductive json : Type :=
| JList (l : list string)
| JDict (d : dict string).

(** [gene in j] *)
Definition contains (j : json) (gene : string) : bool :=
  match j with
  | JList l => mem gene l
  | JDict d => dict_mem gene d
  end.

(** [j[gene]] *)
Definition subscript (j : json) (gene : string) : result string :=
  match j with
  | JList _ => Raise TypeError
  | JDict d => of_option KeyError (dict_get gene d)
  end.

(** [with open(path, "r") as f: json.load(f)] *)
Definition load (fs : dict json) (path : string) : result json :=
  of_option OSError (dict_get path fs).

(** The body of the loop over [genes_list]. *)
Definition translate_gene (names_to_locus uniprot_to_locus locus_list : json)
           (final_list : list string) (gene : string)
  : result (list string) :=
  if contains locus_list gene then Ok (final_list ++ [gene])%list
  else if contains uniprot_to_locus gene then
    locus <- subscript uniprot_to_locus gene ;;
    Ok (final_list ++ [locus])%list
  else if contains names_to_locus gene then
    locus <- subscript names_to_locus gene ;;
    Ok (final_list ++ [locus])%list
  else Ok final_list.

Fixpoint translate_genes (names_to_locus uniprot_to_locus locus_list : json)
         (genes_list : list string) (final_list : list string)
  : result (list string) :=
  match genes_list with
  | [] => Ok final_list
  | gene :: rest =>
      final_list <- translate_gene names_to_locus uniprot_to_locus
                      locus_list final_list gene ;;
      translate_genes names_to_locus uniprot_to_locus locus_list
                      rest final_list
  end.

Definition translate_list (fs : dict json) (genes : string)
           (names_to_locus_path uniprot_to_locus_path locus_list_path
            : string) : result (list string) :=
  let genes_list := parse_list genes in
  names_to_locus <- load fs names_to_locus_path ;;
  uniprot_to_locus <- load fs uniprot_to_locus_path ;;
  locus_list <- load fs locus_list_path ;;
  translate_genes names_to_locus uniprot_to_locus locus_list genes_list [].

End ReadGeneList.

(* ================================================================== *)
(** * scripts/create_metabolic_network.py: [main] to its end            *)
(* ================================================================== *)

Module ScriptMain.

Import Script.

(** The parameters of the function a call names, as metabolic_network.py
    declares them. *)
Definition parameters (c : Call) : list string :=
  match c with
  | create_directed_metabolic_network _ _ _ _ _ =>
      ["model"; "file_type"; "reciprocal_weight"; "do_loopless"; "fva_prop"]
  | create_metabolic_network _ _ => ["model"; "file_type"]
  end.

(** The keywords of the call; [model] is passed by position. *)
Definition keywords (c : Call) : list string :=
  match c with
  | create_directed_metabolic_network _ _ _ _ _ =>
      ["reciprocal_weight"; "do_loopless"; "fva_prop"; "verbose"]
  | create_metabolic_network _ _ => ["verbose"]
  end.

(** Binding the arguments of a call: a keyword that names no parameter of
    the function is a [TypeError], raised before the body runs. *)
Definition bind_arguments (c : Call) : result unit :=
  if forallb (fun k => mem k (parameters c)) (keywords c) then Ok tt
  else Raise TypeError.

Definition as_path (v : value) : string :=
  match v with
  | VStr s => s
  | _ => EmptyString
  end.

Section Main.
Variable scan : list string -> list string
                -> result (list (string * list string)).
Variable load_json_model : ModelArg -> result Model.
Variable read_sbml_model : ModelArg -> result Model.
Variable load_yaml_model : ModelArg -> result Model.
Variable load_matlab_model : ModelArg -> result Model.
(** The body of the function called, run on the bound arguments. *)
Variable body : Call -> result Nx.Graph.

Definition call (c : Call) : result Nx.Graph :=
  _ <- bind_arguments c ;; body c.

Definition main (argv : list string) (fs : MetabolicNetwork.FileSystem)
  : result MetabolicNetwork.FileSystem :=
  args <- arg_parse scan argv ;;
  verbose <- getattr args "verbose" ;;
  input_file <- getattr args "input_file" ;;
  file_type <- getattr args "file_type" ;;
  model <- load_cobra_model_from_file
             load_json_model read_sbml_model load_yaml_model
             load_matlab_model
             (as_model_arg input_file) (as_file_type file_type) ;;
  directed <- getattr args "directed" ;;
  metabolic_network <-
    (if truthy directed then
       reciprocal <- getattr args "reciprocal" ;;
       loopless <- getattr args "loopless" ;;
       fva_prop <- getattr args "fva_prop" ;;
       call (create_directed_metabolic_network
               model reciprocal loopless fva_prop verbose)
     else call (create_metabolic_network model verbose)) ;;
  output_file <- getattr args "output_file" ;;
  Ok (MetabolicNetwork.write_network metabolic_network (as_path output_file)
                                     fs).
End Main.

End ScriptMain.

(* ================================================================== *)
(** * Vocabulary of the properties                                      *)
(* ================================================================== *)

Unset Implicit Arguments.

(** ** Graphs *)

Module NxSpec.

Import Nx.

(** [adj[u][v]] *)
Definition lookup2 (u v : string) (a : dict (dict Attrs)) : option Attrs :=
  dict_get v (match dict_get u a with Some n => n | None => [] end).

(** [adj[u][v] = d], creating no node. *)
Definition put (u v : string) (d : Attrs) (a : dict (dict Attrs))
  : dict (dict Attrs) :=
  dict_set u
    (dict_set v d (match dict_get u a with Some n => n | None => [] end)) a.

Definition rows_nodup (a : dict (dict Attrs)) : Prop :=
  forall n nbrs, dict_get n a = Some nbrs -> NoDup (keys nbrs).

Definition datadict (u v : string) (dd : Attrs) (g : Graph) : Attrs :=
  update (match edge_data g u v with Some d => d | None => no_attrs end) dd.

(** Does the edge [a]-[b] occupy the slot [adj[u][v]]? *)
Definition hits (dir : bool) (a b u v : string) : bool :=
  (String.eqb u a && String.eqb v b)
  || (negb dir && (String.eqb u b && String.eqb v a)).

(** A graph as the methods of networkx keep it: no node and no neighbour
    is stored twice, every neighbour is a node, and an undirected graph
    holds the data of an edge under both orientations. *)
Record wf_graph (g : Graph) : Prop := mkWf {
  wf_nodes : NoDup (nodes g);
  wf_rows : rows_nodup (adj g);
  wf_closed : forall u v d, edge_data g u v = Some d -> In v (nodes g);
  wf_sym : directed g = false ->
           forall u v, edge_data g u v = edge_data g v u
}.

End NxSpec.

(** ** Edge resolution *)

Module ResolveSpec.

Import EdgeFrame.

Section Keyed.
Variable K : Type.
Variable eqb : K -> K -> bool.

(** [c] is the candidate of [group] that the resolution rule keeps: its
    weight is the least (or, without reciprocal weights, the greatest) of
    the group, and no candidate produced before it has an equal weight. *)
Definition first_best (reciprocal_weight : bool)
           (group : list (Candidate K)) (c : Candidate K) : Prop :=
  exists before after,
    group = (before ++ c :: after)%list
    /\ (forall c', In c' group ->
          if reciprocal_weight then (weight c <= weight c')%Q
          else (weight c' <= weight c)%Q)
    /\ (forall c', In c' before -> ~ (weight c' == weight c)%Q).

(** What relates a group to the edge emitted for it. *)
Definition resolved (rw : bool) (g : K * K * list (Candidate K))
           (e : K * K * Nx.Attrs) : Prop :=
  exists c, e = to_edge (fst (fst g)) (snd (fst g)) c
            /\ first_best rw (snd g) c.

Definition joins (k : K * K) (e : K * K * Nx.Attrs) : bool :=
  eqb (fst (fst e)) (fst k) && eqb (snd (fst e)) (snd k).

End Keyed.

Arguments first_best {K} reciprocal_weight group c.
Arguments resolved {K} rw g e.
Arguments joins {K} eqb k e.

End ResolveSpec.

(** ** Sources and sinks *)

Module FrameSpec.

Import EdgeFrame RxnMetFrame.

Module MN.

Import MetabolicNetwork.

(** Where an entry of [source_df] comes from. *)
Inductive source_of (r : Row) : Entry -> Prop :=
| irreversible_source :
    reversible r = false -> (0 < coefficient r)%Q ->
    source_of r (keep_flux_max r)
| forward_source :
    reversible r = true -> (0 < coefficient r)%Q -> (0 < flux_max r)%Q ->
    source_of r (keep_flux_max r)
| reverse_source :
    reversible r = true -> (coefficient r < 0)%Q -> (flux_min r < 0)%Q ->
    source_of r (negate (keep_flux_min r)).

Inductive sink_of (r : Row) : Entry -> Prop :=
| irreversible_sink :
    reversible r = false -> (coefficient r < 0)%Q ->
    sink_of r (keep_flux_max r)
| reverse_sink :
    reversible r = true -> (0 < coefficient r)%Q -> (flux_min r < 0)%Q ->
    sink_of r (negate (keep_flux_min r))
| forward_sink :
    reversible r = true -> (coefficient r < 0)%Q -> (0 < flux_max r)%Q ->
    sink_of r (keep_flux_max r).

(** The candidates of one metabolite group, as §4.2 describes them. *)
Definition expected_candidates (rw : bool) (metabolite : string)
           (df : list Row) : list (Candidate string) :=
  map (fun st =>
         mkCandidate (e_rxn (fst st)) (e_rxn (snd st))
                     (edge_weight rw (e_flux (fst st))
                                  (e_coefficient (fst st)))
                     metabolite)
      (product (source_df df) (sinks_df df)).

End MN.

Module RN.

Import ReactionNetwork.

Definition zero_entry : Entry := mkEntry (CInt 0) (CInt 0) 0 0.

Inductive source_of (r : Row) : Entry -> Prop :=
| irreversible_source :
    reversible r = false -> (0 < coefficient r)%Q ->
    source_of r (zero_negative_flux (keep_flux_max r))
| forward_source :
    reversible r = true -> (0 < coefficient r)%Q -> (0 < flux_max r)%Q ->
    source_of r (keep_flux_max r)
| reverse_source :
    reversible r = true -> (coefficient r < 0)%Q -> (flux_min r < 0)%Q ->
    source_of r (negate (keep_flux_min r)).

Definition expected_candidates (rw : bool) (metabolite : string)
           (df : list Row) : list (Candidate cell) :=
  map (fun st =>
         mkCandidate (e_rxn (fst st)) (e_rxn (snd st))
                     (edge_weight rw (e_flux (fst st))
                                  (e_coefficient (fst st)))
                     metabolite)
      (product (source_df df) (sinks_df df)).

End RN.

End FrameSpec.

(** ** Models, graphs and the command line *)

Import EdgeFrame RxnMetFrame.

(** Stand-ins for cobra in closed examples: a flux variability analysis
    that returns a given frame, and loaders that find no file. *)
Definition fixed_fva (t : FvaFrame) : Model -> bool -> Q -> result FvaFrame :=
  fun _ _ _ => Ok t.

Definition no_file : ModelArg -> result Model := fun _ => Raise OSError.

(** The format tags [load_cobra_model_from_file] dispatches on. *)
Definition recognised_tags : list string :=
  ["JSON"; "json"; ".json"; "sbml"; "xml"; "SBML"; ".xml";
   "yaml"; ".yml"; "YAML"; "matlab"; "mat"; ".mat"; "Matlab"; "MatLab"].

(** A reading of the command line for closed examples: a word that starts
    with a dash is an option, the words after it are its values. *)
Fixpoint split_options (argv : list string)
  : list string * list (string * list string) :=
  match argv with
  | [] => ([], [])
  | a :: t =>
      if String.prefix "-" a
      then ([], (a, fst (split_options t)) :: snd (split_options t))
      else (a :: fst (split_options t), snd (split_options t))
  end.

Definition simple_scan (option_strings argv : list string)
  : result (list (string * list string)) :=
  match fst (split_options argv) with
  | [] => Ok (snd (split_options argv))
  | _ => Raise (SystemExit 2)
  end.

(** The reactions that take part in some metabolite. *)
Definition incident (model : Model) (i : string) : Prop :=
  exists r, In r model /\ id r = i /\ metabolites r <> [].

(** What C9 says of a graph [g] built from [model]. *)
Definition nodes_are_reactions (model : Model) (directed : bool)
           (g : Nx.Graph) : Prop :=
  (forall n, In n (Nx.nodes g) <-> In n (map id model))
  /\ NoDup (Nx.nodes g)
  /\ Nx.nodes g
     = Nx.nodes (MetabolicNetwork.add_reaction_nodes
                   model (Nx.empty_graph directed))
  /\ (NoDup (map id model) -> Nx.nodes g = map id model)
  /\ (NoDup (map id model) ->
      forall r, In r model -> metabolites r = [] ->
                forall v, Nx.edge_data g (id r) v = None
                          /\ Nx.edge_data g v (id r) = None).

(** [d] is the data of an edge from [u] to [v] in the edge view of [g]; an
    undirected edge is listed under one orientation and joins both ways. *)
Definition joined (g : Nx.Graph) (u v : string) (d : Nx.Attrs) : Prop :=
  In (u, v, d) (Nx.edges g)
  \/ (Nx.directed g = false /\ In (v, u, d) (Nx.edges g)).

(** Equality of graphs in the directed flag, the nodes and the edges with
    their attributes. *)
Definition same_graph (g g' : Nx.Graph) : Prop :=
  Nx.directed g' = Nx.directed g
  /\ Nx.nodes g' = Nx.nodes g
  /\ (forall u v, Nx.edge_data g' u v = Nx.edge_data g u v)
  /\ (forall u v d, joined g' u v d <-> joined g u v d).

(** The metabolites that two reactions share. *)
Definition shared (r1 r2 : Reaction) (m : string) : Prop :=
  In m (keys (metabolites r1)) /\ In m (keys (metabolites r2)).

Definition sharedb (r1 r2 : Reaction) (m : string) : bool :=
  existsb (String.eqb m) (keys (metabolites r1))
  && existsb (String.eqb m) (keys (metabolites r2)).

(** The edges of [edge_list] that come from the group of metabolite [k]. *)
Definition group_edges (model : Model) (k : string) : list Nx.Edge :=
  map (fun ij => (fst ij, snd ij, Nx.mkAttrs None (Some k)))
      (combinations2
         (map fst (group_rows String.eqb snd k (rxn_met_pairs model)))).

(** Does the edge [e] join [u] and [v], in either orientation? *)
Definition joinsb (u v : string) (e : Nx.Edge) : bool :=
  NxSpec.hits false (fst (fst e)) (snd (fst e)) u v.

Definition unweighted (g : Nx.Graph) : Prop :=
  forall u v d, Nx.edge_data g u v = Some d -> Nx.weight d = None.

Definition metabolite_only (e : Nx.Edge) : Prop :=
  exists k, snd e = Nx.mkAttrs None (Some k).

(** The undirected graph of [model], before the loader is involved. *)
Definition undirected_graph (model : Model) : Nx.Graph :=
  Nx.add_edges_from (MetabolicNetwork.find_edges_from_model model)
    (MetabolicNetwork.add_reaction_nodes model (Nx.empty_graph false)).

Ltac nodup_strings :=
  repeat (constructor; [simpl; intuition discriminate|]); constructor.

Ltac wf_model_concrete :=
  split; [simpl; nodup_strings
         | intros ? Hin; simpl in Hin;
           repeat (destruct Hin as [<-|Hin]; [simpl; nodup_strings|]);
           contradiction].

(** ** Flux intervals and the direction of an edge *)


(** Under the flux intervals of [table], reaction [r] can release [m]: it
    produces [m] and is irreversible or can run forward, or it consumes [m]
    and can run in reverse. *)
Definition produces (table : FvaFrame) (r : Reaction) (m : string) : Prop :=
  exists c range,
    dict_get m (metabolites r) = Some c
    /\ dict_get (id r) table = Some range
    /\ if reversibility r
       then (0 < c /\ 0 < maximum range)%Q \/ (c < 0 /\ minimum range < 0)%Q
       else (0 < c)%Q.

(** Reaction [r] can take up [m]. *)
Definition consumes (table : FvaFrame) (r : Reaction) (m : string) : Prop :=
  exists c range,
    dict_get m (metabolites r) = Some c
    /\ dict_get (id r) table = Some range
    /\ if reversibility r
       then (0 < c /\ minimum range < 0)%Q \/ (c < 0 /\ 0 < maximum range)%Q
       else (c < 0)%Q.

(** The row of [rxn_met_df] for reaction [r] and its metabolite [m]. *)
Definition row_of (table : FvaFrame) (r : Reaction) (m : string) (row : Row)
  : Prop :=
  exists c range,
    dict_get m (metabolites r) = Some c
    /\ dict_get (id r) table = Some range
    /\ row = mkRow (id r) m (reversibility r) c (maximum range)
                   (minimum range).

(** ** File names *)

Definition newline : string := String (ascii_of_nat 10) EmptyString.

Fixpoint all_lower (s : string) : bool :=
  match s with
  | EmptyString => true
  | String c t => is_lower c && all_lower t
  end.

(** [path] ends in a dot and the lower case letters [tag], with at most a
    newline after them. *)
Definition extension_of (path tag : string) : Prop :=
  exists stem nl,
    path = stem ++ "." ++ tag ++ nl
    /\ tag <> EmptyString /\ all_lower tag = true
    /\ (nl = EmptyString \/ nl = newline).

Fixpoint last_char (s : string) : option ascii :=
  match s with
  | EmptyString => None
  | String c EmptyString => Some c
  | String _ t => last_char t
  end.

(** ** Progress bars *)

(** Has the model between one and nine of them? *)
Definition too_few (n : nat) : bool := (0 <? n)%nat && (n <? 10)%nat.

(** The number of metabolites that take part in a reaction of [model]. *)
Definition metabolite_count (model : Model) : nat :=
  List.length (unique String.eqb (map snd (rxn_met_pairs model))).

(** A bar that every [inc] leaves able to run, or no bar at all. *)
Definition runs (bar : option Progress.ProgressBar) : Prop :=
  match bar with
  | Some b => Progress.per b <> 0%Z /\ Progress.total b <> 0%Z
  | None => True
  end.

(** ** Metabolite networks *)

(** [r] can use up [m]: [m] is a metabolite of a reversible reaction, or
    has a negative coefficient. *)
Definition substrate (r : Reaction) (m : string) : Prop :=
  exists c, dict_get m (metabolites r) = Some c
            /\ (reversibility r = true \/ (c < 0)%Q).

(** [r] can release [m]. *)
Definition released (r : Reaction) (m : string) : Prop :=
  exists c, dict_get m (metabolites r) = Some c
            /\ (reversibility r = true \/ (0 < c)%Q).

Definition substrateb (r : Reaction) (m : string) : bool :=
  match dict_get m (metabolites r) with
  | Some c => reversibility r || Qltb c 0
  | None => false
  end.

Definition releasedb (r : Reaction) (m : string) : bool :=
  match dict_get m (metabolites r) with
  | Some c => reversibility r || Qltb 0 c
  | None => false
  end.

(** The edges of one reaction, without the loops. *)
Definition metabolite_edges (r : Reaction) : list MetaboliteNetwork.Edge :=
  MetaboliteNetwork.reaction_edges r
    (filter (substrateb r) (keys (metabolites r)),
     filter (releasedb r) (keys (metabolites r))).

(** ** Gene lists *)

Fixpoint all_alnum (s : string) : bool :=
  match s with
  | EmptyString => true
  | String c t => ReadGeneList.is_alnum c && all_alnum t
  end.

Fixpoint no_alnum (s : string) : bool :=
  match s with
  | EmptyString => true
  | String c t => negb (ReadGeneList.is_alnum c) && no_alnum t
  end.

(** A gene name: a string of letters and digits with at least one of
    them. *)
Definition is_token (s : string) : Prop :=
  s <> EmptyString /\ all_alnum s = true.

(** What one gene contributes to the translated list. *)
Definition locus_of (names uniprot : dict string) (locus : list string)
           (gene : string) : list string :=
  if mem gene locus then [gene]
  else match dict_get gene uniprot with
       | Some l => [l]
       | None => match dict_get gene names with
                 | Some l => [l]
                 | None => []
                 end
       end.

(* ================================================================== *)
(** * Properties                                                        *)
(* ================================================================== *)

(** ** The model on small inputs *)

Example findall_extension_examples :
  findall_extension "models/iEK1011.json" = [".json"]
  /\ findall_extension "archive.tar.gz" = [".gz"]
  /\ findall_extension "model.JSON" = []
  /\ findall_extension "model" = [].
Proof. repeat split. Qed.

Example load_dispatch_examples :
  load_cobra_model_from_file (fun _ => Ok []) no_file no_file no_file
    (ArgStr "m.json") None = Ok (Some [])
  /\ load_cobra_model_from_file no_file no_file no_file no_file
       (ArgStr "m.yml") None = Ok None
  /\ load_cobra_model_from_file no_file no_file no_file no_file
       (ArgStr "m") None = Raise IndexError
  /\ load_cobra_model_from_file no_file no_file no_file no_file
       (ArgStr "m") (Some "xml") = Raise OSError.
Proof. repeat split. Qed.

Example groupby_example :
  groupby String.eqb String.leb snd
          [("R1", "b"); ("R1", "a"); ("R2", "b"); ("R3", "a")]
  = [("a", [("R1", "a"); ("R3", "a")]); ("b", [("R1", "b"); ("R2", "b")])].
Proof. reflexivity. Qed.

Example undirected_edge_view_example :
  Nx.edges (Nx.add_edges_from
              [("b", "c", Nx.no_attrs); ("a", "b", Nx.no_attrs)]
              (Nx.add_node "b" (Nx.add_node "a" (Nx.empty_graph false))))
  = [("a", "b", Nx.no_attrs); ("b", "c", Nx.no_attrs)].
Proof. reflexivity. Qed.

(** ** The exception monad *)

Lemma mapM_total {A B} (f : A -> result B) (g : A -> B) (l : list A) :
  (forall x, In x l -> f x = Ok (g x)) -> mapM f l = Ok (map g l).
Proof.
  induction l as [|x t IH]; intros H; simpl; [reflexivity|].
  rewrite (H x (or_introl eq_refl)); simpl.
  rewrite IH; [reflexivity|].
  intros y Hy; apply H; right; exact Hy.
Qed.

Lemma mapM_Ok_inv {A B} (f : A -> result B) (l : list A) (ys : list B) :
  mapM f l = Ok ys -> Forall2 (fun x y => f x = Ok y) l ys.
Proof.
  revert ys; induction l as [|x t IH]; intros ys; simpl.
  - intros H; injection H as <-; constructor.
  - destruct (f x) as [y|e] eqn:Hx; simpl; [|discriminate].
    destruct (mapM f t) as [ys'|e] eqn:Ht; simpl; [|discriminate].
    intros H; injection H as <-.
    constructor; [exact Hx | apply IH; reflexivity].
Qed.

Lemma mapM_Ok_In {A B} (f : A -> result B) (l : list A) (ys : list B) :
  mapM f l = Ok ys -> forall y, In y ys -> exists x, In x l /\ f x = Ok y.
Proof.
  intros H; apply mapM_Ok_inv in H.
  induction H as [|x y l' ys' Hx _ IH]; intros z Hz; [contradiction|].
  destruct Hz as [<-|Hz].
  - exists x; split; [left; reflexivity | exact Hx].
  - destruct (IH z Hz) as [x' [Hin Hx']].
    exists x'; split; [right; exact Hin | exact Hx'].
Qed.

(** When every element can only fail with [e], so can the whole loop. *)
Lemma mapM_Raise_only {A B} (e : exn) (f : A -> result B) (l : list A) :
  (forall x e', In x l -> f x = Raise e' -> e' = e) ->
  forall e', mapM f l = Raise e' -> e' = e.
Proof.
  induction l as [|x t IH]; intros H e'; simpl; [discriminate|].
  destruct (f x) as [y|e0] eqn:Hx; simpl.
  - destruct (mapM f t) as [ys|e1] eqn:Ht; simpl; [discriminate|].
    intros H1; injection H1 as <-.
    apply IH; [|reflexivity].
    intros z e2 Hz; apply H; right; exact Hz.
  - intros H1; injection H1 as <-.
    apply (H x e0); [left; reflexivity | exact Hx].
Qed.

Lemma mapM_fails {A B} (f : A -> result B) (l : list A) (x : A) :
  In x l -> (forall y, f x <> Ok y) -> forall ys, mapM f l <> Ok ys.
Proof.
  intros Hin Hx ys Hok.
  apply mapM_Ok_inv in Hok.
  revert ys Hok; induction l as [|a t IH]; intros ys Hok; [contradiction|].
  inversion Hok as [|? y ? ys' Ha Ht]; subst.
  destruct Hin as [->|Hin]; [exact (Hx y Ha) | exact (IH Hin ys' Ht)].
Qed.

(** ** Dictionaries *)

Lemma dict_get_set_same {V} (k : string) (v : V) (d : dict V) :
  dict_get k (dict_set k v d) = Some v.
Proof.
  induction d as [|[k' v'] t IH]; simpl.
  - rewrite String.eqb_refl; reflexivity.
  - destruct (String.eqb k k') eqn:E; simpl; rewrite E; [reflexivity|exact IH].
Qed.

Lemma dict_get_set_other {V} (k k0 : string) (v : V) (d : dict V) :
  k0 <> k -> dict_get k0 (dict_set k v d) = dict_get k0 d.
Proof.
  intros Hne; induction d as [|[k' v'] t IH]; simpl.
  - apply String.eqb_neq in Hne; rewrite Hne; reflexivity.
  - destruct (String.eqb k k') eqn:E; simpl.
    + apply String.eqb_eq in E; subst k'.
      apply String.eqb_neq in Hne; rewrite Hne; reflexivity.
    + rewrite IH; reflexivity.
Qed.

Lemma dict_get_In {V} (k : string) (v : V) (d : dict V) :
  dict_get k d = Some v -> In (k, v) d.
Proof.
  induction d as [|[k' v'] t IH]; simpl; [discriminate|].
  destruct (String.eqb k k') eqn:E.
  - apply String.eqb_eq in E; subst k'.
    intros H; injection H as ->; left; reflexivity.
  - intros H; right; apply IH; exact H.
Qed.

Lemma dict_get_None {V} (k : string) (d : dict V) :
  dict_get k d = None <-> ~ In k (keys d).
Proof.
  induction d as [|[k' v'] t IH]; simpl.
  - split; [intros _ []|reflexivity].
  - destruct (String.eqb k k') eqn:E.
    + apply String.eqb_eq in E; subst k'.
      split; [discriminate|intros H; exfalso; apply H; left; reflexivity].
    + apply String.eqb_neq in E.
      rewrite IH; split.
      * intros H [H1|H1]; [apply E; symmetry; exact H1 | exact (H H1)].
      * intros H H1; apply H; right; exact H1.
Qed.

Lemma dict_mem_In {V} (k : string) (d : dict V) :
  dict_mem k d = true <-> In k (keys d).
Proof.
  unfold dict_mem.
  destruct (dict_get k d) eqn:E.
  - split; [intros _|reflexivity].
    apply dict_get_In in E.
    apply (in_map fst) in E; exact E.
  - split; [discriminate|].
    intros H; apply dict_get_None in E; contradiction.
Qed.

Lemma In_dict_get {V} (k : string) (v : V) (d : dict V) :
  NoDup (keys d) -> In (k, v) d -> dict_get k d = Some v.
Proof.
  induction d as [|[k' v'] t IH]; simpl; [intros _ []|].
  intros Hnd [H|H].
  - injection H as -> ->; rewrite String.eqb_refl; reflexivity.
  - inversion Hnd as [|? ? Hnotin Hnd']; subst.
    destruct (String.eqb k k') eqn:E.
    + apply String.eqb_eq in E; subst k'.
      exfalso; apply Hnotin.
      apply (in_map fst) in H; exact H.
    + apply IH; assumption.
Qed.

Lemma keys_dict_set {V} (k : string) (v : V) (d : dict V) :
  keys (dict_set k v d) = if dict_mem k d then keys d else (keys d ++ [k])%list.
Proof.
  unfold dict_mem.
  induction d as [|[k' v'] t IH]; simpl; [reflexivity|].
  destruct (String.eqb k k') eqn:E; simpl; [reflexivity|].
  rewrite IH.
  destruct (dict_get k t); reflexivity.
Qed.

Lemma NoDup_keys_dict_set {V} (k : string) (v : V) (d : dict V) :
  NoDup (keys d) -> NoDup (keys (dict_set k v d)).
Proof.
  intros Hnd; rewrite keys_dict_set.
  destruct (dict_mem k d) eqn:E; [exact Hnd|].
  apply NoDup_app; [exact Hnd | repeat constructor; intros [] | ].
  intros x Hx [<-|[]].
  apply dict_mem_In in Hx; congruence.
Qed.

(** ** networkx graphs *)

Module NxFacts.

Import Nx NxSpec.

Lemma edge_data_lookup2 g u v : edge_data g u v = lookup2 u v (adj g).
Proof. reflexivity. Qed.

Lemma lookup2_put a b d adj0 u v :
  lookup2 u v (put a b d adj0) =
  if String.eqb u a && String.eqb v b then Some d else lookup2 u v adj0.
Proof.
  unfold lookup2, put.
  destruct (String.eqb_spec u a) as [->|Hu]; simpl.
  - rewrite dict_get_set_same.
    destruct (String.eqb_spec v b) as [->|Hv].
    + apply dict_get_set_same.
    + apply dict_get_set_other; exact Hv.
  - rewrite dict_get_set_other by exact Hu; reflexivity.
Qed.

Lemma keys_put a b d adj0 :
  In a (keys adj0) -> keys (put a b d adj0) = keys adj0.
Proof.
  intros H; unfold put; rewrite keys_dict_set.
  apply dict_mem_In in H; rewrite H; reflexivity.
Qed.

Lemma rows_nodup_put a b d adj0 :
  rows_nodup adj0 -> rows_nodup (put a b d adj0).
Proof.
  intros H n nbrs; unfold put.
  destruct (string_dec n a) as [->|Hne].
  - rewrite dict_get_set_same; intros E; injection E as <-.
    apply NoDup_keys_dict_set.
    destruct (dict_get a adj0) eqn:Ea; [exact (H a _ Ea) | constructor].
  - rewrite dict_get_set_other by exact Hne; apply H.
Qed.

Lemma rows_nodup_new n adj0 :
  rows_nodup adj0 -> rows_nodup (dict_set n [] adj0).
Proof.
  intros H m nbrs.
  destruct (string_dec m n) as [->|Hne].
  - rewrite dict_get_set_same; intros E; injection E as <-; constructor.
  - rewrite dict_get_set_other by exact Hne; apply H.
Qed.

(** *** [add_node] *)

Lemma directed_add_node n g : directed (add_node n g) = directed g.
Proof. unfold add_node; destruct (dict_mem n (adj g)); reflexivity. Qed.

Lemma nodes_add_node n g :
  nodes (add_node n g) =
  if dict_mem n (adj g) then nodes g else (nodes g ++ [n])%list.
Proof.
  unfold add_node, nodes.
  destruct (dict_mem n (adj g)) eqn:E; simpl; [reflexivity|].
  rewrite keys_dict_set, E; reflexivity.
Qed.

Lemma In_nodes_add_node n g x :
  In x (nodes (add_node n g)) <-> In x (nodes g) \/ x = n.
Proof.
  rewrite nodes_add_node.
  destruct (dict_mem n (adj g)) eqn:E.
  - split; [intros H; left; exact H|].
    intros [H| ->]; [exact H | apply dict_mem_In; exact E].
  - rewrite in_app_iff; simpl; intuition.
Qed.

Lemma edge_data_add_node n g u v :
  edge_data (add_node n g) u v = edge_data g u v.
Proof.
  unfold add_node.
  destruct (dict_mem n (adj g)) eqn:E; [reflexivity|].
  unfold edge_data, neighbors; simpl.
  destruct (string_dec u n) as [->|Hne].
  - rewrite dict_get_set_same.
    unfold dict_mem in E.
    destruct (dict_get n (adj g)); [discriminate|reflexivity].
  - rewrite dict_get_set_other by exact Hne; reflexivity.
Qed.

Lemma rows_nodup_add_node n g :
  rows_nodup (adj g) -> rows_nodup (adj (add_node n g)).
Proof.
  unfold add_node.
  destruct (dict_mem n (adj g)); [trivial | apply rows_nodup_new].
Qed.

Lemma NoDup_nodes_add_node n g :
  NoDup (nodes g) -> NoDup (nodes (add_node n g)).
Proof.
  unfold add_node.
  destruct (dict_mem n (adj g)); [trivial|].
  apply NoDup_keys_dict_set.
Qed.

(** *** [add_edge] *)

Lemma add_edge_unfold a b dd g :
  add_edge a b dd g =
  let g2 := add_node b (add_node a g) in
  let adj1 := put a b (datadict a b dd g) (adj g2) in
  if directed g then mkGraph true adj1
  else mkGraph false (put b a (datadict a b dd g) adj1).
Proof.
  unfold add_edge, datadict, put, neighbors; cbv zeta.
  rewrite !directed_add_node, !edge_data_add_node.
  reflexivity.
Qed.

Lemma directed_add_edge a b dd g : directed (add_edge a b dd g) = directed g.
Proof.
  rewrite add_edge_unfold; cbv zeta.
  destruct (directed g); reflexivity.
Qed.

Lemma In_both_added a b g :
  In a (nodes (add_node b (add_node a g)))
  /\ In b (nodes (add_node b (add_node a g))).
Proof.
  split; rewrite !In_nodes_add_node; auto.
Qed.

Lemma nodes_add_edge a b dd g :
  nodes (add_edge a b dd g) = nodes (add_node b (add_node a g)).
Proof.
  rewrite add_edge_unfold; cbv zeta.
  destruct (In_both_added a b g) as [Ha Hb].
  unfold nodes in *.
  destruct (directed g); simpl.
  - apply keys_put; exact Ha.
  - rewrite keys_put; [apply keys_put; exact Ha|].
    rewrite keys_put; [exact Hb | exact Ha].
Qed.

Lemma add_node_present n g : In n (nodes g) -> add_node n g = g.
Proof.
  intros H; unfold add_node.
  apply dict_mem_In in H; rewrite H; reflexivity.
Qed.

Lemma nodes_add_edge_present a b dd g :
  In a (nodes g) -> In b (nodes g) -> nodes (add_edge a b dd g) = nodes g.
Proof.
  intros Ha Hb.
  rewrite nodes_add_edge, (add_node_present a g Ha), (add_node_present b g Hb).
  reflexivity.
Qed.

Lemma edge_data_add_edge a b dd g u v :
  edge_data (add_edge a b dd g) u v =
  if hits (directed g) a b u v then Some (datadict a b dd g)
  else edge_data g u v.
Proof.
  rewrite add_edge_unfold; cbv zeta.
  unfold hits.
  destruct (directed g); rewrite edge_data_lookup2; simpl.
  - rewrite lookup2_put, <- edge_data_lookup2, !edge_data_add_node.
    rewrite orb_false_r; reflexivity.
  - rewrite !lookup2_put, <- edge_data_lookup2, !edge_data_add_node.
    destruct (String.eqb u b && String.eqb v a);
      destruct (String.eqb u a && String.eqb v b); reflexivity.
Qed.

Lemma rows_nodup_add_edge a b dd g :
  rows_nodup (adj g) -> rows_nodup (adj (add_edge a b dd g)).
Proof.
  intros H; rewrite add_edge_unfold; cbv zeta.
  assert (H2 : rows_nodup (adj (add_node b (add_node a g))))
    by (do 2 apply rows_nodup_add_node; exact H).
  destruct (directed g); simpl; repeat apply rows_nodup_put; exact H2.
Qed.

Lemma NoDup_nodes_add_edge a b dd g :
  NoDup (nodes g) -> NoDup (nodes (add_edge a b dd g)).
Proof.
  intros H; rewrite nodes_add_edge.
  do 2 apply NoDup_nodes_add_node; exact H.
Qed.

(** *** Well formed graphs *)

Lemma wf_empty d : wf_graph (empty_graph d).
Proof.
  split; simpl.
  - constructor.
  - intros n nbrs; discriminate.
  - intros u v a; discriminate.
  - reflexivity.
Qed.

Lemma wf_add_node n g : wf_graph g -> wf_graph (add_node n g).
Proof.
  intros [H1 H2 H3 H4]; split.
  - apply NoDup_nodes_add_node; exact H1.
  - apply rows_nodup_add_node; exact H2.
  - intros u v d; rewrite edge_data_add_node; intros H.
    apply In_nodes_add_node; left; exact (H3 u v d H).
  - rewrite directed_add_node; intros Hd u v.
    rewrite !edge_data_add_node; apply H4; exact Hd.
Qed.

Lemma hits_sym a b u v : hits false a b u v = hits false a b v u.
Proof.
  unfold hits; simpl.
  destruct (String.eqb u a), (String.eqb v b), (String.eqb u b),
    (String.eqb v a); reflexivity.
Qed.

Lemma hits_true dir a b u v :
  hits dir a b u v = true ->
  (u = a /\ v = b) \/ (dir = false /\ u = b /\ v = a).
Proof.
  unfold hits; intros H.
  apply orb_prop in H; destruct H as [H|H];
    apply andb_prop in H; destruct H as [H1 H2].
  - left; split; apply String.eqb_eq; assumption.
  - apply andb_prop in H2; destruct H2 as [H2 H3].
    right; repeat split; try (apply String.eqb_eq; assumption).
    destruct dir; [discriminate|reflexivity].
Qed.

Lemma wf_add_edge a b dd g : wf_graph g -> wf_graph (add_edge a b dd g).
Proof.
  intros [H1 H2 H3 H4]; split.
  - apply NoDup_nodes_add_edge; exact H1.
  - apply rows_nodup_add_edge; exact H2.
  - intros u v d; rewrite edge_data_add_edge, nodes_add_edge.
    destruct (hits (directed g) a b u v) eqn:E.
    + intros _; apply hits_true in E.
      destruct E as [[_ ->]|[_ [_ ->]]]; apply In_both_added.
    + intros H; rewrite !In_nodes_add_node; left; left; exact (H3 u v d H).
  - rewrite directed_add_edge; intros Hd u v.
    rewrite !edge_data_add_edge, Hd, hits_sym, (H4 Hd u v); reflexivity.
Qed.

Lemma wf_add_edges_from es g : wf_graph g -> wf_graph (add_edges_from es g).
Proof.
  unfold add_edges_from; revert g.
  induction es as [|e t IH]; intros g H; simpl; [exact H|].
  apply IH, wf_add_edge, H.
Qed.

Lemma wf_add_nodes (l : list string) g :
  wf_graph g -> wf_graph (fold_left (fun g n => add_node n g) l g).
Proof.
  revert g; induction l as [|n t IH]; intros g H; simpl; [exact H|].
  apply IH, wf_add_node, H.
Qed.

(** *** The edge view *)

Lemma existsb_eqb_false (x : string) (l : list string) :
  existsb (String.eqb x) l = false <-> ~ In x l.
Proof.
  induction l as [|y t IH]; simpl; [intuition|].
  rewrite orb_false_iff, IH.
  destruct (String.eqb_spec x y) as [->|Hne]; intuition congruence.
Qed.

Lemma edge_data_In_left g u v d :
  edge_data g u v = Some d ->
  exists nbrs, dict_get u (adj g) = Some nbrs /\ dict_get v nbrs = Some d.
Proof.
  unfold edge_data, neighbors.
  destruct (dict_get u (adj g)) as [nbrs|]; [|discriminate].
  intros H; exists nbrs; split; [reflexivity | exact H].
Qed.

Lemma edge_data_node_left g u v d :
  edge_data g u v = Some d -> In u (nodes g).
Proof.
  intros H; apply edge_data_In_left in H; destruct H as [nbrs [H _]].
  apply dict_get_In in H; apply (in_map fst) in H; exact H.
Qed.

Lemma In_rows_edge_data g u v d nbrs :
  wf_graph g -> In (u, nbrs) (adj g) -> In (v, d) nbrs ->
  edge_data g u v = Some d.
Proof.
  intros Hwf Hu Hv.
  unfold edge_data, neighbors.
  rewrite (In_dict_get _ _ _ (wf_nodes _ Hwf) Hu).
  apply In_dict_get; [|exact Hv].
  apply (wf_rows _ Hwf u), In_dict_get; [apply (wf_nodes _ Hwf) | exact Hu].
Qed.

Lemma In_edges_directed a u v d :
  In (u, v, d) (edges_directed a) <->
  exists nbrs, In (u, nbrs) a /\ In (v, d) nbrs.
Proof.
  unfold edges_directed; rewrite in_flat_map; split.
  - intros [[n nbrs] [Hn He]]; simpl in He.
    apply in_map_iff in He; destruct He as [[v' d'] [E Hv]]; simpl in E.
    injection E as -> -> ->.
    exists nbrs; split; assumption.
  - intros [nbrs [Hn Hv]].
    exists (u, nbrs); split; [exact Hn|]; simpl.
    apply in_map_iff; exists (v, d); split; [reflexivity | exact Hv].
Qed.

Lemma In_edges_undirected seen a u v d :
  In (u, v, d) (edges_undirected seen a) <->
  exists l1 nbrs l2,
    a = (l1 ++ (u, nbrs) :: l2)%list /\ In (v, d) nbrs
    /\ ~ In v seen /\ ~ In v (keys l1).
Proof.
  revert seen; induction a as [|[n nbrs0] t IH]; intros seen; simpl.
  - split; [intros []|].
    intros [l1 [nbrs [l2 [H _]]]]; destruct l1; discriminate.
  - rewrite in_app_iff, in_map_iff, IH; split.
    + intros [[[v' d'] [E Hv]]|[l1 [nbrs [l2 [E [Hv [Hs Hk]]]]]]].
      * simpl in E; injection E as -> -> ->.
        apply filter_In in Hv; destruct Hv as [Hv Hs]; simpl in Hs.
        apply negb_true_iff, existsb_eqb_false in Hs.
        exists [], nbrs0, t; simpl; intuition.
      * exists ((n, nbrs0) :: l1), nbrs, l2; subst t; simpl.
        repeat split; [exact Hv | | ]; simpl in Hs; intuition.
    + intros [l1 [nbrs [l2 [E [Hv [Hs Hk]]]]]].
      destruct l1 as [|x l1]; simpl in E.
      * injection E as -> -> ->.
        left; exists (v, d); split; [reflexivity|].
        apply filter_In; split; [exact Hv|]; simpl.
        apply negb_true_iff, existsb_eqb_false; exact Hs.
      * injection E as <- ->.
        right; exists l1, nbrs, l2; simpl in Hk |- *.
        repeat split; [exact Hv | | ]; intuition.
Qed.

Lemma edges_sound g u v d :
  wf_graph g -> In (u, v, d) (edges g) -> edge_data g u v = Some d.
Proof.
  intros Hwf; unfold edges.
  destruct (directed g).
  - rewrite In_edges_directed; intros [nbrs [Hu Hv]].
    exact (In_rows_edge_data _ _ _ _ _ Hwf Hu Hv).
  - rewrite In_edges_undirected; intros [l1 [nbrs [l2 [E [Hv _]]]]].
    apply (In_rows_edge_data _ _ _ _ nbrs Hwf); [|exact Hv].
    rewrite E; apply in_elt.
Qed.

Lemma edges_directed_complete g u v d :
  directed g = true -> edge_data g u v = Some d -> In (u, v, d) (edges g).
Proof.
  intros Hd H; unfold edges; rewrite Hd.
  apply edge_data_In_left in H; destruct H as [nbrs [Hu Hv]].
  apply In_edges_directed; exists nbrs.
  split; apply dict_get_In; assumption.
Qed.

Lemma edges_undirected_complete g u v d :
  wf_graph g -> directed g = false -> edge_data g u v = Some d ->
  In (u, v, d) (edges g) \/ In (v, u, d) (edges g).
Proof.
  intros Hwf Hd H; unfold edges; rewrite Hd.
  pose proof H as Hvu; rewrite (wf_sym _ Hwf Hd) in Hvu.
  apply edge_data_In_left in H; destruct H as [nu [Hu Hv]].
  apply dict_get_In in Hu, Hv.
  destruct (in_split _ _ Hu) as [l1 [l2 E]].
  destruct (in_dec string_dec v (keys l1)) as [Hin|Hnin].
  - right.
    apply in_map_iff in Hin; destruct Hin as [[v' nv] [E1 Hin]].
    simpl in E1; subst v'.
    destruct (in_split _ _ Hin) as [l1a [l1b E2]].
    apply In_edges_undirected.
    exists l1a, nv, (l1b ++ (u, nu) :: l2)%list.
    assert (Hadj : adj g = (l1a ++ (v, nv) :: l1b ++ (u, nu) :: l2)%list).
    { rewrite E, E2, <- app_assoc; reflexivity. }
    repeat split.
    + exact Hadj.
    + apply edge_data_In_left in Hvu; destruct Hvu as [nv' [Hv1 Hv2]].
      assert (Hv3 : dict_get v (adj g) = Some nv).
      { apply In_dict_get; [apply (wf_nodes _ Hwf)|].
        rewrite Hadj; apply in_elt. }
      rewrite Hv3 in Hv1; injection Hv1 as <-.
      apply dict_get_In; exact Hv2.
    + intros [].
    + pose proof (wf_nodes _ Hwf) as Hnd.
      unfold nodes, keys in Hnd; rewrite E, map_app in Hnd; simpl in Hnd.
      apply NoDup_remove_2 in Hnd.
      intros Hin'; apply Hnd, in_or_app; left.
      rewrite E2; unfold keys in Hin'; rewrite map_app.
      apply in_or_app; left; exact Hin'.
  - left; apply In_edges_undirected.
    exists l1, nu, l2; repeat split; [exact E | exact Hv | intros [] | exact Hnin].
Qed.

(** An undirected edge is reported under one orientation only. *)
Lemma edges_undirected_one_way g u v d d' :
  directed g = false -> u <> v ->
  In (u, v, d) (edges g) -> In (v, u, d') (edges g) -> False.
Proof.
  intros Hd Hne; unfold edges; rewrite Hd, !In_edges_undirected.
  intros [l1 [nu [l2 [E [_ [_ Hk]]]]]] [l1' [nv [l2' [E' [_ [_ Hk']]]]]].
  rewrite E in E'.
  apply app_eq_app in E'; destruct E' as [l [[E1 E2]|[E1 E2]]].
  - destruct l as [|x l]; simpl in E2.
    + injection E2 as E2 _; congruence.
    + injection E2 as <- _.
      apply Hk; rewrite E1; unfold keys; rewrite map_app.
      apply in_or_app; right; left; reflexivity.
  - destruct l as [|x l]; simpl in E2.
    + injection E2 as E2 _; congruence.
    + injection E2 as <- _.
      apply Hk'; rewrite E1; unfold keys; rewrite map_app.
      apply in_or_app; right; left; reflexivity.
Qed.

Lemma NoDup_map_pair_keys (n : string) (l : dict Attrs) :
  NoDup (keys l) -> NoDup (map (fun vd => (n, fst vd, snd vd)) l).
Proof.
  induction l as [|[v d] t IH]; simpl; intros H; [constructor|].
  inversion H as [|? ? Hn Ht]; subst.
  constructor; [|apply IH; exact Ht].
  intros Hin; apply Hn.
  apply in_map_iff in Hin; destruct Hin as [[v' d'] [E Hin]].
  simpl in E; injection E as -> ->.
  apply (in_map fst) in Hin; exact Hin.
Qed.

Lemma NoDup_keys_filter {V} (f : string * V -> bool) (l : dict V) :
  NoDup (keys l) -> NoDup (keys (filter f l)).
Proof.
  induction l as [|[k v] t IH]; simpl; intros H; [constructor|].
  inversion H as [|? ? Hn Ht]; subst.
  destruct (f (k, v)); simpl; [|apply IH; exact Ht].
  constructor; [|apply IH; exact Ht].
  intros Hin; apply Hn.
  apply in_map_iff in Hin; destruct Hin as [[k' v'] [E Hin]].
  simpl in E; subst k'.
  apply filter_In in Hin; destruct Hin as [Hin _].
  apply (in_map fst) in Hin; exact Hin.
Qed.

Lemma NoDup_edges g : wf_graph g -> NoDup (edges g).
Proof.
  intros Hwf.
  assert (Hrows : forall n nbrs, In (n, nbrs) (adj g) -> NoDup (keys nbrs)).
  { intros n nbrs Hin; apply (wf_rows _ Hwf n).
    apply In_dict_get; [apply (wf_nodes _ Hwf) | exact Hin]. }
  pose proof (wf_nodes _ Hwf) as Hnd; unfold nodes in Hnd.
  unfold edges; destruct (directed g).
  - revert Hnd Hrows; generalize (adj g) as a.
    induction a as [|[n nbrs] t IH]; simpl; intros Hnd Hrows; [constructor|].
    inversion Hnd as [|? ? Hn Ht]; subst.
    apply NoDup_app.
    + apply NoDup_map_pair_keys, (Hrows n); left; reflexivity.
    + apply IH; [exact Ht|].
      intros m nb Hin; apply (Hrows m); right; exact Hin.
    + intros [[u v] d] H1 H2.
      apply in_map_iff in H1; destruct H1 as [[v' d'] [E _]].
      simpl in E; injection E as <- _ _.
      apply In_edges_directed in H2; destruct H2 as [nb [H2 _]].
      apply Hn; apply (in_map fst) in H2; exact H2.
  - generalize (@nil string) as seen.
    revert Hnd Hrows; generalize (adj g) as a.
    induction a as [|[n nbrs] t IH]; simpl; intros Hnd Hrows seen;
      [constructor|].
    inversion Hnd as [|? ? Hn Ht]; subst.
    apply NoDup_app.
    + apply NoDup_map_pair_keys, NoDup_keys_filter, (Hrows n).
      left; reflexivity.
    + apply IH; [exact Ht|].
      intros m nb Hin; apply (Hrows m); right; exact Hin.
    + intros [[u v] d] H1 H2.
      apply in_map_iff in H1; destruct H1 as [[v' d'] [E _]].
      simpl in E; injection E as <- _ _.
      apply In_edges_undirected in H2.
      destruct H2 as [l1 [nb [l2 [E _]]]].
      apply Hn; rewrite E; unfold keys; rewrite map_app.
      apply in_or_app; right; left; reflexivity.
Qed.

Lemma filter_singleton {A} (f : A -> bool) (l : list A) (x : A) :
  NoDup l -> In x l -> f x = true ->
  (forall y, In y l -> f y = true -> y = x) -> filter f l = [x].
Proof.
  induction l as [|a t IH]; intros Hnd Hin Hx Huniq; [contradiction|].
  inversion Hnd as [|? ? Hn Ht]; subst; simpl.
  assert (Hnone : forall l', (forall y, In y l' -> f y = true -> y = a) ->
                             ~ In a l' -> filter f l' = []).
  { induction l' as [|b l' IHl]; intros H1 H2; simpl; [reflexivity|].
    destruct (f b) eqn:Eb.
    - exfalso; apply H2; left; apply H1; [left; reflexivity | exact Eb].
    - apply IHl; [|intros H; apply H2; right; exact H].
      intros y Hy; apply H1; right; exact Hy. }
  destruct Hin as [->|Hin].
  - rewrite Hx, Hnone; [reflexivity | | exact Hn].
    intros y Hy; apply Huniq; right; exact Hy.
  - destruct (f a) eqn:Ea.
    + exfalso; apply Hn.
      rewrite (Huniq a (or_introl eq_refl) Ea); exact Hin.
    + apply IH; try assumption.
      intros y Hy; apply Huniq; right; exact Hy.
Qed.

(** *** Rebuilding a graph from its node-link document *)

Lemma update_no_attrs dd : update no_attrs dd = dd.
Proof. destruct dd as [[w|] [m|]]; reflexivity. Qed.

Lemma update_same dd : update dd dd = dd.
Proof. destruct dd as [[w|] [m|]]; reflexivity. Qed.

Lemma directed_add_edges_from es g :
  directed (add_edges_from es g) = directed g.
Proof.
  unfold add_edges_from; revert g.
  induction es as [|e t IH]; intros g; simpl; [reflexivity|].
  rewrite IH; apply directed_add_edge.
Qed.

Lemma directed_add_nodes (l : list string) g :
  directed (fold_left (fun g n => add_node n g) l g) = directed g.
Proof.
  revert g; induction l as [|n t IH]; intros g; simpl; [reflexivity|].
  rewrite IH; apply directed_add_node.
Qed.

Lemma edge_data_add_nodes (l : list string) g u v :
  edge_data (fold_left (fun g n => add_node n g) l g) u v = edge_data g u v.
Proof.
  revert g; induction l as [|n t IH]; intros g; simpl; [reflexivity|].
  rewrite IH; apply edge_data_add_node.
Qed.

Lemma In_nodes_add_nodes (l : list string) g x :
  In x (nodes (fold_left (fun g n => add_node n g) l g)) <->
  In x (nodes g) \/ In x l.
Proof.
  revert g; induction l as [|n t IH]; intros g; simpl; [intuition|].
  rewrite IH, In_nodes_add_node; intuition.
Qed.

Lemma nodes_add_nodes_fresh (l : list string) g :
  NoDup (nodes g ++ l) ->
  nodes (fold_left (fun g n => add_node n g) l g) = (nodes g ++ l)%list.
Proof.
  revert g; induction l as [|n t IH]; intros g H; simpl.
  - rewrite app_nil_r; reflexivity.
  - assert (Hn : dict_mem n (adj g) = false).
    { destruct (dict_mem n (adj g)) eqn:E; [|reflexivity].
      apply dict_mem_In in E.
      apply NoDup_remove_2 in H.
      exfalso; apply H, in_or_app; left; exact E. }
    rewrite IH; rewrite nodes_add_node, Hn, <- app_assoc; [reflexivity|].
    exact H.
Qed.

Lemma nodes_add_edges_from_present es g :
  (forall a b dd, In (a, b, dd) es -> In a (nodes g) /\ In b (nodes g)) ->
  nodes (add_edges_from es g) = nodes g.
Proof.
  unfold add_edges_from; revert g.
  induction es as [|[[a b] dd] t IH]; intros g H; simpl; [reflexivity|].
  destruct (H a b dd (or_introl eq_refl)) as [Ha Hb].
  rewrite IH; [apply nodes_add_edge_present; assumption|].
  intros a' b' dd' Hin.
  rewrite nodes_add_edge_present by assumption.
  apply (H a' b' dd'); right; exact Hin.
Qed.

(** Adding again edges that a graph [target] already has, to a graph that
    holds nothing else, reproduces the edge data of [target]. *)
Lemma rebuild_edge_data (target : Graph) es g0 :
  (forall a b dd, In (a, b, dd) es ->
     edge_data target a b = Some dd
     /\ (directed g0 = false -> edge_data target b a = Some dd)) ->
  (forall u v d, edge_data g0 u v = Some d -> edge_data target u v = Some d) ->
  (forall u v d, edge_data (add_edges_from es g0) u v = Some d ->
                 edge_data target u v = Some d)
  /\ (forall a b dd, In (a, b, dd) es ->
        edge_data (add_edges_from es g0) a b = Some dd
        /\ (directed g0 = false ->
            edge_data (add_edges_from es g0) b a = Some dd))
  /\ (forall u v d, edge_data g0 u v = Some d ->
                    edge_data (add_edges_from es g0) u v = Some d).
Proof.
  unfold add_edges_from; revert g0.
  induction es as [|[[a b] dd] t IH]; intros g0 Hes Hsub; simpl.
  - split; [exact Hsub|]; split; [intros ? ? ? []|trivial].
  - destruct (Hes a b dd (or_introl eq_refl)) as [Hab Hba].
    assert (Hdd : datadict a b dd g0 = dd).
    { unfold datadict.
      destruct (edge_data g0 a b) as [d0|] eqn:E.
      - apply Hsub in E; rewrite Hab in E; injection E as <-.
        apply update_same.
      - apply update_no_attrs. }
    set (g1 := add_edge a b dd g0).
    assert (H1 : forall u v d, edge_data g1 u v = Some d ->
                               edge_data target u v = Some d).
    { intros u v d; unfold g1; rewrite edge_data_add_edge, Hdd.
      destruct (hits (directed g0) a b u v) eqn:E; [|apply Hsub].
      intros H; injection H as <-.
      apply hits_true in E; destruct E as [[-> ->]|[Hd [-> ->]]];
        [exact Hab | exact (Hba Hd)]. }
    assert (H0 : forall u v d, edge_data g0 u v = Some d ->
                               edge_data g1 u v = Some d).
    { intros u v d H; unfold g1; rewrite edge_data_add_edge, Hdd.
      destruct (hits (directed g0) a b u v) eqn:E; [|exact H].
      apply Hsub in H.
      apply hits_true in E; destruct E as [[-> ->]|[Hd [-> ->]]].
      - rewrite Hab in H; exact H.
      - rewrite (Hba Hd) in H; exact H. }
    assert (Hd1 : directed g1 = directed g0) by apply directed_add_edge.
    destruct (IH g1) as [I1 [I2 I3]].
    + intros a' b' dd' Hin; rewrite Hd1; apply Hes; right; exact Hin.
    + exact H1.
    + split; [exact I1|]; split.
      * intros a' b' dd' [E|Hin].
        -- injection E as <- <- <-; split.
           ++ apply I3; unfold g1; rewrite edge_data_add_edge, Hdd.
              unfold hits; rewrite !String.eqb_refl; reflexivity.
           ++ intros Hd; apply I3; unfold g1.
              rewrite edge_data_add_edge, Hdd, Hd.
              unfold hits; rewrite !String.eqb_refl; simpl.
              rewrite orb_true_r; reflexivity.
        -- rewrite <- Hd1; apply I2; exact Hin.
      * intros u v d H; apply I3, H0, H.
Qed.

Lemma node_link_roundtrip (g : Graph) (dflt : bool) :
  wf_graph g ->
  exists g',
    node_link_graph (node_link_data g) dflt = Some g'
    /\ wf_graph g'
    /\ directed g' = directed g
    /\ nodes g' = nodes g
    /\ forall u v, edge_data g' u v = edge_data g u v.
Proof.
  intros Hwf.
  unfold node_link_graph, node_link_data; simpl.
  set (g0 := fold_left (fun g n => add_node n g) (nodes g)
                       (empty_graph (directed g))).
  exists (add_edges_from (edges g) g0).
  assert (Hd0 : directed g0 = directed g)
    by (unfold g0; rewrite directed_add_nodes; reflexivity).
  assert (Hn0 : nodes g0 = nodes g).
  { unfold g0; rewrite nodes_add_nodes_fresh; [reflexivity|].
    exact (wf_nodes _ Hwf). }
  assert (He0 : forall u v, edge_data g0 u v = None).
  { intros u v; unfold g0; rewrite edge_data_add_nodes; reflexivity. }
  assert (Hends : forall a b dd, In (a, b, dd) (edges g) ->
                                 In a (nodes g0) /\ In b (nodes g0)).
  { intros a b dd Hin; apply edges_sound in Hin; [|exact Hwf].
    rewrite Hn0; split.
    - exact (edge_data_node_left _ _ _ _ Hin).
    - exact (wf_closed _ Hwf _ _ _ Hin). }
  split; [reflexivity|].
  split; [apply wf_add_edges_from, wf_add_nodes, wf_empty|].
  split; [rewrite directed_add_edges_from; exact Hd0|].
  split; [rewrite nodes_add_edges_from_present; assumption|].
  destruct (rebuild_edge_data g (edges g) g0) as [R1 [R2 _]].
  - intros a b dd Hin.
    pose proof (edges_sound _ _ _ _ Hwf Hin) as Hab.
    split; [exact Hab|].
    rewrite Hd0; intros Hd; rewrite <- (wf_sym _ Hwf Hd); exact Hab.
  - intros u v d; rewrite He0; discriminate.
  - intros u v.
    destruct (edge_data g u v) as [d|] eqn:E.
    + destruct (directed g) eqn:Hd.
      * apply (R2 u v d), edges_directed_complete; assumption.
      * destruct (edges_undirected_complete _ _ _ _ Hwf Hd E) as [Hin|Hin].
        -- apply (R2 u v d Hin).
        -- apply (R2 v u d Hin); rewrite Hd0; reflexivity.
    + destruct (edge_data (add_edges_from (edges g) g0) u v) as [d|] eqn:E';
        [|reflexivity].
      apply R1 in E'; congruence.
Qed.

End NxFacts.

(** ** The order of strings *)

Lemma string_compare_trans (a b c : string) :
  String.compare a b <> Gt -> String.compare b c <> Gt ->
  String.compare a c <> Gt.
Proof.
  revert b c; induction a as [|x a IH]; intros [|y b] [|z c]; simpl;
    try congruence.
  unfold Ascii.compare.
  destruct (N.compare_spec (N_of_ascii x) (N_of_ascii y)) as [Exy|Lxy|Gxy];
    destruct (N.compare_spec (N_of_ascii y) (N_of_ascii z)) as [Eyz|Lyz|Gyz];
    destruct (N.compare_spec (N_of_ascii x) (N_of_ascii z)) as [Exz|Lxz|Gxz];
    try congruence; try lia.
  apply IH.
Qed.

Lemma string_leb_trans (a b c : string) :
  String.leb a b = true -> String.leb b c = true -> String.leb a c = true.
Proof.
  unfold String.leb; intros H1 H2.
  pose proof (string_compare_trans a b c) as H.
  destruct (String.compare a b), (String.compare b c),
    (String.compare a c); try reflexivity; try discriminate;
    exfalso; apply H; congruence.
Qed.

Lemma string_leb_refl (a : string) : String.leb a a = true.
Proof. destruct (String.leb_total a a); assumption. Qed.

(** ** [groupby] *)

Module GroupFacts.

Section Keys.
Context {K R : Type}.
Variable eqb : K -> K -> bool.
Variable leb : K -> K -> bool.
Variable key : R -> K.
Hypothesis eqb_spec : forall a b, eqb a b = true <-> a = b.

Lemma existsb_eqb (x : K) (l : list K) : existsb (eqb x) l = true <-> In x l.
Proof.
  rewrite existsb_exists; split.
  - intros [y [Hy E]]; apply eqb_spec in E; subst y; exact Hy.
  - intros H; exists x; split; [exact H | apply eqb_spec; reflexivity].
Qed.

Lemma In_unique (x : K) (l : list K) : In x (unique eqb l) <-> In x l.
Proof.
  induction l as [|y t IH]; simpl; [reflexivity|].
  destruct (existsb (eqb y) t) eqn:E.
  - rewrite IH; split; [intros H; right; exact H|].
    intros [->|H]; [apply existsb_eqb; exact E | exact H].
  - simpl; rewrite IH; reflexivity.
Qed.

Lemma NoDup_unique (l : list K) : NoDup (unique eqb l).
Proof.
  induction l as [|y t IH]; simpl; [constructor|].
  destruct (existsb (eqb y) t) eqn:E; [exact IH|].
  constructor; [|exact IH].
  rewrite In_unique, <- existsb_eqb, E; discriminate.
Qed.

Lemma insert_perm (k : K) (l : list K) : Permutation (k :: l) (insert leb k l).
Proof.
  induction l as [|h t IH]; simpl; [reflexivity|].
  destruct (leb k h); [reflexivity|].
  rewrite perm_swap; constructor; exact IH.
Qed.

Lemma sort_perm (l : list K) : Permutation l (sort leb l).
Proof.
  induction l as [|h t IH]; simpl; [reflexivity|].
  rewrite <- insert_perm; constructor; exact IH.
Qed.

Lemma In_group_keys (k : K) (rows : list R) :
  In k (group_keys eqb leb key rows) <-> exists r, In r rows /\ key r = k.
Proof.
  unfold group_keys; split.
  - intros H.
    apply (Permutation_in _ (Permutation_sym (sort_perm _))) in H.
    apply In_unique, in_map_iff in H.
    destruct H as [r [E Hr]]; exists r; split; assumption.
  - intros [r [Hr E]].
    apply (Permutation_in _ (sort_perm _)), In_unique, in_map_iff.
    exists r; split; assumption.
Qed.

Lemma NoDup_group_keys (rows : list R) :
  NoDup (group_keys eqb leb key rows).
Proof.
  unfold group_keys.
  apply (Permutation_NoDup (sort_perm _)), NoDup_unique.
Qed.

Lemma groupby_keys (rows : list R) :
  map fst (groupby eqb leb key rows) = group_keys eqb leb key rows.
Proof.
  unfold groupby; rewrite map_map; simpl; apply map_id.
Qed.

Lemma In_groupby (k : K) (g : list R) (rows : list R) :
  In (k, g) (groupby eqb leb key rows) <->
  In k (group_keys eqb leb key rows) /\ g = group_rows eqb key k rows.
Proof.
  unfold groupby; rewrite in_map_iff; split.
  - intros [k' [E H]]; injection E as -> <-; split; [exact H|reflexivity].
  - intros [H ->]; exists k; split; [reflexivity | exact H].
Qed.

Lemma In_group_rows (k : K) (r : R) (rows : list R) :
  In r (group_rows eqb key k rows) <-> In r rows /\ key r = k.
Proof.
  unfold group_rows; rewrite filter_In, eqb_spec; reflexivity.
Qed.

Lemma group_nonempty (k : K) (g : list R) (rows : list R) :
  In (k, g) (groupby eqb leb key rows) -> g <> [].
Proof.
  rewrite In_groupby, In_group_keys.
  intros [[r [Hr E]] ->] Hnil.
  assert (H : In r (group_rows eqb key k rows))
    by (apply In_group_rows; split; assumption).
  rewrite Hnil in H; exact H.
Qed.

Hypothesis leb_total : forall a b, leb a b = true \/ leb b a = true.
Hypothesis leb_trans :
  forall a b c, leb a b = true -> leb b c = true -> leb a c = true.

Lemma insert_sorted (k : K) (l : list K) :
  StronglySorted (fun a b => leb a b = true) l ->
  StronglySorted (fun a b => leb a b = true) (insert leb k l).
Proof.
  induction l as [|h t IH]; simpl; intros H.
  - repeat constructor.
  - inversion H as [|? ? Ht Hh]; subst.
    destruct (leb k h) eqn:E.
    + constructor; [exact H|].
      constructor; [exact E|].
      rewrite Forall_forall in Hh |- *.
      intros x Hx; exact (leb_trans _ _ _ E (Hh x Hx)).
    + constructor; [apply IH; exact Ht|].
      rewrite Forall_forall in Hh |- *.
      intros x Hx.
      apply (Permutation_in _ (Permutation_sym (insert_perm k t))) in Hx.
      destruct Hx as [<-|Hx]; [|exact (Hh x Hx)].
      destruct (leb_total k h) as [H1|H1]; [congruence | exact H1].
Qed.

Lemma group_keys_sorted (rows : list R) :
  StronglySorted (fun a b => leb a b = true) (group_keys eqb leb key rows).
Proof.
  unfold group_keys, sort.
  induction (unique eqb (map key rows)) as [|h t IH]; simpl.
  - constructor.
  - apply insert_sorted, IH.
Qed.

End Keys.

Lemma pair_eqb_spec {K} (eqb : K -> K -> bool) :
  (forall a b, eqb a b = true <-> a = b) ->
  forall a b, pair_eqb eqb a b = true <-> a = b.
Proof.
  intros H [a1 a2] [b1 b2]; unfold pair_eqb; simpl.
  rewrite andb_true_iff, !H; split.
  - intros [-> ->]; reflexivity.
  - intros E; injection E as -> ->; split; reflexivity.
Qed.

Lemma cell_eqb_spec (a b : ReactionNetwork.cell) :
  ReactionNetwork.cell_eqb a b = true <-> a = b.
Proof.
  destruct a as [s|x], b as [t|y]; simpl.
  - rewrite String.eqb_eq; split; congruence.
  - split; discriminate.
  - split; discriminate.
  - rewrite Z.eqb_eq; split; congruence.
Qed.

End GroupFacts.

(** ** Edge resolution *)

Module ResolveFacts.

Import EdgeFrame ResolveSpec.

Lemma series_min_spec (x : Q) (t : list Q) :
  In (series_min (x :: t)) (x :: t)
  /\ forall y, In y (x :: t) -> (series_min (x :: t) <= y)%Q.
Proof.
  simpl series_min; revert x.
  induction t as [|z t IH]; intros x; simpl fold_left.
  - split; [left; reflexivity|].
    intros y [<-|[]]; apply Qle_refl.
  - destruct (IH (if Qle_bool x z then x else z)) as [H1 H2].
    assert (Hx : ((if Qle_bool x z then x else z) <= x)%Q
                 /\ ((if Qle_bool x z then x else z) <= z)%Q).
    { destruct (Qle_bool x z) eqn:E.
      - split; [apply Qle_refl | apply Qle_bool_iff; exact E].
      - split; [|apply Qle_refl].
        destruct (Qlt_le_dec z x) as [H|H]; [apply Qlt_le_weak; exact H|].
        apply Qle_bool_iff in H; congruence. }
    split.
    + destruct H1 as [H1|H1]; [|right; right; exact H1].
      rewrite <- H1; destruct (Qle_bool x z); [left|right; left]; reflexivity.
    + intros y [<-|[<-|Hy]].
      * eapply Qle_trans; [apply H2; left; reflexivity | apply Hx].
      * eapply Qle_trans; [apply H2; left; reflexivity | apply Hx].
      * apply H2; right; exact Hy.
Qed.

Lemma series_max_spec (x : Q) (t : list Q) :
  In (series_max (x :: t)) (x :: t)
  /\ forall y, In y (x :: t) -> (y <= series_max (x :: t))%Q.
Proof.
  simpl series_max; revert x.
  induction t as [|z t IH]; intros x; simpl fold_left.
  - split; [left; reflexivity|].
    intros y [<-|[]]; apply Qle_refl.
  - destruct (IH (if Qle_bool z x then x else z)) as [H1 H2].
    assert (Hx : (x <= (if Qle_bool z x then x else z))%Q
                 /\ (z <= (if Qle_bool z x then x else z))%Q).
    { destruct (Qle_bool z x) eqn:E.
      - split; [apply Qle_refl | apply Qle_bool_iff; exact E].
      - split; [|apply Qle_refl].
        destruct (Qlt_le_dec x z) as [H|H]; [apply Qlt_le_weak; exact H|].
        apply Qle_bool_iff in H; congruence. }
    split.
    + destruct H1 as [H1|H1]; [|right; right; exact H1].
      rewrite <- H1; destruct (Qle_bool z x); [left|right; left]; reflexivity.
    + intros y [<-|[<-|Hy]].
      * eapply Qle_trans; [apply Hx | apply H2; left; reflexivity].
      * eapply Qle_trans; [apply Hx | apply H2; left; reflexivity].
      * apply H2; right; exact Hy.
Qed.

(** The first element on which [f] holds. *)
Lemma hd_filter_split {A} (f : A -> bool) (l : list A) (x : A) :
  In x l -> f x = true ->
  exists before c after,
    l = (before ++ c :: after)%list /\ f c = true
    /\ (forall y, In y before -> f y = false)
    /\ hd_error (filter f l) = Some c.
Proof.
  induction l as [|a t IH]; intros Hin Hx; [contradiction|].
  destruct (f a) eqn:Ea.
  - exists [], a, t; simpl; rewrite Ea.
    split; [reflexivity|]; split; [reflexivity|]; split; [|reflexivity].
    intros y [].
  - destruct Hin as [->|Hin]; [congruence|].
    destruct (IH Hin Hx) as [before [c [after [E [Hc [Hb Hh]]]]]].
    exists (a :: before), c, after; simpl; rewrite Ea.
    split; [rewrite E; reflexivity|]; split; [exact Hc|].
    split; [|exact Hh].
    intros y [<-|Hy]; [exact Ea | exact (Hb y Hy)].
Qed.

Section Keyed.
Variable K : Type.
Variable eqb : K -> K -> bool.
Variable leb : K -> K -> bool.
Hypothesis eqb_spec : forall a b, eqb a b = true <-> a = b.

Lemma resolve_group_first_best rw (s t : K) (df : list (Candidate K)) :
  df <> [] ->
  exists c, resolve_group rw s t df = Ok (to_edge s t c)
            /\ first_best rw df c.
Proof.
  intros Hne.
  destruct df as [|r1 [|r2 rest]]; [congruence| |].
  - exists r1; split; [reflexivity|].
    exists [], []; repeat split; [|intros c' []].
    intros c' [<-|[]]; destruct rw; apply Qle_refl.
  - set (df := r1 :: r2 :: rest).
    set (target := if rw then series_min (map (@weight K) df)
                   else series_max (map (@weight K) df)).
    assert (Htarget : In target (map (@weight K) df)
              /\ forall c', In c' df ->
                   if rw then (target <= weight c')%Q
                   else (weight c' <= target)%Q).
    { unfold target, df; simpl map; destruct rw.
      - destruct (series_min_spec (weight r1)
                    (weight r2 :: map (@weight K) rest)) as [H1 H2].
        split; [exact H1|].
        intros c' Hc; apply H2.
        change (In (weight c') (map (@weight K) (r1 :: r2 :: rest))).
        apply in_map; exact Hc.
      - destruct (series_max_spec (weight r1)
                    (weight r2 :: map (@weight K) rest)) as [H1 H2].
        split; [exact H1|].
        intros c' Hc; apply H2.
        change (In (weight c') (map (@weight K) (r1 :: r2 :: rest))).
        apply in_map; exact Hc. }
    destruct Htarget as [Hin Hall].
    apply in_map_iff in Hin; destruct Hin as [c0 [E0 Hc0]].
    destruct (hd_filter_split (fun r => Qeq_bool (weight r) target) df c0)
      as [before [c [after [E [Hc [Hb Hh]]]]]].
    + exact Hc0.
    + rewrite E0; apply Qeq_bool_refl.
    + exists c; split.
      * unfold resolve_group; fold df; fold target.
        rewrite Hh; reflexivity.
      * apply Qeq_bool_iff in Hc.
        exists before, after; split; [exact E|]; split.
        -- intros c' Hc'; specialize (Hall c' Hc').
           destruct rw; rewrite Hc; exact Hall.
        -- intros c' Hc' Heq.
           specialize (Hb c' Hc'); apply Qeq_bool_neq in Hb.
           apply Hb; rewrite Heq; exact Hc.
Qed.

Lemma resolve_all rw (groups : list (K * K * list (Candidate K))) :
  (forall g, In g groups -> snd g <> []) ->
  exists edges,
    mapM (fun g => resolve_group rw (fst (fst g)) (snd (fst g)) (snd g))
         groups = Ok edges
    /\ Forall2 (@resolved K rw) groups edges.
Proof.
  induction groups as [|g t IH]; intros H; simpl.
  - exists []; split; [reflexivity | constructor].
  - destruct (resolve_group_first_best rw (fst (fst g)) (snd (fst g)) (snd g))
      as [c [Hc Hbest]]; [apply H; left; reflexivity|].
    destruct IH as [edges [He Hf]];
      [intros g' Hg'; apply H; right; exact Hg'|].
    exists (to_edge (fst (fst g)) (snd (fst g)) c :: edges).
    rewrite Hc, He; split; [reflexivity|].
    constructor; [exists c; split; [reflexivity | exact Hbest] | exact Hf].
Qed.

Lemma joins_true k e : joins eqb k e = true <-> fst e = k.
Proof.
  unfold joins; rewrite andb_true_iff, !eqb_spec.
  destruct e as [[a b] d], k as [s t]; simpl; split.
  - intros [-> ->]; reflexivity.
  - intros E; injection E as -> ->; split; reflexivity.
Qed.

Lemma resolved_keys rw groups edges :
  Forall2 (@resolved K rw) groups edges -> map fst edges = map fst groups.
Proof.
  induction 1 as [|g e gs es [c [-> _]] _ IH]; simpl; [reflexivity|].
  rewrite IH; destruct g as [[s t] df]; reflexivity.
Qed.

Lemma filter_joins_none k edges :
  ~ In k (map fst edges) -> filter (joins eqb k) edges = [].
Proof.
  induction edges as [|e t IH]; simpl; intros H; [reflexivity|].
  destruct (joins eqb k e) eqn:E.
  - apply joins_true in E; exfalso; apply H; left; exact E.
  - apply IH; intros Hin; apply H; right; exact Hin.
Qed.

Lemma resolved_exactly_one rw groups edges (k : K * K) df :
  Forall2 (@resolved K rw) groups edges ->
  NoDup (map fst groups) -> In (k, df) groups ->
  exists c, first_best rw df c
            /\ filter (joins eqb k) edges = [to_edge (fst k) (snd k) c].
Proof.
  induction 1 as [|g e gs es [c [-> Hbest]] Hrest IH]; simpl;
    intros Hnd Hin; [contradiction|].
  inversion Hnd as [|? ? Hn Hnd']; subst.
  destruct Hin as [->|Hin].
  - exists c; split; [exact Hbest|]; simpl.
    unfold joins at 1; simpl.
    rewrite (proj2 (eqb_spec (fst k) (fst k)) eq_refl),
            (proj2 (eqb_spec (snd k) (snd k)) eq_refl); simpl.
    rewrite filter_joins_none; [reflexivity|].
    rewrite (resolved_keys _ _ _ Hrest); exact Hn.
  - destruct (IH Hnd' Hin) as [c' [Hc' Hf]].
    exists c'; split; [exact Hc'|].
    destruct (joins eqb k (to_edge (fst (fst g)) (snd (fst g)) c)) eqn:E;
      [|exact Hf].
    apply joins_true in E; simpl in E.
    exfalso; apply Hn.
    apply (in_map fst) in Hin; simpl in Hin.
    destruct g as [[s t] df']; simpl in *; rewrite E; exact Hin.
Qed.

(** Resolution over all groups, or over those that pass a guard. *)
Lemma resolve_groupby rw (keep : K * K -> bool)
      (cands : list (Candidate K)) :
  exists edges,
    mapM (fun g => resolve_group rw (fst (fst g)) (snd (fst g)) (snd g))
         (filter (fun g => keep (fst g))
                 (groupby (pair_eqb eqb) (pair_leb eqb leb)
                          (@pair_key K) cands)) = Ok edges
    /\ forall k,
         let group := group_rows (pair_eqb eqb) (@pair_key K) k cands in
         group <> [] ->
         if keep k
         then exists c, first_best rw group c
                /\ filter (joins eqb k) edges = [to_edge (fst k) (snd k) c]
         else filter (joins eqb k) edges = [].
Proof.
  pose proof (GroupFacts.pair_eqb_spec eqb eqb_spec) as Hspec.
  set (groups := groupby (pair_eqb eqb) (pair_leb eqb leb)
                         (@pair_key K) cands).
  destruct (resolve_all rw (filter (fun g => keep (fst g)) groups))
    as [edges [He Hf]].
  { intros g Hg; apply filter_In in Hg; destruct Hg as [Hg _].
    destruct g as [k df]; simpl.
    exact (GroupFacts.group_nonempty _ _ _ Hspec _ _ _ Hg). }
  exists edges; split; [exact He|].
  intros k group Hne.
  assert (Hin : In (k, group) groups).
  { apply (GroupFacts.In_groupby _ _ _ k group cands).
    split; [|reflexivity].
    apply (GroupFacts.In_group_keys _ _ _ Hspec).
    destruct group as [|r rest] eqn:Eg; [congruence|].
    assert (Hr : In r group) by (rewrite Eg; left; reflexivity).
    apply (GroupFacts.In_group_rows _ _ Hspec) in Hr.
    exists r; exact Hr. }
  destruct (keep k) eqn:Ek.
  - apply (resolved_exactly_one rw _ _ k group Hf).
    + assert (Hnd : NoDup (map fst groups)).
      { unfold groups; rewrite GroupFacts.groupby_keys.
        apply GroupFacts.NoDup_group_keys; exact Hspec. }
      revert Hnd; generalize groups as gs.
      induction gs as [|g gs IH]; simpl; intros Hnd; [constructor|].
      inversion Hnd as [|? ? Hn Hnd']; subst.
      destruct (keep (fst g)); simpl; [|apply IH; exact Hnd'].
      constructor; [|apply IH; exact Hnd'].
      intros Hin'; apply Hn.
      apply in_map_iff in Hin'; destruct Hin' as [g' [E Hg']].
      apply filter_In in Hg'; destruct Hg' as [Hg' _].
      rewrite <- E; apply in_map; exact Hg'.
    + apply filter_In; split; [exact Hin | exact Ek].
  - apply filter_joins_none.
    rewrite (resolved_keys _ _ _ Hf).
    intros Hin'; apply in_map_iff in Hin'; destruct Hin' as [g' [E Hg']].
    apply filter_In in Hg'; destruct Hg' as [_ Hg'].
    rewrite E in Hg'; congruence.
Qed.

End Keyed.

End ResolveFacts.

(** ** Sources, sinks and candidate weights *)

Module FrameFacts.

Lemma Qltb_lt (x y : Q) : Qltb x y = true <-> (x < y)%Q.
Proof.
  unfold Qltb; rewrite negb_true_iff; split.
  - intros H; apply Qnot_le_lt; intros Hle.
    apply Qle_bool_iff in Hle; congruence.
  - intros H; destruct (Qle_bool y x) eqn:E; [|reflexivity].
    apply Qle_bool_iff in E; exfalso; exact (Qlt_not_le _ _ H E).
Qed.

Lemma Qltb_asym (x y : Q) : Qltb x y = true -> Qltb y x = true -> False.
Proof.
  rewrite !Qltb_lt; intros H1 H2.
  exact (Qlt_irrefl _ (Qlt_trans _ _ _ H1 H2)).
Qed.

Lemma NoDup_map_inj {A B} (f : A -> B) (l : list A) (x y : A) :
  NoDup (map f l) -> In x l -> In y l -> f x = f y -> x = y.
Proof.
  induction l as [|a t IH]; simpl; intros Hnd Hx Hy E; [contradiction|].
  inversion Hnd as [|? ? Hn Hnd']; subst.
  destruct Hx as [->|Hx], Hy as [->|Hy].
  - reflexivity.
  - exfalso; apply Hn; rewrite E; apply in_map; exact Hy.
  - exfalso; apply Hn; rewrite <- E; apply in_map; exact Hx.
  - apply IH; assumption.
Qed.

Lemma product_map {A B A' B'} (f : A -> A') (g : B -> B')
      (a : list A) (b : list B) :
  product (map f a) (map g b) =
  map (fun st => (f (fst st), g (snd st))) (product a b).
Proof.
  unfold product.
  induction a as [|x t IH]; simpl; [reflexivity|].
  rewrite IH, map_app, !map_map; reflexivity.
Qed.

Lemma In_product {A B} (a : list A) (b : list B) (x : A) (y : B) :
  In (x, y) (product a b) <-> In x a /\ In y b.
Proof.
  unfold product; rewrite in_flat_map; split.
  - intros [x' [Hx Hy]].
    apply in_map_iff in Hy; destruct Hy as [y' [E Hy]].
    injection E as -> ->; split; assumption.
  - intros [Hx Hy]; exists x; split; [exact Hx|].
    apply in_map; exact Hy.
Qed.

Lemma mapM_map {A B C} (f : B -> result C) (h : A -> B) (l : list A) :
  mapM f (map h l) = mapM (fun x => f (h x)) l.
Proof.
  induction l as [|x t IH]; simpl; [reflexivity|].
  rewrite IH; reflexivity.
Qed.

Lemma hd_filter_In {A} (f : A -> bool) (l : list A) (x : A) :
  In x l -> f x = true ->
  exists y, hd_error (filter f l) = Some y /\ In y l /\ f y = true.
Proof.
  intros Hin Hx.
  destruct (ResolveFacts.hd_filter_split f l x Hin Hx)
    as [before [c [after [E [Hc [_ Hh]]]]]].
  exists c; split; [exact Hh|]; split; [|exact Hc].
  rewrite E; apply in_elt.
Qed.

(** *** metabolic_network.py *)

Module MN.

Import MetabolicNetwork FrameSpec.MN.

Lemma In_source_df (df : list Row) (e : Entry) :
  In e (source_df df) <-> exists r, In r df /\ source_of r e.
Proof.
  unfold source_df; rewrite !in_app_iff, !in_map_iff; split.
  - intros [[r [<- H]]|[[r [<- H]]|[e' [<- H]]]].
    + apply filter_In in H; destruct H as [H H1].
      apply filter_In in H; destruct H as [H H2].
      apply Qltb_lt in H1; apply negb_true_iff in H2.
      exists r; split; [exact H | constructor; assumption].
    + apply filter_In in H; destruct H as [H H1].
      apply filter_In in H; destruct H as [H H2].
      apply andb_prop in H1; destruct H1 as [H1 H3].
      apply Qltb_lt in H1, H3.
      exists r; split; [exact H | apply forward_source; assumption].
    + apply in_map_iff in H; destruct H as [r [<- H]].
      apply filter_In in H; destruct H as [H H1].
      apply filter_In in H; destruct H as [H H2].
      apply andb_prop in H1; destruct H1 as [H1 H3].
      apply Qltb_lt in H1, H3.
      exists r; split; [exact H | apply reverse_source; assumption].
  - intros [r [Hr Hs]]; destruct Hs as [H1 H2|H1 H2 H3|H1 H2 H3].
    + left; exists r; split; [reflexivity|].
      apply filter_In; split; [|apply Qltb_lt; exact H2].
      apply filter_In; split; [exact Hr | rewrite H1; reflexivity].
    + right; left; exists r; split; [reflexivity|].
      apply filter_In; split.
      * apply filter_In; split; assumption.
      * apply andb_true_intro; split; apply Qltb_lt; assumption.
    + right; right; exists (keep_flux_min r); split; [reflexivity|].
      apply in_map, filter_In; split.
      * apply filter_In; split; assumption.
      * apply andb_true_intro; split; apply Qltb_lt; assumption.
Qed.

Lemma In_sinks_df (df : list Row) (e : Entry) :
  In e (sinks_df df) <-> exists r, In r df /\ sink_of r e.
Proof.
  unfold sinks_df; rewrite !in_app_iff, !in_map_iff; split.
  - intros [[r [<- H]]|[[e' [<- H]]|[r [<- H]]]].
    + apply filter_In in H; destruct H as [H H1].
      apply filter_In in H; destruct H as [H H2].
      apply Qltb_lt in H1; apply negb_true_iff in H2.
      exists r; split; [exact H | constructor; assumption].
    + apply in_map_iff in H; destruct H as [r [<- H]].
      apply filter_In in H; destruct H as [H H1].
      apply filter_In in H; destruct H as [H H2].
      apply andb_prop in H1; destruct H1 as [H1 H3].
      apply Qltb_lt in H1, H3.
      exists r; split; [exact H | apply reverse_sink; assumption].
    + apply filter_In in H; destruct H as [H H1].
      apply filter_In in H; destruct H as [H H2].
      apply andb_prop in H1; destruct H1 as [H1 H3].
      apply Qltb_lt in H1, H3.
      exists r; split; [exact H | apply forward_sink; assumption].
  - intros [r [Hr Hs]]; destruct Hs as [H1 H2|H1 H2 H3|H1 H2 H3].
    + left; exists r; split; [reflexivity|].
      apply filter_In; split; [|apply Qltb_lt; exact H2].
      apply filter_In; split; [exact Hr | rewrite H1; reflexivity].
    + right; left; exists (keep_flux_min r); split; [reflexivity|].
      apply in_map, filter_In; split.
      * apply filter_In; split; assumption.
      * apply andb_true_intro; split; apply Qltb_lt; assumption.
    + right; right; exists r; split; [reflexivity|].
      apply filter_In; split.
      * apply filter_In; split; assumption.
      * apply andb_true_intro; split; apply Qltb_lt; assumption.
Qed.

Lemma source_of_rxn r e : source_of r e -> e_rxn e = rxn r.
Proof. destruct 1; reflexivity. Qed.

Lemma sink_of_rxn r e : sink_of r e -> e_rxn e = rxn r.
Proof. destruct 1; reflexivity. Qed.

Lemma source_of_functional r e e' : source_of r e -> source_of r e' -> e = e'.
Proof.
  destruct 1 as [H1 H2|H1 H2 H3|H1 H2 H3];
    destruct 1 as [K1 K2|K1 K2 K3|K1 K2 K3];
    try reflexivity; try congruence;
    exfalso; exact (Qlt_irrefl _ (Qlt_trans _ _ _ H2 K2)).
Qed.

(** A reaction occurs in at most one row of [source_df]. *)
Lemma source_df_functional (df : list Row) (e e' : Entry) :
  NoDup (map rxn df) ->
  In e (source_df df) -> In e' (source_df df) -> e_rxn e = e_rxn e' ->
  e = e'.
Proof.
  intros Hnd He He' E.
  apply In_source_df in He, He'.
  destruct He as [r [Hr Hs]], He' as [r' [Hr' Hs']].
  rewrite (source_of_rxn _ _ Hs), (source_of_rxn _ _ Hs') in E.
  pose proof (NoDup_map_inj rxn df r r' Hnd Hr Hr' E) as <-.
  exact (source_of_functional r e e' Hs Hs').
Qed.

Lemma source_weight_own rw (df : list Row) (e : Entry) :
  NoDup (map rxn df) -> In e (source_df df) ->
  source_weight rw (source_df df) (e_rxn e) =
  Ok (edge_weight rw (e_flux e) (e_coefficient e)).
Proof.
  intros Hnd He; unfold source_weight.
  destruct (hd_filter_In (fun e0 => String.eqb (e_rxn e0) (e_rxn e))
                         (source_df df) e He (String.eqb_refl _))
    as [e' [Hh [He' E]]].
  rewrite Hh; simpl.
  apply String.eqb_eq in E.
  rewrite (source_df_functional df e' e Hnd He' He E); reflexivity.
Qed.

Lemma group_candidates_expected rw metabolite (df : list Row) :
  NoDup (map rxn df) ->
  group_candidates rw metabolite df =
  Ok (expected_candidates rw metabolite df).
Proof.
  intros Hnd; unfold group_candidates, expected_candidates.
  rewrite product_map, mapM_map.
  apply mapM_total.
  intros [s t] Hst; simpl.
  apply In_product in Hst; destruct Hst as [Hs _].
  rewrite (source_weight_own rw df s Hnd Hs); reflexivity.
Qed.

End MN.

(** *** network_analysis/reaction_network.py *)

Module RN.

Import ReactionNetwork FrameSpec.RN.

Lemma In_source_df_rn (df : list Row) (e : Entry) :
  In e (source_df df) <-> exists r, In r df /\ source_of r e.
Proof.
  unfold source_df, sources_irreversible_df.
  rewrite !in_app_iff, !in_map_iff; split.
  - intros [[e' [<- H]]|[[r [<- H]]|[e' [<- H]]]].
    + apply in_map_iff in H; destruct H as [r [<- H]].
      apply filter_In in H; destruct H as [H H1].
      apply filter_In in H; destruct H as [H H2].
      apply Qltb_lt in H1; apply negb_true_iff in H2.
      exists r; split; [exact H | constructor; assumption].
    + apply filter_In in H; destruct H as [H H1].
      apply filter_In in H; destruct H as [H H2].
      apply andb_prop in H1; destruct H1 as [H1 H3].
      apply Qltb_lt in H1, H3.
      exists r; split; [exact H | apply forward_source; assumption].
    + apply in_map_iff in H; destruct H as [r [<- H]].
      apply filter_In in H; destruct H as [H H1].
      apply filter_In in H; destruct H as [H H2].
      apply andb_prop in H1; destruct H1 as [H1 H3].
      apply Qltb_lt in H1, H3.
      exists r; split; [exact H | apply reverse_source; assumption].
  - intros [r [Hr Hs]]; destruct Hs as [H1 H2|H1 H2 H3|H1 H2 H3].
    + left; exists (keep_flux_max r); split; [reflexivity|].
      apply in_map, filter_In; split; [|apply Qltb_lt; exact H2].
      apply filter_In; split; [exact Hr | rewrite H1; reflexivity].
    + right; left; exists r; split; [reflexivity|].
      apply filter_In; split.
      * apply filter_In; split; assumption.
      * apply andb_true_intro; split; apply Qltb_lt; assumption.
    + right; right; exists (keep_flux_min r); split; [reflexivity|].
      apply in_map, filter_In; split.
      * apply filter_In; split; assumption.
      * apply andb_true_intro; split; apply Qltb_lt; assumption.
Qed.

Lemma source_of_shape_rn r e :
  source_of r e -> e = zero_entry \/ e_rxn e = CStr (rxn r).
Proof.
  destruct 1; try (right; reflexivity).
  unfold zero_negative_flux.
  destruct (Qltb (e_flux (keep_flux_max r)) 0); [left|right]; reflexivity.
Qed.

Lemma source_of_functional_rn r e e' : source_of r e -> source_of r e' -> e = e'.
Proof.
  destruct 1 as [H1 H2|H1 H2 H3|H1 H2 H3];
    destruct 1 as [K1 K2|K1 K2 K3|K1 K2 K3];
    try reflexivity; try congruence;
    exfalso; exact (Qlt_irrefl _ (Qlt_trans _ _ _ H2 K2)).
Qed.

(** Rows with the same [rxn] value are equal, also when that value is the
    [0] written by the row assignment. *)
Lemma source_df_functional_rn (df : list Row) (e e' : Entry) :
  NoDup (map rxn df) ->
  In e (source_df df) -> In e' (source_df df) -> e_rxn e = e_rxn e' ->
  e = e'.
Proof.
  intros Hnd He He' E.
  apply In_source_df_rn in He, He'.
  destruct He as [r [Hr Hs]], He' as [r' [Hr' Hs']].
  destruct (source_of_shape_rn _ _ Hs) as [Hz|Hk],
           (source_of_shape_rn _ _ Hs') as [Hz'|Hk'].
  - congruence.
  - rewrite Hz, Hk' in E; discriminate.
  - rewrite Hz', Hk in E; discriminate.
  - rewrite Hk, Hk' in E; injection E as E.
    pose proof (NoDup_map_inj rxn df r r' Hnd Hr Hr' E) as <-.
    exact (source_of_functional_rn r e e' Hs Hs').
Qed.

Lemma cell_eqb_refl c : cell_eqb c c = true.
Proof. apply GroupFacts.cell_eqb_spec; reflexivity. Qed.

Lemma source_weight_own_rn rw (df : list Row) (e : Entry) :
  NoDup (map rxn df) -> In e (source_df df) ->
  source_weight rw (source_df df) (e_rxn e) =
  Ok (edge_weight rw (e_flux e) (e_coefficient e)).
Proof.
  intros Hnd He; unfold source_weight.
  destruct (hd_filter_In (fun e0 => cell_eqb (e_rxn e0) (e_rxn e))
                         (source_df df) e He (cell_eqb_refl _))
    as [e' [Hh [He' E]]].
  rewrite Hh; simpl.
  apply GroupFacts.cell_eqb_spec in E.
  rewrite (source_df_functional_rn df e' e Hnd He' He E); reflexivity.
Qed.

Lemma group_candidates_expected_rn rw metabolite (df : list Row) :
  NoDup (map rxn df) ->
  group_candidates rw metabolite df =
  Ok (expected_candidates rw metabolite df).
Proof.
  intros Hnd; unfold group_candidates, expected_candidates.
  rewrite product_map, mapM_map.
  apply mapM_total.
  intros [s t] Hst; simpl.
  apply In_product in Hst; destruct Hst as [Hs _].
  rewrite (source_weight_own_rn rw df s Hnd Hs); reflexivity.
Qed.

End RN.

(** *** The rows of a well formed model *)

Lemma filter_map_comm {A B} (f : B -> bool) (h : A -> B) (l : list A) :
  filter f (map h l) = map h (filter (fun x => f (h x)) l).
Proof.
  induction l as [|x t IH]; simpl; [reflexivity|].
  rewrite IH; destruct (f (h x)); reflexivity.
Qed.

Lemma rxn_met_rows_pairs fva (model : Model) (rows : list Row) :
  rxn_met_rows fva model = Ok rows ->
  map (fun r => (rxn r, met r)) rows = rxn_met_pairs model.
Proof.
  unfold rxn_met_rows, rxn_met_pairs.
  destruct (mapM _ model) as [rowss|e] eqn:E; simpl; [|discriminate].
  intros H; injection H as <-.
  apply mapM_Ok_inv in E.
  induction E as [|r rs model' rowss' Hr _ IH]; simpl; [reflexivity|].
  rewrite map_app, IH; f_equal.
  apply mapM_Ok_inv in Hr.
  induction Hr as [|m row ms rs' Hm _ IHm]; simpl; [reflexivity|].
  rewrite IHm; f_equal.
  destruct (get_coefficient r (fst m)) as [c|]; simpl in Hm; [|discriminate].
  destruct (loc fva (id r) maximum) as [fmax|]; simpl in Hm; [|discriminate].
  destruct (loc fva (id r) minimum) as [fmin|]; simpl in Hm; [|discriminate].
  injection Hm as <-; reflexivity.
Qed.

Lemma In_rxn_met_pairs (model : Model) (i m : string) :
  In (i, m) (rxn_met_pairs model) <->
  exists r, In r model /\ id r = i /\ In m (keys (metabolites r)).
Proof.
  unfold rxn_met_pairs; rewrite in_flat_map; split.
  - intros [r [Hr H]].
    apply in_map_iff in H; destruct H as [[m' c] [E H]].
    simpl in E; injection E as <- <-.
    exists r; repeat split; [exact Hr|].
    apply (in_map fst) in H; exact H.
  - intros [r [Hr [<- H]]].
    exists r; split; [exact Hr|].
    apply in_map_iff in H; destruct H as [[m' c] [E H]].
    simpl in E; subst m'.
    apply in_map_iff; exists (m, c); split; [reflexivity | exact H].
Qed.

Lemma at_most_one_match (k : string) (d : dict Q) :
  NoDup (keys d) ->
  (List.length (filter (fun m => String.eqb (fst m) k) d) <= 1)%nat.
Proof.
  induction d as [|[m c] t IH]; simpl; intros H; [lia|].
  inversion H as [|? ? Hn Ht]; subst.
  destruct (String.eqb_spec m k) as [->|Hne]; simpl; [|apply IH; exact Ht].
  assert (E : filter (fun m => String.eqb (fst m) k) t = []).
  { clear IH H Ht.
    induction t as [|[m c'] t IH]; simpl; [reflexivity|].
    destruct (String.eqb_spec m k) as [->|Hne].
    - exfalso; apply Hn; left; reflexivity.
    - apply IH; intros H; apply Hn; right; exact H. }
  rewrite E; simpl; lia.
Qed.

(** In a group of [groupby("met")] every reaction has one row. *)
Lemma NoDup_group_pairs (model : Model) (k : string) :
  wf_model model ->
  NoDup (map fst (filter (fun p => String.eqb (snd p) k)
                         (rxn_met_pairs model))).
Proof.
  unfold wf_model, rxn_met_pairs.
  induction model as [|r t IH]; simpl; intros [Hids Hmets]; [constructor|].
  inversion Hids as [|? ? Hn Hids']; subst.
  rewrite filter_app, map_app.
  apply NoDup_app.
  - rewrite filter_map_comm, map_map; simpl.
    pose proof (at_most_one_match k (metabolites r)
                  (Hmets r (or_introl eq_refl))) as Hlen.
    destruct (filter (fun x => String.eqb (fst x) k) (metabolites r))
      as [|x [|y l]]; simpl in *; try lia; repeat constructor; intros [].
  - apply IH; split; [exact Hids'|].
    intros r' Hr'; apply Hmets; right; exact Hr'.
  - intros i H1 H2.
    apply in_map_iff in H1; destruct H1 as [[i1 m1] [E1 H1]].
    apply filter_In in H1; destruct H1 as [H1 _].
    apply in_map_iff in H1; destruct H1 as [m [E H1]].
    injection E as <- _; simpl in E1; subst i.
    apply in_map_iff in H2; destruct H2 as [[i2 m2] [E2 H2]].
    apply filter_In in H2; destruct H2 as [H2 _].
    simpl in E2; subst i2.
    apply (In_rxn_met_pairs t (id r) m2) in H2.
    destruct H2 as [r' [Hr' [E _]]].
    apply Hn; rewrite <- E; apply in_map; exact Hr'.
Qed.

Lemma NoDup_group_rxn fva (model : Model) (rows : list Row) (k : string) :
  wf_model model -> rxn_met_rows fva model = Ok rows ->
  NoDup (map rxn (group_rows String.eqb met k rows)).
Proof.
  intros Hwf Hrows.
  pose proof (NoDup_group_pairs model k Hwf) as H.
  rewrite <- (rxn_met_rows_pairs fva model rows Hrows) in H.
  rewrite filter_map_comm, map_map in H; exact H.
Qed.

End FrameFacts.

(* ================================================================== *)
(** * The claims                                                        *)
(* ================================================================== *)

(** ** C1: no edge joins a reaction to itself *)

Lemma resolve_group_key {K} rw (s t : K) df (e : K * K * Nx.Attrs) :
  resolve_group rw s t df = Ok e -> fst e = (s, t).
Proof.
  unfold resolve_group.
  destruct df as [|r1 [|r2 rest]].
  - destruct (hd_error _); simpl; [|discriminate].
    intros H; injection H as <-; reflexivity.
  - intros H; injection H as <-; reflexivity.
  - destruct (hd_error _); simpl; [|discriminate].
    intros H; injection H as <-; reflexivity.
Qed.


Lemma combinations2_distinct {A} (l : list A) (a b : A) :
  NoDup l -> In (a, b) (combinations2 l) -> a <> b.
Proof.
  induction l as [|x t IH]; simpl; intros Hnd; [intros []|].
  inversion Hnd as [|? ? Hn Ht]; subst.
  rewrite in_app_iff, in_map_iff.
  intros [[y [E Hy]]|H].
  - injection E as -> ->; intros ->; contradiction.
  - exact (IH Ht H).
Qed.

(** The undirected edge list of a well formed model has no self loop
    either, with or without the [if i != j] of reaction_network.py. *)
Lemma undirected_no_self_loop (model : Model) (e : Nx.Edge) :
  wf_model model ->
  In e (MetabolicNetwork.find_edges_from_model model) ->
  fst (fst e) <> snd (fst e).
Proof.
  intros Hwf; unfold MetabolicNetwork.find_edges_from_model.
  rewrite in_flat_map; intros [[k grp] [Hg He]]; simpl in He.
  apply in_map_iff in He; destruct He as [[i j] [<- Hij]]; simpl.
  apply GroupFacts.In_groupby in Hg; destruct Hg as [_ ->].
  apply (combinations2_distinct _ i j) in Hij; [exact Hij|].
  exact (FrameFacts.NoDup_group_pairs model k Hwf).
Qed.

(** C1: no edge joins a reaction to itself.  The claim fails for
    [find_directed_edges_from_model] of metabolic_network.py, whose
    resolution loop lacks the [if source != sink] guard of
    reaction_network.py: a reversible reaction [C] with coefficient [+1] for
    [M] and flux interval [[-5, 3]] is a source of [M] by its forward branch
    and a sink by its reverse branch, and the edge [(C, C)] is emitted and
    stored in the directed graph.  On the same input reaction_network.py
    emits no edge (and never emits a self loop:
    [reaction_network_no_self_loop]); the undirected edge lists have none
    ([undirected_no_self_loop]). *)
Theorem C1_metabolic_network_emits_self_loop :
  let C := mkReaction "C" [("M", 1%Q)] true in
  let fva := fixed_fva [("C", mkFluxRange (-5) 3)] in
  MetabolicNetwork.find_directed_edges_from_model
    fva [C] true false (95 # 100)
  = Ok [("C", "C", Nx.mkAttrs (Some (/ (3 * 1 + epsilon))%Q) (Some "M"))]
  /\ (exists g,
        MetabolicNetwork.create_directed_metabolic_network
          fva no_file no_file no_file no_file
          (ArgModel [C]) None true false (95 # 100) = Ok g
        /\ In ("C", "C", Nx.mkAttrs (Some (/ (3 * 1 + epsilon))%Q) (Some "M"))
              (Nx.edges g))
  /\ ReactionNetwork.find_directed_edges_from_model
       fva [C] true false (95 # 100) = Ok [].
Proof.
  cbv zeta; split; [vm_compute; reflexivity|]; split.
  - eexists; split; [vm_compute; reflexivity|].
    vm_compute; left; reflexivity.
  - vm_compute; reflexivity.
Qed.

(** ** C2: one resolved edge per ordered pair *)

Lemma filter_keeps_all {A} (f : A -> bool) (l : list A) :
  (forall x, f x = true) -> filter f l = l.
Proof.
  intros H; induction l as [|x t IH]; simpl; [reflexivity|].
  rewrite H, IH; reflexivity.
Qed.

(** C2: for every ordered pair [(s, t)] with at least one candidate, edge
    resolution succeeds and emits exactly one edge from [s] to [t]; the edge
    carries the weight and metabolite of the candidate that has the least
    weight of the pair's candidates under reciprocal weights (the greatest
    without), and that was produced before every other candidate of that
    weight.  metabolic_network.py does so for every pair,
    reaction_network.py for every pair of distinct reactions (self pairs
    are the subject of C1). *)
Theorem C2_resolution_keeps_first_best (rw : bool) :
  (forall cands : list (Candidate string),
      exists edges,
        MetabolicNetwork.resolve_edges rw cands = Ok edges
        /\ forall s t,
          let group :=
            filter (fun c => String.eqb (source c) s && String.eqb (sink c) t)
                   cands in
          group <> [] ->
          exists c,
            ResolveSpec.first_best rw group c
            /\ filter (ResolveSpec.joins String.eqb (s, t)) edges
               = [(s, t, Nx.mkAttrs (Some (weight c)) (Some (metabolite c)))])
  /\ (forall cands : list (Candidate ReactionNetwork.cell),
         exists edges,
           ReactionNetwork.resolve_edges rw cands = Ok edges
           /\ forall s t,
             let group :=
               filter (fun c => ReactionNetwork.cell_eqb (source c) s
                                && ReactionNetwork.cell_eqb (sink c) t)
                      cands in
             s <> t -> group <> [] ->
             exists c,
               ResolveSpec.first_best rw group c
               /\ filter (ResolveSpec.joins ReactionNetwork.cell_eqb (s, t))
                         edges
                  = [(s, t,
                      Nx.mkAttrs (Some (weight c)) (Some (metabolite c)))]).
Proof.
  split; intros cands.
  - destruct (ResolveFacts.resolve_groupby string String.eqb String.leb
                String.eqb_eq rw (fun _ => true) cands) as [edges [He Hk]].
    exists edges; split.
    + unfold MetabolicNetwork.resolve_edges.
      etransitivity; [|exact He]; f_equal.
      symmetry; apply filter_keeps_all; reflexivity.
    + intros s t group Hne.
      exact (Hk (s, t) Hne).
  - destruct (ResolveFacts.resolve_groupby ReactionNetwork.cell
                ReactionNetwork.cell_eqb ReactionNetwork.cell_leb
                GroupFacts.cell_eqb_spec rw
                (fun k => negb (ReactionNetwork.cell_eqb (fst k) (snd k)))
                cands) as [edges [He Hk]].
    exists edges; split; [exact He|].
    intros s t group Hst Hne.
    specialize (Hk (s, t) Hne); simpl in Hk.
    destruct (ReactionNetwork.cell_eqb s t) eqn:E; [|exact Hk].
    apply GroupFacts.cell_eqb_spec in E; contradiction.
Qed.

Lemma C2_resolution_witness :
  let c1 := mkCandidate "A" "B" (1 # 20) "M" in
  let c2 := mkCandidate "A" "B" (1 # 30) "N" in
  let c3 := mkCandidate "A" "B" (1 # 30) "P" in
  let d1 := mkCandidate (ReactionNetwork.CStr "A") (ReactionNetwork.CStr "B")
                        (1 # 20) "M" in
  (exists edges,
      MetabolicNetwork.resolve_edges true [c1; c2; c3] = Ok edges
      /\ exists c,
        ResolveSpec.first_best true [c1; c2; c3] c
        /\ filter (ResolveSpec.joins String.eqb ("A", "B")) edges
           = [("A", "B", Nx.mkAttrs (Some (weight c)) (Some (metabolite c)))])
  /\ (exists edges,
         ReactionNetwork.resolve_edges true [d1] = Ok edges
         /\ exists c,
           ResolveSpec.first_best true [d1] c
           /\ filter (ResolveSpec.joins ReactionNetwork.cell_eqb
                        (ReactionNetwork.CStr "A", ReactionNetwork.CStr "B"))
                     edges
              = [(ReactionNetwork.CStr "A", ReactionNetwork.CStr "B",
                  Nx.mkAttrs (Some (weight c)) (Some (metabolite c)))]).
Proof.
  cbv zeta; split.
  - destruct (proj1 (C2_resolution_keeps_first_best true)
                [mkCandidate "A" "B" (1 # 20) "M";
                 mkCandidate "A" "B" (1 # 30) "N";
                 mkCandidate "A" "B" (1 # 30) "P"]) as [edges [H1 H2]].
    exists edges; split; [exact H1|].
    apply (H2 "A" "B"); simpl; discriminate.
  - destruct (proj2 (C2_resolution_keeps_first_best true)
                [mkCandidate (ReactionNetwork.CStr "A")
                             (ReactionNetwork.CStr "B") (1 # 20) "M"])
      as [edges [H1 H2]].
    exists edges; split; [exact H1|].
    apply (H2 (ReactionNetwork.CStr "A") (ReactionNetwork.CStr "B"));
      simpl; discriminate.
Defined.

(** The kept candidate of the example above is the second one: the first of
    the two candidates of least weight. *)
Example resolution_example :
  MetabolicNetwork.resolve_edges true
    [mkCandidate "A" "B" (1 # 20) "M"; mkCandidate "A" "B" (1 # 30) "N";
     mkCandidate "A" "B" (1 # 30) "P"]
  = Ok [("A", "B", Nx.mkAttrs (Some (1 # 30)) (Some "N"))]
  /\ MetabolicNetwork.resolve_edges false
       [mkCandidate "A" "B" (1 # 20) "M"; mkCandidate "A" "B" (1 # 30) "N";
        mkCandidate "A" "B" (1 # 20) "P"]
     = Ok [("A", "B", Nx.mkAttrs (Some (1 # 20)) (Some "M"))].
Proof. split; vm_compute; reflexivity. Qed.

(** ** C3: the weight of a candidate edge *)

Lemma edge_weight_rows_expected fva_results (model : Model)
      (rows : list Row) (rw : bool) :
  wf_model model -> rxn_met_rows fva_results model = Ok rows ->
  MetabolicNetwork.edge_weight_rows rw rows
  = Ok (flat_map
          (fun g => FrameSpec.MN.expected_candidates rw (fst g) (snd g))
          (groupby String.eqb String.leb met rows))
  /\ ReactionNetwork.edge_weight_rows rw rows
     = Ok (flat_map
             (fun g => FrameSpec.RN.expected_candidates rw (fst g) (snd g))
             (groupby String.eqb String.leb met rows)).
Proof.
  intros Hwf Hrows.
  assert (Hnd : forall g, In g (groupby String.eqb String.leb met rows) ->
                          NoDup (map rxn (snd g))).
  { intros [k df] Hg; simpl.
    apply GroupFacts.In_groupby in Hg; destruct Hg as [_ ->].
    exact (FrameFacts.NoDup_group_rxn fva_results model rows k Hwf Hrows). }
  unfold MetabolicNetwork.edge_weight_rows, ReactionNetwork.edge_weight_rows.
  split.
  - rewrite (mapM_total _
               (fun g => FrameSpec.MN.expected_candidates rw (fst g) (snd g))).
    + simpl; rewrite flat_map_concat_map; reflexivity.
    + intros g Hg.
      apply FrameFacts.MN.group_candidates_expected, Hnd, Hg.
  - rewrite (mapM_total _
               (fun g => FrameSpec.RN.expected_candidates rw (fst g) (snd g))).
    + simpl; rewrite flat_map_concat_map; reflexivity.
    + intros g Hg.
      apply FrameFacts.RN.group_candidates_expected_rn, Hnd, Hg.
Qed.

(** C3: in each metabolite group the candidates are the pairs of a row of
    [source_df] and a row of [sinks_df], and the weight of a candidate is
    [flux * coefficient] of its source row, or
    [1 / (flux * coefficient + 1e-30)] under reciprocal weights; the sink
    row contributes its reaction only.  For an irreversible [A]
    (coefficient [+2], maximum flux [10]) and an irreversible sink [B] the
    edge [(A, B)] weighs [20], and with reciprocal weights
    [1 / (20 + 1e-30)], which is below [1/20] by less than [1e-30]. *)
Theorem C3_candidate_weight :
  (forall fva_results (model : Model) (rows : list Row) (rw : bool),
      wf_model model -> rxn_met_rows fva_results model = Ok rows ->
      MetabolicNetwork.edge_weight_rows rw rows
      = Ok (flat_map
              (fun g =>
                 map (fun st =>
                        mkCandidate
                          (MetabolicNetwork.e_rxn (fst st))
                          (MetabolicNetwork.e_rxn (snd st))
                          (if rw
                           then / (MetabolicNetwork.e_flux (fst st)
                                   * MetabolicNetwork.e_coefficient (fst st)
                                   + (1 # 10 ^ 30))
                           else MetabolicNetwork.e_flux (fst st)
                                * MetabolicNetwork.e_coefficient (fst st))%Q
                          (fst g))
                     (product (MetabolicNetwork.source_df (snd g))
                              (MetabolicNetwork.sinks_df (snd g))))
              (groupby String.eqb String.leb met rows))
      /\ ReactionNetwork.edge_weight_rows rw rows
         = Ok (flat_map
                 (fun g =>
                    map (fun st =>
                           mkCandidate
                             (ReactionNetwork.e_rxn (fst st))
                             (ReactionNetwork.e_rxn (snd st))
                             (if rw
                              then / (ReactionNetwork.e_flux (fst st)
                                      * ReactionNetwork.e_coefficient (fst st)
                                      + (1 # 10 ^ 30))
                              else ReactionNetwork.e_flux (fst st)
                                   * ReactionNetwork.e_coefficient (fst st))%Q
                             (fst g))
                        (product (ReactionNetwork.source_df (snd g))
                                 (ReactionNetwork.sinks_df (snd g))))
                 (groupby String.eqb String.leb met rows)))
  /\ (forall amin bmin bmax : Q,
         let A := mkReaction "A" [("M", 2%Q)] false in
         let B := mkReaction "B" [("M", (-1)%Q)] false in
         let fva := fixed_fva [("A", mkFluxRange amin 10);
                               ("B", mkFluxRange bmin bmax)] in
         MetabolicNetwork.find_directed_edges_from_model
           fva [A; B] false false (95 # 100)
         = Ok [("A", "B", Nx.mkAttrs (Some 20%Q) (Some "M"))]
         /\ MetabolicNetwork.find_directed_edges_from_model
              fva [A; B] true false (95 # 100)
            = Ok [("A", "B",
                   Nx.mkAttrs (Some (/ (20 + (1 # 10 ^ 30)))%Q) (Some "M"))]
         /\ ReactionNetwork.find_directed_edges_from_model
              fva [A; B] false false (95 # 100)
            = Ok [(ReactionNetwork.CStr "A", ReactionNetwork.CStr "B",
                   Nx.mkAttrs (Some 20%Q) (Some "M"))]
         /\ ReactionNetwork.find_directed_edges_from_model
              fva [A; B] true false (95 # 100)
            = Ok [(ReactionNetwork.CStr "A", ReactionNetwork.CStr "B",
                   Nx.mkAttrs (Some (/ (20 + (1 # 10 ^ 30)))%Q) (Some "M"))])
  /\ (/ (20 + (1 # 10 ^ 30)) < 1 # 20)%Q
  /\ ((1 # 20) - / (20 + (1 # 10 ^ 30)) < 1 # 10 ^ 30)%Q.
Proof.
  split; [|split; [|split]].
  - intros fva_results model rows rw Hwf Hrows.
    exact (edge_weight_rows_expected fva_results model rows rw Hwf Hrows).
  - intros amin bmin bmax; cbv zeta.
    repeat split; vm_compute; reflexivity.
  - vm_compute; reflexivity.
  - vm_compute; reflexivity.
Qed.

Lemma C3_candidate_weight_witness :
  let A := mkReaction "A" [("M", 2%Q); ("N", 1%Q)] false in
  let B := mkReaction "B" [("M", (-1)%Q)] true in
  let table := [("A", mkFluxRange 0 10); ("B", mkFluxRange (-4) 7)] in
  exists rows,
    rxn_met_rows table [A; B] = Ok rows
    /\ MetabolicNetwork.edge_weight_rows true rows
       = Ok [mkCandidate "A" "B" (/ (10 * 2 + (1 # 10 ^ 30)))%Q "M";
             mkCandidate "B" "B" (/ (- -4 * - -1 + (1 # 10 ^ 30)))%Q "M"].
Proof.
  cbv zeta; eexists; split; [vm_compute; reflexivity|].
  etransitivity.
  - apply (proj1 C3_candidate_weight
             [("A", mkFluxRange 0 10); ("B", mkFluxRange (-4) 7)]
             [mkReaction "A" [("M", 2%Q); ("N", 1%Q)] false;
              mkReaction "B" [("M", (-1)%Q)] true]).
    + wf_model_concrete.
    + vm_compute; reflexivity.
  - vm_compute; reflexivity.
Defined.

(** ** C4: irreversible sources and negative maximum flux *)

(** An irreversible reaction is a source exactly through a positive
    coefficient and a sink exactly through a negative one, with its maximum
    flux as flux (metabolic_network.py, where nothing is clamped). *)
Lemma irreversible_classification (df : list Row) (r : Row) :
  In r df -> reversible r = false ->
  ((0 < coefficient r)%Q ->
   In (MetabolicNetwork.keep_flux_max r) (MetabolicNetwork.source_df df))
  /\ ((coefficient r < 0)%Q ->
      In (MetabolicNetwork.keep_flux_max r) (MetabolicNetwork.sinks_df df)).
Proof.
  intros Hr Hrev; split; intros Hc.
  - apply FrameFacts.MN.In_source_df; exists r; split; [exact Hr|].
    constructor; assumption.
  - apply FrameFacts.MN.In_sinks_df; exists r; split; [exact Hr|].
    constructor; assumption.
Qed.

(** C4: the classification of irreversible reactions holds, the clamp does
    not.  For the irreversible reaction [A] with coefficient [+1] for [M]
    and maximum flux [-1/1000], reaction_network.py replaces the whole
    source row by zeros (reaction id, metabolite and coefficient included),
    so that the edge to the sink [B] leaves a node [0];
    metabolic_network.py has no clamp and keeps the negative flux. *)
Theorem C4_clamp_overwrites_the_row :
  let row := mkRow "A" "M" false 1 (-1 # 1000) (-1) in
  let A := mkReaction "A" [("M", 1%Q)] false in
  let B := mkReaction "B" [("M", (-1)%Q)] false in
  let fva := fixed_fva [("A", mkFluxRange (-1) (-1 # 1000));
                        ("B", mkFluxRange 0 7)] in
  ReactionNetwork.source_df [row]
  = [ReactionNetwork.mkEntry (ReactionNetwork.CInt 0) (ReactionNetwork.CInt 0)
                             0 0]
  /\ MetabolicNetwork.source_df [row]
     = [MetabolicNetwork.mkEntry "A" "M" false 1 (-1 # 1000)]
  /\ ReactionNetwork.find_directed_edges_from_model
       fva [A; B] false false (95 # 100)
     = Ok [(ReactionNetwork.CInt 0, ReactionNetwork.CStr "B",
            Nx.mkAttrs (Some 0%Q) (Some "M"))]
  /\ MetabolicNetwork.find_directed_edges_from_model
       fva [A; B] false false (95 # 100)
     = Ok [("A", "B", Nx.mkAttrs (Some (-1 # 1000)%Q) (Some "M"))].
Proof. cbv zeta; repeat split; vm_compute; reflexivity. Qed.

(** ** C5: directed construction needs flux intervals *)

Lemma rxn_met_rows_only_KeyError (table : FvaFrame) (model : Model) e :
  rxn_met_rows table model = Raise e -> e = KeyError.
Proof.
  unfold rxn_met_rows.
  destruct (mapM _ model) as [rowss|e'] eqn:E; simpl; [discriminate|].
  intros H; injection H as <-.
  revert e' E; apply mapM_Raise_only.
  intros r e1 _; apply mapM_Raise_only.
  intros m e2 _.
  unfold get_coefficient, loc.
  destruct (dict_get (fst m) (metabolites r)); simpl; [|congruence].
  destruct (dict_get (id r) table); simpl; congruence.
Qed.

Lemma rxn_met_rows_needs_flux (table : FvaFrame) (model : Model)
      (r : Reaction) :
  In r model -> metabolites r <> [] -> dict_get (id r) table = None ->
  rxn_met_rows table model = Raise KeyError.
Proof.
  intros Hr Hm Hnone.
  destruct (rxn_met_rows table model) as [rows|e] eqn:E.
  - exfalso; revert E; unfold rxn_met_rows.
    destruct (mapM _ model) as [rowss|e'] eqn:E'; simpl; [|discriminate].
    intros _; revert E'.
    apply (mapM_fails _ model r Hr).
    intros rs Hrs.
    destruct (metabolites r) as [|m ms]; [congruence|].
    simpl in Hrs; unfold loc in Hrs; rewrite Hnone in Hrs; simpl in Hrs.
    destruct (get_coefficient r (fst m)); discriminate.
  - rewrite (rxn_met_rows_only_KeyError table model e E); reflexivity.
Qed.

Lemma directed_add_reaction_nodes (model : Model) (g : Nx.Graph) :
  Nx.directed (MetabolicNetwork.add_reaction_nodes model g) = Nx.directed g.
Proof.
  unfold MetabolicNetwork.add_reaction_nodes; revert g.
  induction model as [|r t IH]; intros g; simpl; [reflexivity|].
  rewrite IH; apply NxFacts.directed_add_node.
Qed.

(** C5: when the flux variability frame has no row for a reaction that is
    incident to a metabolite (a reaction to classify), the directed edge
    derivation and the directed graph construction fail with the lookup's
    [KeyError], and no edge is produced; the undirected construction of the
    same model succeeds, since it takes no flux data at all. *)
Theorem C5_missing_flux_is_fatal
        (fva : Model -> bool -> Q -> result FvaFrame)
        (load_json read_sbml load_yaml load_matlab
         : ModelArg -> result Model)
        (model : Model) (table : FvaFrame) (r : Reaction)
        (file_type : option string) (rw loopless : bool) (fva_prop : Q) :
  fva model loopless fva_prop = Ok table ->
  In r model -> metabolites r <> [] -> dict_get (id r) table = None ->
  MetabolicNetwork.find_directed_edges_from_model
    fva model rw loopless fva_prop = Raise KeyError
  /\ MetabolicNetwork.create_directed_metabolic_network
       fva load_json read_sbml load_yaml load_matlab
       (ArgModel model) file_type rw loopless fva_prop = Raise KeyError
  /\ exists g,
      MetabolicNetwork.create_metabolic_network
        load_json read_sbml load_yaml load_matlab (ArgModel model) file_type
      = Ok g
      /\ Nx.directed g = false.
Proof.
  intros Hfva Hr Hm Hnone.
  assert (H : MetabolicNetwork.find_directed_edges_from_model
                fva model rw loopless fva_prop = Raise KeyError).
  { unfold MetabolicNetwork.find_directed_edges_from_model.
    rewrite Hfva; simpl.
    rewrite (rxn_met_rows_needs_flux table model r Hr Hm Hnone).
    reflexivity. }
  split; [exact H|]; split.
  - unfold MetabolicNetwork.create_directed_metabolic_network; simpl.
    rewrite H; reflexivity.
  - eexists; split; [reflexivity|].
    rewrite NxFacts.directed_add_edges_from, directed_add_reaction_nodes.
    reflexivity.
Qed.

Lemma C5_missing_flux_witness :
  let A := mkReaction "A" [("M", 2%Q)] false in
  let B := mkReaction "B" [("M", (-1)%Q)] false in
  MetabolicNetwork.find_directed_edges_from_model
    (fixed_fva []) [A; B] true false (95 # 100) = Raise KeyError
  /\ MetabolicNetwork.create_directed_metabolic_network
       (fixed_fva []) no_file no_file no_file no_file
       (ArgModel [A; B]) None true false (95 # 100) = Raise KeyError
  /\ exists g,
      MetabolicNetwork.create_metabolic_network
        no_file no_file no_file no_file (ArgModel [A; B]) None = Ok g
      /\ Nx.directed g = false.
Proof.
  cbv zeta.
  apply (C5_missing_flux_is_fatal
           (fixed_fva []) no_file no_file no_file no_file
           [mkReaction "A" [("M", 2%Q)] false;
            mkReaction "B" [("M", (-1)%Q)] false]
           [] (mkReaction "A" [("M", 2%Q)] false) None true false (95 # 100)).
  - reflexivity.
  - left; reflexivity.
  - simpl; discriminate.
  - reflexivity.
Defined.

(** ** C6: what the loader does with a format it cannot use *)

(** C6 as stated fails: for the path ["model.csv"] without a hint, and for
    an open file with the hint ["csv"], the loader raises nothing and
    returns [None]. *)
Lemma C6_unrecognised_format_returns_none :
  load_cobra_model_from_file no_file no_file no_file no_file
    (ArgStr "model.csv") None = Ok None
  /\ load_cobra_model_from_file no_file no_file no_file no_file
       (ArgIO 0) (Some "csv") = Ok None.
Proof. split; vm_compute; reflexivity. Qed.

(** C6, amended: when the input is not a path string and no format hint is
    given, the loader fails (with [AttributeError]) and returns nothing;
    when the format tag, which is the hint or else the lower case extension
    of the path, is not one of the recognised tags, the loader raises no
    error and returns [None] instead of a model. *)
Theorem C6_loader_failures
        (load_json read_sbml load_yaml load_matlab
         : ModelArg -> result Model)
        (model : ModelArg) (file_type : option string) :
  ((forall path, model <> ArgStr path) -> falsy file_type = true ->
   load_cobra_model_from_file load_json read_sbml load_yaml load_matlab
     model file_type = Raise AttributeError)
  /\ (forall tag,
         infer_file_type model file_type = Ok (Some tag) ->
         tag <> EmptyString -> mem tag recognised_tags = false ->
         load_cobra_model_from_file load_json read_sbml load_yaml load_matlab
           model file_type = Ok None).
Proof.
  split.
  - intros Hnot Hfalsy; unfold load_cobra_model_from_file.
    destruct model as [path| | |]; simpl;
      try (rewrite Hfalsy; reflexivity).
    exfalso; exact (Hnot path eq_refl).
  - intros tag Hinfer Hne Hmem; unfold load_cobra_model_from_file.
    rewrite Hinfer; simpl.
    apply String.eqb_neq in Hne; rewrite Hne.
    unfold mem, recognised_tags in Hmem; simpl in Hmem.
    repeat (apply orb_false_elim in Hmem; destruct Hmem as [?E Hmem]).
    unfold mem; simpl.
    rewrite E, E0, E1, E2, E3, E4, E5, E6, E7, E8, E9, E10, E11, E12, E13.
    reflexivity.
Qed.

Lemma C6_loader_failures_witness :
  load_cobra_model_from_file no_file no_file no_file no_file (ArgIO 0) None
  = Raise AttributeError
  /\ load_cobra_model_from_file no_file no_file no_file no_file
       (ArgStr "models/iEK1011.csv") None = Ok None.
Proof.
  split.
  - apply (proj1 (C6_loader_failures no_file no_file no_file no_file
                    (ArgIO 0) None)); [discriminate | reflexivity].
  - apply (proj2 (C6_loader_failures no_file no_file no_file no_file
                    (ArgStr "models/iEK1011.csv") None) "csv");
      [vm_compute; reflexivity | discriminate | vm_compute; reflexivity].
Defined.

(** ** C10: the reciprocal flag of the command line tool *)

Lemma run_action_reciprocal (ns ns' : Script.Namespace) occurrence :
  dict_get "reciprocal" ns = Some (Script.VBool true) ->
  Script.run_action Script.parser ns occurrence = Ok ns' ->
  dict_get "reciprocal" ns' = Some (Script.VBool true).
Proof.
  intros Hns; unfold Script.run_action.
  destruct (Script.find_argument Script.parser (fst occurrence)) as [a|] eqn:E;
    [|discriminate].
  apply find_some in E; destruct E as [Hin _].
  unfold Script.parser in Hin; simpl in Hin.
  repeat (destruct Hin as [<-|Hin];
          [simpl; destruct (snd occurrence) as [|v [|v' vs]]; simpl;
           try discriminate;
           intros H; injection H as <-;
           first [apply dict_get_set_same
                 | rewrite dict_get_set_other by discriminate; exact Hns]|]).
  contradiction.
Qed.

Lemma run_actions_reciprocal occurrences (ns ns' : Script.Namespace) :
  dict_get "reciprocal" ns = Some (Script.VBool true) ->
  Script.run_actions Script.parser ns occurrences = Ok ns' ->
  dict_get "reciprocal" ns' = Some (Script.VBool true).
Proof.
  revert ns; induction occurrences as [|o t IH]; intros ns Hns; simpl.
  - intros H; injection H as <-; exact Hns.
  - destruct (Script.run_action Script.parser ns o) as [ns1|] eqn:E; simpl;
      [|discriminate].
    apply IH; exact (run_action_reciprocal ns ns1 o Hns E).
Qed.

(** C10: however argparse reads the command line, the namespace it returns
    has [reciprocal = True]: the default is [True] and the only action on
    that attribute stores [True].  Hence the call [main] makes for a
    directed graph always passes [reciprocal_weight=True]. *)
Theorem C10_reciprocal_is_always_true
        (scan : list string -> list string
                -> result (list (string * list string)))
        (load_json read_sbml load_yaml load_matlab
         : ModelArg -> result Model)
        (argv : list string) :
  (forall ns,
      Script.arg_parse scan argv = Ok ns ->
      Script.getattr ns "reciprocal" = Ok (Script.VBool true))
  /\ (forall model reciprocal_weight do_loopless fva_prop verbose,
         Script.main_call scan load_json read_sbml load_yaml load_matlab argv
         = Ok (Script.create_directed_metabolic_network
                 model reciprocal_weight do_loopless fva_prop verbose) ->
         reciprocal_weight = Script.VBool true).
Proof.
  assert (H : forall ns, Script.arg_parse scan argv = Ok ns ->
                         dict_get "reciprocal" ns = Some (Script.VBool true)).
  { intros ns; unfold Script.arg_parse.
    destruct (scan _ argv) as [occurrences|]; simpl; [|discriminate].
    apply run_actions_reciprocal; reflexivity. }
  split.
  - intros ns Hns; unfold Script.getattr; rewrite (H ns Hns); reflexivity.
  - intros model rw ll fp v; unfold Script.main_call.
    destruct (Script.arg_parse scan argv) as [ns|] eqn:E; simpl;
      [|discriminate].
    specialize (H ns eq_refl).
    destruct (Script.getattr ns "verbose"); simpl; [|discriminate].
    destruct (Script.getattr ns "input_file"); simpl; [|discriminate].
    destruct (Script.getattr ns "file_type"); simpl; [|discriminate].
    destruct (load_cobra_model_from_file _ _ _ _ _ _); simpl; [|discriminate].
    destruct (Script.getattr ns "directed") as [d|]; simpl; [|discriminate].
    destruct (Script.truthy d); [|discriminate].
    unfold Script.getattr at 1; rewrite H; simpl.
    destruct (Script.getattr ns "loopless"); simpl; [|discriminate].
    destruct (Script.getattr ns "fva_prop"); simpl; [|discriminate].
    intros Heq; injection Heq as _ <- _ _ _; reflexivity.
Qed.

Lemma C10_reciprocal_witness :
  (exists ns,
      Script.arg_parse simple_scan ["-d"; "-r"; "-i"; "model.json"] = Ok ns
      /\ Script.getattr ns "reciprocal" = Ok (Script.VBool true))
  /\ (exists ns,
         Script.arg_parse simple_scan ["-d"; "-i"; "model.json"] = Ok ns
         /\ Script.getattr ns "reciprocal" = Ok (Script.VBool true))
  /\ Script.main_call simple_scan (fun _ => Ok []) no_file no_file no_file
       ["--directed"; "-i"; "model.json"]
     = Ok (Script.create_directed_metabolic_network
             (Some []) (Script.VBool true) (Script.VBool false)
             (Script.VFloat (95 # 100)) (Script.VBool false)).
Proof.
  split; [|split].
  - eexists; split; [vm_compute; reflexivity|].
    apply (proj1 (C10_reciprocal_is_always_true
                    simple_scan no_file no_file no_file no_file
                    ["-d"; "-r"; "-i"; "model.json"])).
    vm_compute; reflexivity.
  - eexists; split; [vm_compute; reflexivity|].
    apply (proj1 (C10_reciprocal_is_always_true
                    simple_scan no_file no_file no_file no_file
                    ["-d"; "-i"; "model.json"])).
    vm_compute; reflexivity.
  - vm_compute; reflexivity.
Defined.

(** ** C9: the nodes of a graph are the reactions of the model *)

Lemma In_combinations2 {A} (l : list A) (a b : A) :
  In (a, b) (combinations2 l) -> In a l /\ In b l.
Proof.
  induction l as [|x t IH]; simpl; [intros []|].
  rewrite in_app_iff, in_map_iff.
  intros [[y [E Hy]]|H].
  - injection E as -> ->; split; [left; reflexivity | right; exact Hy].
  - destruct (IH H) as [Ha Hb]; split; right; assumption.
Qed.

Lemma nodes_add_reaction_nodes (model : Model) (g : Nx.Graph) (n : string) :
  In n (Nx.nodes (MetabolicNetwork.add_reaction_nodes model g)) <->
  In n (Nx.nodes g) \/ In n (map id model).
Proof.
  unfold MetabolicNetwork.add_reaction_nodes; revert g.
  induction model as [|r t IH]; intros g; simpl; [intuition|].
  rewrite IH, NxFacts.In_nodes_add_node; intuition.
Qed.

Lemma add_reaction_nodes_by_id (model : Model) (g : Nx.Graph) :
  MetabolicNetwork.add_reaction_nodes model g
  = fold_left (fun g n => Nx.add_node n g) (map id model) g.
Proof.
  unfold MetabolicNetwork.add_reaction_nodes; revert g.
  induction model as [|r t IH]; intros g; simpl; [reflexivity | apply IH].
Qed.

Lemma wf_add_reaction_nodes (model : Model) (g : Nx.Graph) :
  NxSpec.wf_graph g ->
  NxSpec.wf_graph (MetabolicNetwork.add_reaction_nodes model g).
Proof.
  unfold MetabolicNetwork.add_reaction_nodes; revert g.
  induction model as [|r t IH]; intros g H; simpl; [exact H|].
  apply IH, NxFacts.wf_add_node, H.
Qed.

Lemma edge_data_add_reaction_nodes (model : Model) (g : Nx.Graph) u v :
  Nx.edge_data (MetabolicNetwork.add_reaction_nodes model g) u v
  = Nx.edge_data g u v.
Proof.
  unfold MetabolicNetwork.add_reaction_nodes; revert g.
  induction model as [|r t IH]; intros g; simpl; [reflexivity|].
  rewrite IH; apply NxFacts.edge_data_add_node.
Qed.

Lemma incident_is_reaction model i : incident model i -> In i (map id model).
Proof. intros [r [Hr [<- _]]]; apply in_map; exact Hr. Qed.

Lemma pair_incident model i m :
  In (i, m) (rxn_met_pairs model) -> incident model i.
Proof.
  intros H; apply FrameFacts.In_rxn_met_pairs in H.
  destruct H as [r [Hr [E Hm]]].
  exists r; repeat split; try assumption.
  intros Hnil; rewrite Hnil in Hm; exact Hm.
Qed.

Lemma find_edges_endpoints (model : Model) a b dd :
  In (a, b, dd) (MetabolicNetwork.find_edges_from_model model) ->
  incident model a /\ incident model b.
Proof.
  unfold MetabolicNetwork.find_edges_from_model.
  rewrite in_flat_map; intros [[k grp] [Hg He]]; simpl in He.
  apply in_map_iff in He; destruct He as [[i j] [E Hij]].
  simpl in E; injection E as -> -> _.
  apply GroupFacts.In_groupby in Hg; destruct Hg as [_ ->].
  apply In_combinations2 in Hij; destruct Hij as [Ha Hb].
  apply in_map_iff in Ha, Hb.
  destruct Ha as [[a' ma] [Ea Ha]], Hb as [[b' mb] [Eb Hb]].
  simpl in Ea, Eb; subst a' b'.
  apply filter_In in Ha, Hb.
  split; [exact (pair_incident model a ma (proj1 Ha))
         | exact (pair_incident model b mb (proj1 Hb))].
Qed.

Lemma row_incident fva_results (model : Model) (rows : list Row) (r : Row) :
  rxn_met_rows fva_results model = Ok rows -> In r rows ->
  incident model (rxn r).
Proof.
  intros Hrows Hr.
  apply (pair_incident model (rxn r) (met r)).
  rewrite <- (FrameFacts.rxn_met_rows_pairs fva_results model rows Hrows).
  apply (in_map (fun r => (rxn r, met r))); exact Hr.
Qed.

Lemma candidate_endpoints rw (rows : list Row)
      (cands : list (Candidate string)) (c : Candidate string) :
  MetabolicNetwork.edge_weight_rows rw rows = Ok cands -> In c cands ->
  (exists r, In r rows /\ rxn r = source c)
  /\ (exists r, In r rows /\ rxn r = sink c).
Proof.
  unfold MetabolicNetwork.edge_weight_rows.
  destruct (mapM _ (groupby _ _ _ rows)) as [groups|] eqn:E; simpl;
    [|discriminate].
  intros H Hc; injection H as <-.
  apply in_concat in Hc; destruct Hc as [cs [Hcs Hc]].
  destruct (mapM_Ok_In _ _ _ E cs Hcs) as [[k df] [Hg Hgc]].
  apply GroupFacts.In_groupby in Hg; destruct Hg as [_ ->].
  simpl in Hgc; unfold MetabolicNetwork.group_candidates in Hgc.
  destruct (mapM_Ok_In _ _ _ Hgc c Hc) as [[s t] [Hst Hw]].
  simpl in Hw.
  destruct (MetabolicNetwork.source_weight _ _ s); simpl in Hw;
    [|discriminate].
  injection Hw as <-; simpl.
  apply FrameFacts.In_product in Hst; destruct Hst as [Hs Ht].
  apply in_map_iff in Hs, Ht.
  destruct Hs as [es [<- Hs]], Ht as [et [<- Ht]].
  apply FrameFacts.MN.In_source_df in Hs.
  apply FrameFacts.MN.In_sinks_df in Ht.
  destruct Hs as [r1 [Hr1 Hs1]], Ht as [r2 [Hr2 Hs2]].
  apply filter_In in Hr1, Hr2.
  split.
  - exists r1; split; [exact (proj1 Hr1)|].
    symmetry; exact (FrameFacts.MN.source_of_rxn _ _ Hs1).
  - exists r2; split; [exact (proj1 Hr2)|].
    symmetry; exact (FrameFacts.MN.sink_of_rxn _ _ Hs2).
Qed.

Lemma find_directed_edges_endpoints fva (model : Model) rw loopless fva_prop
      (edges : list Nx.Edge) a b dd :
  MetabolicNetwork.find_directed_edges_from_model
    fva model rw loopless fva_prop = Ok edges ->
  In (a, b, dd) edges -> incident model a /\ incident model b.
Proof.
  unfold MetabolicNetwork.find_directed_edges_from_model.
  destruct (fva model loopless fva_prop) as [t|]; simpl; [|discriminate].
  destruct (rxn_met_rows t model) as [rows|] eqn:Hrows; simpl; [|discriminate].
  destruct (MetabolicNetwork.edge_weight_rows rw rows) as [cands|] eqn:Hc;
    simpl; [|discriminate].
  unfold MetabolicNetwork.resolve_edges; intros H He.
  destruct (mapM_Ok_In _ _ _ H _ He) as [[k df] [Hg Hr]].
  apply resolve_group_key in Hr; simpl in Hr.
  apply GroupFacts.In_groupby in Hg; destruct Hg as [Hk _].
  apply (GroupFacts.In_group_keys _ _ _
           (GroupFacts.pair_eqb_spec String.eqb String.eqb_eq)) in Hk.
  destruct Hk as [c [Hin Hkey]].
  destruct (candidate_endpoints rw rows cands c Hc Hin)
    as [[r1 [Hr1 E1]] [r2 [Hr2 E2]]].
  unfold pair_key in Hkey; rewrite <- Hkey in Hr.
  injection Hr as -> ->.
  rewrite <- E1, <- E2; split; eapply row_incident; eassumption.
Qed.

Lemma edge_data_add_edges_from_inv es g u v d :
  Nx.edge_data (Nx.add_edges_from es g) u v = Some d ->
  (exists d0, Nx.edge_data g u v = Some d0)
  \/ exists a b dd, In (a, b, dd) es
                    /\ NxSpec.hits (Nx.directed g) a b u v = true.
Proof.
  unfold Nx.add_edges_from; revert g.
  induction es as [|[[a b] dd] t IH]; intros g; simpl.
  - intros H; left; exists d; exact H.
  - intros H; apply IH in H; destruct H as [[d0 H]|[a' [b' [dd' [Hin Hh]]]]].
    + rewrite NxFacts.edge_data_add_edge in H.
      destruct (NxSpec.hits (Nx.directed g) a b u v) eqn:E.
      * right; exists a, b, dd; split; [left; reflexivity | exact E].
      * left; exists d0; exact H.
    + rewrite NxFacts.directed_add_edge in Hh.
      right; exists a', b', dd'; split; [right; exact Hin | exact Hh].
Qed.

Lemma nodes_of_built_graph (model : Model) (directed : bool)
      (es : list Nx.Edge) :
  (forall a b dd, In (a, b, dd) es -> incident model a /\ incident model b) ->
  nodes_are_reactions model directed
    (Nx.add_edges_from es
       (MetabolicNetwork.add_reaction_nodes model (Nx.empty_graph directed))).
Proof.
  intros Hes.
  set (g0 := MetabolicNetwork.add_reaction_nodes model
               (Nx.empty_graph directed)).
  assert (Hn0 : forall n, In n (Nx.nodes g0) <-> In n (map id model)).
  { intros n; unfold g0; rewrite nodes_add_reaction_nodes; simpl; intuition. }
  assert (Hwf0 : NxSpec.wf_graph g0)
    by apply wf_add_reaction_nodes, NxFacts.wf_empty.
  assert (Hnodes : Nx.nodes (Nx.add_edges_from es g0) = Nx.nodes g0).
  { apply NxFacts.nodes_add_edges_from_present.
    intros a b dd Hin; destruct (Hes a b dd Hin) as [Ha Hb].
    split; apply Hn0, incident_is_reaction; assumption. }
  split; [intros n; rewrite Hnodes; apply Hn0|].
  split; [rewrite Hnodes; exact (NxSpec.wf_nodes _ Hwf0)|].
  split; [exact Hnodes|].
  split.
  - intros Hnd; rewrite Hnodes; unfold g0.
    rewrite add_reaction_nodes_by_id.
    apply (NxFacts.nodes_add_nodes_fresh (map id model)
             (Nx.empty_graph directed) Hnd).
  - intros Hnd r Hr Hm v.
    assert (Hiso : ~ incident model (id r)).
    { intros [r' [Hr' [E Hm']]].
      apply Hm'.
      rewrite (FrameFacts.NoDup_map_inj id model r' r Hnd Hr' Hr E).
      exact Hm. }
    assert (Hnone : forall x y, x = id r \/ y = id r ->
                Nx.edge_data (Nx.add_edges_from es g0) x y = None).
    { intros x y Hxy.
      destruct (Nx.edge_data (Nx.add_edges_from es g0) x y) as [d|] eqn:E;
        [|reflexivity].
      exfalso.
      apply edge_data_add_edges_from_inv in E.
      destruct E as [[d0 E]|[a [b [dd [Hin Hh]]]]].
      - unfold g0 in E; rewrite edge_data_add_reaction_nodes in E.
        discriminate.
      - destruct (Hes a b dd Hin) as [Ha Hb].
        apply NxFacts.hits_true in Hh.
        destruct Hh as [[-> ->]|[_ [-> ->]]], Hxy as [->| ->];
          auto. }
    split; apply Hnone; [left|right]; reflexivity.
Qed.

(** C9: the nodes of a produced graph, undirected or directed, are exactly
    the reaction ids of the model (in model order when the ids are
    distinct, as cobra keeps them); adding the edges adds no node; and a
    reaction with no metabolite is a node with no edge. *)
Theorem C9_nodes_are_the_reactions
        (fva : Model -> bool -> Q -> result FvaFrame)
        (load_json read_sbml load_yaml load_matlab
         : ModelArg -> result Model)
        (model : Model) (file_type : option string)
        (rw loopless : bool) (fva_prop : Q) :
  (exists g,
      MetabolicNetwork.create_metabolic_network
        load_json read_sbml load_yaml load_matlab (ArgModel model) file_type
      = Ok g
      /\ nodes_are_reactions model false g)
  /\ (forall g,
         MetabolicNetwork.create_directed_metabolic_network
           fva load_json read_sbml load_yaml load_matlab
           (ArgModel model) file_type rw loopless fva_prop = Ok g ->
         nodes_are_reactions model true g).
Proof.
  split.
  - eexists; split; [reflexivity|].
    apply nodes_of_built_graph.
    intros a b dd; apply find_edges_endpoints.
  - intros g; unfold MetabolicNetwork.create_directed_metabolic_network.
    simpl.
    destruct (MetabolicNetwork.find_directed_edges_from_model
                fva model rw loopless fva_prop) as [es|] eqn:E; simpl;
      [|discriminate].
    intros H; injection H as <-.
    apply nodes_of_built_graph.
    intros a b dd.
    exact (find_directed_edges_endpoints fva model rw loopless fva_prop
             es a b dd E).
Qed.

Lemma C9_nodes_witness :
  let A := mkReaction "A" [("M", 2%Q)] false in
  let B := mkReaction "B" [("M", (-1)%Q)] false in
  let Z := mkReaction "Z" [] false in
  let fva := fixed_fva [("A", mkFluxRange 0 10); ("B", mkFluxRange 0 7)] in
  exists g,
    MetabolicNetwork.create_directed_metabolic_network
      fva no_file no_file no_file no_file
      (ArgModel [A; Z; B]) None true false (95 # 100) = Ok g
    /\ nodes_are_reactions [A; Z; B] true g
    /\ Nx.nodes g = ["A"; "Z"; "B"].
Proof.
  cbv zeta; eexists; split; [vm_compute; reflexivity|]; split.
  - apply (proj2 (C9_nodes_are_the_reactions
                    (fixed_fva [("A", mkFluxRange 0 10);
                                ("B", mkFluxRange 0 7)])
                    no_file no_file no_file no_file
                    [mkReaction "A" [("M", 2%Q)] false;
                     mkReaction "Z" [] false;
                     mkReaction "B" [("M", (-1)%Q)] false]
                    None true false (95 # 100))).
    vm_compute; reflexivity.
  - vm_compute; reflexivity.
Defined.

(** ** C7: writing a graph and reading it back *)

Lemma joined_edge_data g u v d :
  NxSpec.wf_graph g -> (joined g u v d <-> Nx.edge_data g u v = Some d).
Proof.
  intros Hwf; unfold joined; split.
  - intros [H|[Hd H]].
    + exact (NxFacts.edges_sound g u v d Hwf H).
    + rewrite (NxSpec.wf_sym _ Hwf Hd).
      exact (NxFacts.edges_sound g v u d Hwf H).
  - intros H; destruct (Nx.directed g) eqn:Hd.
    + left; exact (NxFacts.edges_directed_complete g u v d Hd H).
    + destruct (NxFacts.edges_undirected_complete g u v d Hwf Hd H) as [H1|H1];
        [left; exact H1 | right; split; [reflexivity | exact H1]].
Qed.

Lemma created_graph_wf fva load_json read_sbml load_yaml load_matlab
      (model : ModelArg) file_type rw loopless fva_prop (g : Nx.Graph) :
  MetabolicNetwork.create_metabolic_network
    load_json read_sbml load_yaml load_matlab model file_type = Ok g
  \/ MetabolicNetwork.create_directed_metabolic_network
       fva load_json read_sbml load_yaml load_matlab
       model file_type rw loopless fva_prop = Ok g ->
  NxSpec.wf_graph g.
Proof.
  unfold MetabolicNetwork.create_metabolic_network,
    MetabolicNetwork.create_directed_metabolic_network.
  destruct (resolve_model _ _ _ _ model file_type) as [m|]; simpl.
  - intros [H|H].
    + injection H as <-.
      apply NxFacts.wf_add_edges_from, wf_add_reaction_nodes, NxFacts.wf_empty.
    + destruct (MetabolicNetwork.find_directed_edges_from_model _ _ _ _ _)
        as [es|]; simpl in H; [|discriminate].
      injection H as <-.
      apply NxFacts.wf_add_edges_from, wf_add_reaction_nodes, NxFacts.wf_empty.
  - intros [H|H]; discriminate.
Qed.

Lemma round_trip_same_graph (g : Nx.Graph) (dflt : bool) :
  NxSpec.wf_graph g ->
  exists g', Nx.node_link_graph (Nx.node_link_data g) dflt = Some g'
             /\ same_graph g g'.
Proof.
  intros Hwf.
  destruct (NxFacts.node_link_roundtrip g dflt Hwf)
    as [g' [H [Hwf' [Hd [Hn He]]]]].
  exists g'; split; [exact H|].
  repeat split; try assumption.
  - rewrite (joined_edge_data g' u v d Hwf'), He.
    apply (joined_edge_data g u v d Hwf).
  - rewrite (joined_edge_data g' u v d Hwf'), He.
    apply (joined_edge_data g u v d Hwf).
Qed.

(** C7: a graph [g] built by [create_metabolic_network] or by
    [create_directed_metabolic_network], written with [write_network] and
    read back with [read_network] (from the path or from an open file,
    whatever the [directed] argument of the reader), is a graph with the
    directed flag, the nodes and the edges, with their weight and
    metabolite, of [g]. *)
Theorem C7_write_then_read
        (fva : Model -> bool -> Q -> result FvaFrame)
        (load_json read_sbml load_yaml load_matlab
         : ModelArg -> result Model)
        (model : ModelArg) (file_type : option string)
        (rw loopless : bool) (fva_prop : Q)
        (g : Nx.Graph) (out_path : string) (directed : bool)
        (fs : MetabolicNetwork.FileSystem) :
  MetabolicNetwork.create_metabolic_network
    load_json read_sbml load_yaml load_matlab model file_type = Ok g
  \/ MetabolicNetwork.create_directed_metabolic_network
       fva load_json read_sbml load_yaml load_matlab
       model file_type rw loopless fva_prop = Ok g ->
  exists g',
    MetabolicNetwork.read_network
      (MetabolicNetwork.InPath out_path) directed
      (MetabolicNetwork.write_network g out_path fs) = Ok (Some g')
    /\ MetabolicNetwork.read_network
         (MetabolicNetwork.InHandle (Nx.node_link_data g)) directed fs
       = Ok (Some g')
    /\ same_graph g g'.
Proof.
  intros Hg.
  pose proof (created_graph_wf fva load_json read_sbml load_yaml load_matlab
                model file_type rw loopless fva_prop g Hg) as Hwf.
  destruct (round_trip_same_graph g directed Hwf) as [g' [H Hsame]].
  exists g'; split; [|split; [|exact Hsame]].
  - unfold MetabolicNetwork.read_network, MetabolicNetwork.write_network.
    rewrite dict_get_set_same; simpl; rewrite H; reflexivity.
  - simpl; rewrite H; reflexivity.
Qed.

Lemma C7_write_then_read_witness :
  let A := mkReaction "A" [("M", 2%Q); ("N", 1%Q)] false in
  let B := mkReaction "B" [("M", (-1)%Q); ("N", (-1)%Q)] true in
  let fva := fixed_fva [("A", mkFluxRange 0 10); ("B", mkFluxRange (-4) 7)] in
  (exists g g',
      MetabolicNetwork.create_metabolic_network
        no_file no_file no_file no_file (ArgModel [B; A]) None = Ok g
      /\ MetabolicNetwork.read_network
           (MetabolicNetwork.InPath "g.json") true
           (MetabolicNetwork.write_network g "g.json" []) = Ok (Some g')
      /\ same_graph g g')
  /\ (exists g g',
         MetabolicNetwork.create_directed_metabolic_network
           fva no_file no_file no_file no_file
           (ArgModel [B; A]) None true false (95 # 100) = Ok g
         /\ MetabolicNetwork.read_network
              (MetabolicNetwork.InPath "g.json") false
              (MetabolicNetwork.write_network g "g.json" []) = Ok (Some g')
         /\ same_graph g g').
Proof.
  cbv zeta; split.
  - assert (H : exists g,
               MetabolicNetwork.create_metabolic_network
                 no_file no_file no_file no_file
                 (ArgModel [mkReaction "B" [("M", (-1)%Q); ("N", (-1)%Q)] true;
                            mkReaction "A" [("M", 2%Q); ("N", 1%Q)] false])
                 None = Ok g)
      by (eexists; reflexivity).
    destruct H as [g Hg].
    destruct (C7_write_then_read
                (fixed_fva []) no_file no_file no_file no_file
                (ArgModel [mkReaction "B" [("M", (-1)%Q); ("N", (-1)%Q)] true;
                           mkReaction "A" [("M", 2%Q); ("N", 1%Q)] false])
                None true false (95 # 100) g "g.json" true []
                (or_introl Hg))
      as [g' [H1 [_ H2]]].
    exists g, g'; split; [exact Hg|]; split; [exact H1 | exact H2].
  - assert (H : exists g,
               MetabolicNetwork.create_directed_metabolic_network
                 (fixed_fva [("A", mkFluxRange 0 10);
                             ("B", mkFluxRange (-4) 7)])
                 no_file no_file no_file no_file
                 (ArgModel [mkReaction "B" [("M", (-1)%Q); ("N", (-1)%Q)] true;
                            mkReaction "A" [("M", 2%Q); ("N", 1%Q)] false])
                 None true false (95 # 100) = Ok g)
      by (eexists; vm_compute; reflexivity).
    destruct H as [g Hg].
    destruct (C7_write_then_read
                (fixed_fva [("A", mkFluxRange 0 10);
                            ("B", mkFluxRange (-4) 7)])
                no_file no_file no_file no_file
                (ArgModel [mkReaction "B" [("M", (-1)%Q); ("N", (-1)%Q)] true;
                           mkReaction "A" [("M", 2%Q); ("N", 1%Q)] false])
                None true false (95 # 100) g "g.json" false []
                (or_intror Hg))
      as [g' [H1 [_ H2]]].
    exists g, g'; split; [exact Hg|]; split; [exact H1 | exact H2].
Defined.

(** ** C8: the undirected graph *)

Lemma sharedb_spec r1 r2 m : sharedb r1 r2 m = true <-> shared r1 r2 m.
Proof.
  unfold sharedb, shared.
  rewrite andb_true_iff, !(GroupFacts.existsb_eqb String.eqb String.eqb_eq).
  reflexivity.
Qed.

Lemma last_such {A} (f : A -> bool) (l : list A) (x : A) :
  In x l -> f x = true ->
  exists l1 y l2,
    l = (l1 ++ y :: l2)%list /\ f y = true
    /\ forall z, In z l2 -> f z = false.
Proof.
  revert x; induction l as [|a t IH]; intros x Hin Hx; [contradiction|].
  destruct (existsb f t) eqn:E.
  - apply existsb_exists in E; destruct E as [x' [Hx' Hfx']].
    destruct (IH x' Hx' Hfx') as [l1 [y [l2 [El [Hy Hl2]]]]].
    exists (a :: l1), y, l2; rewrite El; repeat split; assumption.
  - exists [], a, t; simpl.
    assert (Hnone : forall z, In z t -> f z = false).
    { intros z Hz; destruct (f z) eqn:Ez; [|reflexivity].
      assert (Hex : existsb f t = true)
        by (apply existsb_exists; exists z; split; assumption).
      congruence. }
    split; [reflexivity|]; split; [|exact Hnone].
    destruct Hin as [->|Hin]; [exact Hx|].
    rewrite (Hnone x Hin) in Hx; discriminate.
Qed.

Lemma combinations2_complete {A} (l : list A) (x y : A) :
  x <> y -> In x l -> In y l ->
  In (x, y) (combinations2 l) \/ In (y, x) (combinations2 l).
Proof.
  intros Hne; induction l as [|a t IH]; simpl; [intros []|].
  rewrite !in_app_iff.
  intros [->|Hx] [->|Hy].
  - contradiction.
  - left; left; apply in_map; exact Hy.
  - right; left; apply in_map; exact Hx.
  - destruct (IH Hx Hy) as [H|H]; [left|right]; right; exact H.
Qed.

Lemma sorted_prefix_le {A} (R : A -> A -> Prop) (l1 l2 : list A) (x : A) :
  StronglySorted R (l1 ++ x :: l2) -> forall y, In y l1 -> R y x.
Proof.
  induction l1 as [|a t IH]; simpl; intros H y Hy; [contradiction|].
  inversion H as [|? ? Ht Ha]; subst.
  destruct Hy as [->|Hy]; [|exact (IH Ht y Hy)].
  rewrite Forall_forall in Ha; apply Ha, in_elt.
Qed.

Lemma find_edges_by_group (model : Model) :
  MetabolicNetwork.find_edges_from_model model
  = flat_map (group_edges model)
             (group_keys String.eqb String.leb snd (rxn_met_pairs model)).
Proof.
  unfold MetabolicNetwork.find_edges_from_model, groupby, group_edges.
  induction (group_keys String.eqb String.leb snd (rxn_met_pairs model))
    as [|k ks IH]; simpl; [reflexivity|].
  rewrite IH; reflexivity.
Qed.

Lemma In_group_ids (model : Model) (k i : string) :
  In i (map fst (group_rows String.eqb snd k (rxn_met_pairs model))) <->
  exists r, In r model /\ id r = i /\ In k (keys (metabolites r)).
Proof.
  rewrite in_map_iff; split.
  - intros [[i' m] [E H]]; simpl in E; subst i'.
    apply (GroupFacts.In_group_rows String.eqb snd String.eqb_eq) in H.
    destruct H as [H E]; simpl in E; subst m.
    apply FrameFacts.In_rxn_met_pairs; exact H.
  - intros H; apply FrameFacts.In_rxn_met_pairs in H.
    exists (i, k); split; [reflexivity|].
    apply (GroupFacts.In_group_rows String.eqb snd String.eqb_eq).
    split; [exact H | reflexivity].
Qed.

Lemma joinsb_true u v e :
  joinsb u v e = true <->
  (fst (fst e) = u /\ snd (fst e) = v) \/ (fst (fst e) = v /\ snd (fst e) = u).
Proof.
  unfold joinsb, NxSpec.hits; simpl.
  rewrite orb_true_iff, !andb_true_iff, !String.eqb_eq.
  intuition congruence.
Qed.

Lemma group_edge_joins_shared (model : Model) (r1 r2 : Reaction) k e :
  wf_model model -> In r1 model -> In r2 model ->
  In e (group_edges model k) -> joinsb (id r1) (id r2) e = true ->
  shared r1 r2 k.
Proof.
  intros [Hids _] Hr1 Hr2 He Hj.
  unfold group_edges in He.
  apply in_map_iff in He; destruct He as [[i j] [<- Hij]].
  apply In_combinations2 in Hij; destruct Hij as [Hi Hj'].
  apply In_group_ids in Hi, Hj'.
  destruct Hi as [ri [Hri [Ei Hki]]], Hj' as [rj [Hrj [Ej Hkj]]].
  apply joinsb_true in Hj; simpl in Hj.
  destruct Hj as [[E1 E2]|[E1 E2]]; subst i j.
  - rewrite (FrameFacts.NoDup_map_inj id model ri r1 Hids Hri Hr1 E1) in Hki.
    rewrite (FrameFacts.NoDup_map_inj id model rj r2 Hids Hrj Hr2 E2) in Hkj.
    split; assumption.
  - rewrite (FrameFacts.NoDup_map_inj id model ri r2 Hids Hri Hr2 E1) in Hki.
    rewrite (FrameFacts.NoDup_map_inj id model rj r1 Hids Hrj Hr1 E2) in Hkj.
    split; assumption.
Qed.

Lemma shared_group_edge (model : Model) (r1 r2 : Reaction) k :
  In r1 model -> In r2 model -> id r1 <> id r2 -> shared r1 r2 k ->
  exists e, In e (group_edges model k) /\ joinsb (id r1) (id r2) e = true.
Proof.
  intros Hr1 Hr2 Hne [H1 H2].
  assert (Hi1 : In (id r1) (map fst (group_rows String.eqb snd k
                                       (rxn_met_pairs model))))
    by (apply In_group_ids; exists r1; repeat split; assumption).
  assert (Hi2 : In (id r2) (map fst (group_rows String.eqb snd k
                                       (rxn_met_pairs model))))
    by (apply In_group_ids; exists r2; repeat split; assumption).
  destruct (combinations2_complete _ _ _ Hne Hi1 Hi2) as [H|H].
  - exists (id r1, id r2, Nx.mkAttrs None (Some k)); split.
    + unfold group_edges.
      apply (in_map (fun ij => (fst ij, snd ij, Nx.mkAttrs None (Some k))))
        in H; exact H.
    + apply joinsb_true; left; split; reflexivity.
  - exists (id r2, id r1, Nx.mkAttrs None (Some k)); split.
    + unfold group_edges.
      apply (in_map (fun ij => (fst ij, snd ij, Nx.mkAttrs None (Some k))))
        in H; exact H.
    + apply joinsb_true; right; split; reflexivity.
Qed.

(** *** The data of an edge that is added several times *)

Lemma update_unweighted old k :
  Nx.weight old = None ->
  Nx.update old (Nx.mkAttrs None (Some k)) = Nx.mkAttrs None (Some k).
Proof. destruct old as [w m]; simpl; intros ->; reflexivity. Qed.

Lemma datadict_unweighted a b k g :
  unweighted g ->
  NxSpec.datadict a b (Nx.mkAttrs None (Some k)) g
  = Nx.mkAttrs None (Some k).
Proof.
  intros Hg; unfold NxSpec.datadict.
  destruct (Nx.edge_data g a b) as [d|] eqn:E.
  - apply update_unweighted, (Hg a b d E).
  - reflexivity.
Qed.

Lemma unweighted_add_edges es g :
  (forall e, In e es -> metabolite_only e) -> unweighted g ->
  unweighted (Nx.add_edges_from es g).
Proof.
  unfold Nx.add_edges_from; revert g.
  induction es as [|[[a b] dd] t IH]; intros g Hes Hg; simpl; [exact Hg|].
  apply IH; [intros e He; apply Hes; right; exact He|].
  destruct (Hes (a, b, dd) (or_introl eq_refl)) as [k Hk]; simpl in Hk.
  subst dd; intros u v d.
  rewrite NxFacts.edge_data_add_edge, (datadict_unweighted a b k g Hg).
  destruct (NxSpec.hits (Nx.directed g) a b u v).
  - intros H; injection H as <-; reflexivity.
  - apply Hg.
Qed.

Lemma edge_data_unhit es g u v :
  Nx.directed g = false ->
  (forall e, In e es -> joinsb u v e = false) ->
  Nx.edge_data (Nx.add_edges_from es g) u v = Nx.edge_data g u v.
Proof.
  unfold Nx.add_edges_from; revert g.
  induction es as [|[[a b] dd] t IH]; intros g Hd Hes; simpl; [reflexivity|].
  rewrite IH.
  - rewrite NxFacts.edge_data_add_edge, Hd.
    pose proof (Hes (a, b, dd) (or_introl eq_refl)) as H.
    unfold joinsb in H; simpl in H; rewrite H; reflexivity.
  - rewrite NxFacts.directed_add_edge; exact Hd.
  - intros e He; apply Hes; right; exact He.
Qed.

Lemma add_edges_from_app l1 e l2 g :
  Nx.add_edges_from (l1 ++ e :: l2) g
  = Nx.add_edges_from l2
      (Nx.add_edge (fst (fst e)) (snd (fst e)) (snd e)
                   (Nx.add_edges_from l1 g)).
Proof. unfold Nx.add_edges_from; rewrite fold_left_app; reflexivity. Qed.

(** The last edge of the list that joins [u] and [v] decides the data. *)
Lemma last_edge_wins l1 e l2 g u v :
  Nx.directed g = false -> unweighted g ->
  (forall e', In e' l1 -> metabolite_only e') -> metabolite_only e ->
  joinsb u v e = true ->
  (forall e', In e' l2 -> joinsb u v e' = false) ->
  Nx.edge_data (Nx.add_edges_from (l1 ++ e :: l2) g) u v = Some (snd e).
Proof.
  intros Hd Hg Hl1 [k Hk] Hj Hl2.
  rewrite add_edges_from_app.
  assert (Hd1 : Nx.directed (Nx.add_edges_from l1 g) = false)
    by (rewrite NxFacts.directed_add_edges_from; exact Hd).
  assert (Hg1 : unweighted (Nx.add_edges_from l1 g))
    by (apply unweighted_add_edges; assumption).
  revert Hd1 Hg1; generalize (Nx.add_edges_from l1 g) as g1; intros g1 Hd1 Hg1.
  rewrite edge_data_unhit.
  - rewrite NxFacts.edge_data_add_edge, Hd1.
    unfold joinsb in Hj; rewrite Hj, Hk.
    rewrite (datadict_unweighted _ _ k g1 Hg1); reflexivity.
  - rewrite NxFacts.directed_add_edge; exact Hd1.
  - exact Hl2.
Qed.

Lemma undirected_edge_listed_once g u v d :
  NxSpec.wf_graph g -> Nx.directed g = false -> u <> v ->
  Nx.edge_data g u v = Some d ->
  exists e, filter (joinsb u v) (Nx.edges g) = [e] /\ snd e = d.
Proof.
  intros Hwf Hd Hne Huv.
  assert (Hsame : forall a b d', In (a, b, d') (Nx.edges g) ->
                    (a = u /\ b = v) \/ (a = v /\ b = u) -> d' = d).
  { intros a b d' Hin Hab.
    apply (NxFacts.edges_sound g a b d' Hwf) in Hin.
    destruct Hab as [[-> ->]|[-> ->]].
    - congruence.
    - rewrite (NxSpec.wf_sym _ Hwf Hd) in Hin; congruence. }
  destruct (NxFacts.edges_undirected_complete g u v d Hwf Hd Huv) as [H|H].
  - exists (u, v, d); split; [|reflexivity].
    apply NxFacts.filter_singleton.
    + apply NxFacts.NoDup_edges; exact Hwf.
    + exact H.
    + apply joinsb_true; left; split; reflexivity.
    + intros [[a b] d'] Hin Hj.
      apply joinsb_true in Hj; simpl in Hj.
      pose proof (Hsame a b d' Hin Hj) as ->.
      destruct Hj as [[-> ->]|[-> ->]]; [reflexivity|].
      exfalso; exact (NxFacts.edges_undirected_one_way g u v d d Hd Hne H Hin).
  - exists (v, u, d); split; [|reflexivity].
    apply NxFacts.filter_singleton.
    + apply NxFacts.NoDup_edges; exact Hwf.
    + exact H.
    + apply joinsb_true; right; split; reflexivity.
    + intros [[a b] d'] Hin Hj.
      apply joinsb_true in Hj; simpl in Hj.
      pose proof (Hsame a b d' Hin Hj) as ->.
      destruct Hj as [[-> ->]|[-> ->]]; [|reflexivity].
      exfalso; exact (NxFacts.edges_undirected_one_way g u v d d Hd Hne Hin H).
Qed.

Lemma group_edges_metabolite_only model k e :
  In e (group_edges model k) -> snd e = Nx.mkAttrs None (Some k).
Proof.
  unfold group_edges; intros H.
  apply in_map_iff in H; destruct H as [ij [<- _]]; reflexivity.
Qed.

Lemma flat_group_edges_metabolite_only model ks e :
  In e (flat_map (group_edges model) ks) -> metabolite_only e.
Proof.
  intros H; apply in_flat_map in H; destruct H as [k [_ H]].
  exists k; exact (group_edges_metabolite_only model k e H).
Qed.

Lemma undirected_annotation (model : Model) (r1 r2 : Reaction) (m0 : string) :
  wf_model model -> In r1 model -> In r2 model -> id r1 <> id r2 ->
  shared r1 r2 m0 ->
  exists m,
    shared r1 r2 m
    /\ (forall m', shared r1 r2 m' -> String.leb m' m = true)
    /\ Nx.edge_data (undirected_graph model) (id r1) (id r2)
       = Some (Nx.mkAttrs None (Some m)).
Proof.
  intros Hwf Hr1 Hr2 Hne Hm0.
  set (ks := group_keys String.eqb String.leb snd (rxn_met_pairs model)).
  assert (Hkeys : forall m', shared r1 r2 m' -> In m' ks).
  { intros m' [H1 _].
    apply (GroupFacts.In_group_keys String.eqb String.leb snd String.eqb_eq).
    exists (id r1, m'); split; [|reflexivity].
    apply FrameFacts.In_rxn_met_pairs.
    exists r1; repeat split; assumption. }
  destruct (last_such (sharedb r1 r2) ks m0 (Hkeys m0 Hm0)
                      (proj2 (sharedb_spec r1 r2 m0) Hm0))
    as [ks1 [m [ks2 [Eks [Hm Hks2]]]]].
  apply sharedb_spec in Hm.
  exists m; split; [exact Hm|]; split.
  - intros m' Hm'.
    pose proof (Hkeys m' Hm') as Hin.
    rewrite Eks in Hin; apply in_app_or in Hin.
    destruct Hin as [Hin|[<-|Hin]].
    + assert (Hs : StronglySorted (fun a b => String.leb a b = true)
                                  (ks1 ++ m :: ks2)).
      { rewrite <- Eks.
        apply (GroupFacts.group_keys_sorted String.eqb String.leb snd
                 String.leb_total string_leb_trans). }
      exact (sorted_prefix_le _ ks1 ks2 m Hs m' Hin).
    + apply string_leb_refl.
    + apply sharedb_spec in Hm'; rewrite (Hks2 m' Hin) in Hm'; discriminate.
  - destruct (shared_group_edge model r1 r2 m Hr1 Hr2 Hne Hm) as [e0 [He0 Hj0]].
    destruct (last_such (joinsb (id r1) (id r2)) (group_edges model m)
                        e0 He0 Hj0) as [c1 [e [c2 [Ec [Hj Hc2]]]]].
    assert (He : In e (group_edges model m)) by (rewrite Ec; apply in_elt).
    pose proof (group_edges_metabolite_only model m e He) as Hdata.
    unfold undirected_graph.
    rewrite find_edges_by_group; fold ks; rewrite Eks.
    rewrite flat_map_app; simpl; rewrite Ec, <- !app_assoc; simpl.
    rewrite app_assoc, <- Hdata.
    apply last_edge_wins.
    + apply directed_add_reaction_nodes.
    + intros u v d; rewrite edge_data_add_reaction_nodes; discriminate.
    + intros e' He'; apply in_app_or in He'; destruct He' as [He'|He'].
      * exact (flat_group_edges_metabolite_only model ks1 e' He').
      * exists m; apply (group_edges_metabolite_only model m).
        rewrite Ec; apply in_or_app; left; exact He'.
    + exists m; exact Hdata.
    + exact Hj.
    + intros e' He'; apply in_app_or in He'; destruct He' as [He'|He'].
      * exact (Hc2 e' He').
      * destruct (joinsb (id r1) (id r2) e') eqn:Ej; [|reflexivity].
        apply in_flat_map in He'; destruct He' as [k [Hk He']].
        pose proof (group_edge_joins_shared model r1 r2 k e'
                      Hwf Hr1 Hr2 He' Ej) as Hs.
        apply sharedb_spec in Hs; rewrite (Hks2 k Hk) in Hs; discriminate.
Qed.

(** C8 as stated fails: [R1] and [R2] share ["a"] and ["b"], the first
    shared metabolite found is ["a"] (first in both reactions and in the
    edge list), and the edge of the graph carries ["b"]. *)
Lemma C8_edge_keeps_last_metabolite :
  let R1 := mkReaction "R1" [("a", 1%Q); ("b", 1%Q)] false in
  let R2 := mkReaction "R2" [("a", (-1)%Q); ("b", (-1)%Q)] false in
  MetabolicNetwork.find_edges_from_model [R1; R2]
  = [("R1", "R2", Nx.mkAttrs None (Some "a"));
     ("R1", "R2", Nx.mkAttrs None (Some "b"))]
  /\ exists g,
      MetabolicNetwork.create_metabolic_network
        no_file no_file no_file no_file (ArgModel [R1; R2]) None = Ok g
      /\ Nx.edges g = [("R1", "R2", Nx.mkAttrs None (Some "b"))]
      /\ Nx.edge_data g "R1" "R2" <> Some (Nx.mkAttrs None (Some "a")).
Proof.
  cbv zeta; split; [vm_compute; reflexivity|].
  eexists; split; [reflexivity|]; split; [vm_compute; reflexivity|].
  vm_compute; discriminate.
Qed.

(** C8, amended: the undirected construction takes no flux data; any two
    distinct reactions of a well formed model that share a metabolite are
    joined, in both directions, by exactly one edge of the graph, and that
    edge is annotated with the shared metabolite found last, which is the
    greatest shared metabolite id in the order of strings. *)
Theorem C8_undirected_edges
        (load_json read_sbml load_yaml load_matlab
         : ModelArg -> result Model)
        (model : Model) (file_type : option string)
        (r1 r2 : Reaction) (m0 : string) :
  wf_model model -> In r1 model -> In r2 model -> id r1 <> id r2 ->
  shared r1 r2 m0 ->
  exists g m,
    MetabolicNetwork.create_metabolic_network
      load_json read_sbml load_yaml load_matlab (ArgModel model) file_type
    = Ok g
    /\ shared r1 r2 m
    /\ (forall m', shared r1 r2 m' -> String.leb m' m = true)
    /\ Nx.edge_data g (id r1) (id r2) = Some (Nx.mkAttrs None (Some m))
    /\ Nx.edge_data g (id r2) (id r1) = Some (Nx.mkAttrs None (Some m))
    /\ exists e,
        filter (joinsb (id r1) (id r2)) (Nx.edges g) = [e]
        /\ snd e = Nx.mkAttrs None (Some m).
Proof.
  intros Hwf Hr1 Hr2 Hne Hm0.
  destruct (undirected_annotation model r1 r2 m0 Hwf Hr1 Hr2 Hne Hm0)
    as [m [Hm [Hmax Hdata]]].
  assert (Hg : NxSpec.wf_graph (undirected_graph model)).
  { apply NxFacts.wf_add_edges_from, wf_add_reaction_nodes, NxFacts.wf_empty. }
  assert (Hd : Nx.directed (undirected_graph model) = false).
  { unfold undirected_graph.
    rewrite NxFacts.directed_add_edges_from.
    apply directed_add_reaction_nodes. }
  exists (undirected_graph model), m.
  split; [reflexivity|].
  split; [exact Hm|]; split; [exact Hmax|]; split; [exact Hdata|]; split.
  - rewrite <- (NxSpec.wf_sym _ Hg Hd); exact Hdata.
  - exact (undirected_edge_listed_once _ _ _ _ Hg Hd Hne Hdata).
Qed.

Lemma C8_undirected_edges_witness :
  let R1 := mkReaction "R1" [("b", 1%Q); ("a", 1%Q); ("c", 1%Q)] false in
  let R2 := mkReaction "R2" [("a", (-1)%Q); ("b", (-1)%Q)] true in
  let R3 := mkReaction "R3" [("c", (-1)%Q)] false in
  exists g m,
    MetabolicNetwork.create_metabolic_network
      no_file no_file no_file no_file (ArgModel [R1; R2; R3]) None = Ok g
    /\ shared R1 R2 m
    /\ (forall m', shared R1 R2 m' -> String.leb m' m = true)
    /\ Nx.edge_data g "R1" "R2" = Some (Nx.mkAttrs None (Some m))
    /\ Nx.edge_data g "R2" "R1" = Some (Nx.mkAttrs None (Some m))
    /\ exists e,
        filter (joinsb "R1" "R2") (Nx.edges g) = [e]
        /\ snd e = Nx.mkAttrs None (Some m).
Proof.
  cbv zeta.
  apply (C8_undirected_edges no_file no_file no_file no_file
           [mkReaction "R1" [("b", 1%Q); ("a", 1%Q); ("c", 1%Q)] false;
            mkReaction "R2" [("a", (-1)%Q); ("b", (-1)%Q)] true;
            mkReaction "R3" [("c", (-1)%Q)] false]
           None
           (mkReaction "R1" [("b", 1%Q); ("a", 1%Q); ("c", 1%Q)] false)
           (mkReaction "R2" [("a", (-1)%Q); ("b", (-1)%Q)] true)
           "a").
  - wf_model_concrete.
  - left; reflexivity.
  - right; left; reflexivity.
  - simpl; discriminate.
  - split; simpl; auto.
Defined.

(* ================================================================== *)
(** * Further properties of the code                                   *)
(* ================================================================== *)

(** ** What the directed derivation needs *)


Lemma mapM_Ok_In_l {A B} (f : A -> result B) (l : list A) (ys : list B) :
  mapM f l = Ok ys -> forall x, In x l -> exists y, In y ys /\ f x = Ok y.
Proof.
  intros H; apply mapM_Ok_inv in H.
  induction H as [|x y l' ys' Hxy _ IH]; intros x0 Hx0; [contradiction|].
  destruct Hx0 as [<-|Hx0].
  - exists y; split; [left; reflexivity | exact Hxy].
  - destruct (IH x0 Hx0) as [y0 [Hy0 E]].
    exists y0; split; [right; exact Hy0 | exact E].
Qed.


Lemma In_rxn_met_rows table (model : Model) (rows : list Row) :
  rxn_met_rows table model = Ok rows ->
  forall row,
    In row rows <->
    exists r m, In r model /\ In m (keys (metabolites r))
                /\ row_of table r m row.
Proof.
  unfold rxn_met_rows.
  destruct (mapM _ model) as [rowss|] eqn:E; simpl; [|discriminate].
  intros H row; injection H as <-.
  rewrite in_concat; split.
  - intros [rs [Hrs Hrow]].
    destruct (mapM_Ok_In _ _ _ E rs Hrs) as [r [Hr Hin]].
    destruct (mapM_Ok_In _ _ _ Hin row Hrow) as [m [Hm Hb]].
    exists r, (fst m); split; [exact Hr|].
    split; [apply in_map; exact Hm|].
    revert Hb; unfold get_coefficient, loc, row_of.
    destruct (dict_get (fst m) (metabolites r)) as [c|]; simpl;
      [|discriminate].
    destruct (dict_get (id r) table) as [range|]; simpl; [|discriminate].
    intros Hb; injection Hb as <-.
    exists c, range; repeat split.
  - intros [r [m [Hr [Hm [c [range [Hc [Ht ->]]]]]]]].
    destruct (mapM_Ok_In_l _ _ _ E r Hr) as [rs [Hrs Hin]].
    exists rs; split; [exact Hrs|].
    apply in_map_iff in Hm; destruct Hm as [[m' c'] [Em Hm]].
    simpl in Em; subst m'.
    destruct (mapM_Ok_In_l _ _ _ Hin _ Hm) as [row [Hrow Hb]].
    simpl in Hb; unfold get_coefficient, loc in Hb.
    rewrite Hc, Ht in Hb; simpl in Hb.
    injection Hb as <-; exact Hrow.
Qed.



Lemma hd_error_filter_In {A} (f : A -> bool) (l : list A) (x : A) :
  hd_error (filter f l) = Some x -> In x l /\ f x = true.
Proof.
  intros H; apply filter_In.
  destruct (filter f l) as [|y t]; [discriminate|].
  injection H as ->; left; reflexivity.
Qed.

Lemma resolve_group_In {K} rw (s t : K) (df : list (Candidate K)) e :
  resolve_group rw s t df = Ok e ->
  exists c, In c df /\ e = to_edge s t c.
Proof.
  unfold resolve_group.
  destruct df as [|r1 [|r2 rest]].
  - simpl; discriminate.
  - intros H; injection H as <-.
    exists r1; split; [left; reflexivity | reflexivity].
  - destruct (hd_error _) as [row|] eqn:E; simpl; [|discriminate].
    intros H; injection H as <-.
    apply hd_error_filter_In in E.
    exists row; split; [exact (proj1 E) | reflexivity].
Qed.

Lemma resolved_edge_keys {K} rw (groups : list (K * K * list (Candidate K)))
      (edges : list (K * K * Nx.Attrs)) :
  mapM (fun g => resolve_group rw (fst (fst g)) (snd (fst g)) (snd g)) groups
  = Ok edges ->
  map fst edges = map fst groups.
Proof.
  intros H; apply mapM_Ok_inv in H.
  induction H as [|g e gs es Hge _ IH]; simpl; [reflexivity|].
  apply resolve_group_key in Hge.
  rewrite IH, Hge; destruct g as [[s t] df]; reflexivity.
Qed.

Lemma NoDup_map_filter {G K} (key : G -> K) (keep : G -> bool)
      (groups : list G) :
  NoDup (map key groups) -> NoDup (map key (filter keep groups)).
Proof.
  induction groups as [|x t IH]; simpl; intros H; [constructor|].
  inversion H as [|? ? Hn Ht]; subst.
  destruct (keep x); simpl; [|exact (IH Ht)].
  constructor; [|exact (IH Ht)].
  intros Hin; apply Hn.
  apply in_map_iff in Hin; destruct Hin as [y [E Hy]].
  apply filter_In in Hy; rewrite <- E; apply in_map; exact (proj1 Hy).
Qed.







(** ** The direction of a directed edge *)


(** The candidates of [edge_weight_df], read back to the rows they come
    from. *)
Lemma candidate_origin rw (rows : list Row)
      (cands : list (Candidate string)) (c : Candidate string) :
  MetabolicNetwork.edge_weight_rows rw rows = Ok cands -> In c cands ->
  exists r1 e1 r2 e2,
    In r1 rows /\ In r2 rows
    /\ met r1 = metabolite c /\ met r2 = metabolite c
    /\ rxn r1 = source c /\ rxn r2 = sink c
    /\ FrameSpec.MN.source_of r1 e1 /\ FrameSpec.MN.sink_of r2 e2.
Proof.
  unfold MetabolicNetwork.edge_weight_rows.
  destruct (mapM _ (groupby _ _ _ rows)) as [groups|] eqn:E; simpl;
    [|discriminate].
  intros H Hc; injection H as <-.
  apply in_concat in Hc; destruct Hc as [cs [Hcs Hc]].
  destruct (mapM_Ok_In _ _ _ E cs Hcs) as [[k df] [Hg Hgc]].
  apply GroupFacts.In_groupby in Hg; destruct Hg as [_ ->].
  simpl in Hgc; unfold MetabolicNetwork.group_candidates in Hgc.
  destruct (mapM_Ok_In _ _ _ Hgc c Hc) as [[s t] [Hst Hw]].
  simpl in Hw.
  destruct (MetabolicNetwork.source_weight _ _ s); simpl in Hw;
    [|discriminate].
  injection Hw as <-; simpl.
  apply FrameFacts.In_product in Hst; destruct Hst as [Hs Ht].
  apply in_map_iff in Hs, Ht.
  destruct Hs as [es [<- Hs]], Ht as [et [<- Ht]].
  apply FrameFacts.MN.In_source_df in Hs.
  apply FrameFacts.MN.In_sinks_df in Ht.
  destruct Hs as [r1 [Hr1 Hs1]], Ht as [r2 [Hr2 Hs2]].
  apply (GroupFacts.In_group_rows _ _ String.eqb_eq) in Hr1, Hr2.
  exists r1, es, r2, et.
  repeat split; try tauto.
  - symmetry; exact (FrameFacts.MN.source_of_rxn _ _ Hs1).
  - symmetry; exact (FrameFacts.MN.sink_of_rxn _ _ Hs2).
Qed.

Lemma source_row_produces table (r : Reaction) (m : string) (row : Row) e :
  row_of table r m row -> FrameSpec.MN.source_of row e -> produces table r m.
Proof.
  intros [c [range [Hc [Ht ->]]]] Hs.
  exists c, range; split; [exact Hc|]; split; [exact Ht|].
  inversion Hs as [Hrev Hpos|Hrev Hpos Hflux|Hrev Hneg Hflux]; simpl in *;
    rewrite Hrev; tauto.
Qed.

Lemma sink_row_consumes table (r : Reaction) (m : string) (row : Row) e :
  row_of table r m row -> FrameSpec.MN.sink_of row e -> consumes table r m.
Proof.
  intros [c [range [Hc [Ht ->]]]] Hs.
  exists c, range; split; [exact Hc|]; split; [exact Ht|].
  inversion Hs as [Hrev Hneg|Hrev Hpos Hflux|Hrev Hneg Hflux]; simpl in *;
    rewrite Hrev; tauto.
Qed.

Lemma produces_source_row table (r : Reaction) (m : string) :
  produces table r m ->
  exists row e, row_of table r m row /\ FrameSpec.MN.source_of row e.
Proof.
  intros [c [range [Hc [Ht Hcase]]]].
  assert (Hrow : row_of table r m
                   (mkRow (id r) m (reversibility r) c (maximum range)
                          (minimum range)))
    by (exists c, range; repeat split; assumption).
  exists (mkRow (id r) m (reversibility r) c (maximum range) (minimum range)).
  destruct (reversibility r) eqn:Hrev.
  - destruct Hcase as [[Hpos Hflux]|[Hneg Hflux]].
    + eexists; split; [exact Hrow|].
      apply FrameSpec.MN.forward_source; simpl; (reflexivity || assumption).
    + eexists; split; [exact Hrow|].
      apply FrameSpec.MN.reverse_source; simpl; (reflexivity || assumption).
  - eexists; split; [exact Hrow|].
    apply FrameSpec.MN.irreversible_source; [reflexivity | assumption].
Qed.

Lemma consumes_sink_row table (r : Reaction) (m : string) :
  consumes table r m ->
  exists row e, row_of table r m row /\ FrameSpec.MN.sink_of row e.
Proof.
  intros [c [range [Hc [Ht Hcase]]]].
  assert (Hrow : row_of table r m
                   (mkRow (id r) m (reversibility r) c (maximum range)
                          (minimum range)))
    by (exists c, range; repeat split; assumption).
  exists (mkRow (id r) m (reversibility r) c (maximum range) (minimum range)).
  destruct (reversibility r) eqn:Hrev.
  - destruct Hcase as [[Hpos Hflux]|[Hneg Hflux]].
    + eexists; split; [exact Hrow|].
      apply FrameSpec.MN.reverse_sink; simpl; (reflexivity || assumption).
    + eexists; split; [exact Hrow|].
      apply FrameSpec.MN.forward_sink; simpl; (reflexivity || assumption).
  - eexists; split; [exact Hrow|].
    apply FrameSpec.MN.irreversible_sink; [reflexivity | assumption].
Qed.

Lemma row_of_fields table r m row :
  row_of table r m row -> rxn row = id r /\ met row = m.
Proof. intros [c [range [_ [_ ->]]]]; split; reflexivity. Qed.

Lemma row_of_key table r m row :
  row_of table r m row -> In m (keys (metabolites r)).
Proof.
  intros [c [range [Hc _]]].
  apply dict_get_In in Hc; apply (in_map fst) in Hc; exact Hc.
Qed.

(** A source row and a sink row of one metabolite give a candidate. *)
Lemma candidate_of_rows rw (rows : list Row)
      (cands : list (Candidate string)) (r1 r2 : Row) e1 e2 :
  MetabolicNetwork.edge_weight_rows rw rows = Ok cands ->
  In r1 rows -> In r2 rows -> met r1 = met r2 ->
  FrameSpec.MN.source_of r1 e1 -> FrameSpec.MN.sink_of r2 e2 ->
  exists c, In c cands /\ source c = rxn r1 /\ sink c = rxn r2.
Proof.
  unfold MetabolicNetwork.edge_weight_rows.
  destruct (mapM _ (groupby _ _ _ rows)) as [groups|] eqn:E; simpl;
    [|discriminate].
  intros H Hr1 Hr2 Hmet Hs1 Hs2; injection H as <-.
  set (k := met r1).
  set (df := group_rows String.eqb met k rows).
  assert (Hg : In (k, df) (groupby String.eqb String.leb met rows)).
  { apply GroupFacts.In_groupby; split; [|reflexivity].
    apply (GroupFacts.In_group_keys _ _ _ String.eqb_eq).
    exists r1; split; [exact Hr1 | reflexivity]. }
  destruct (mapM_Ok_In_l _ _ _ E _ Hg) as [cs [Hcs Hgc]].
  simpl in Hgc; unfold MetabolicNetwork.group_candidates in Hgc.
  assert (Hst : In (rxn r1, rxn r2)
                   (product (map MetabolicNetwork.e_rxn
                                 (MetabolicNetwork.source_df df))
                            (map MetabolicNetwork.e_rxn
                                 (MetabolicNetwork.sinks_df df)))).
  { apply FrameFacts.In_product; split.
    - rewrite <- (FrameFacts.MN.source_of_rxn _ _ Hs1).
      apply in_map, FrameFacts.MN.In_source_df.
      exists r1; split; [|exact Hs1].
      apply (GroupFacts.In_group_rows _ _ String.eqb_eq).
      split; [exact Hr1 | reflexivity].
    - rewrite <- (FrameFacts.MN.sink_of_rxn _ _ Hs2).
      apply in_map, FrameFacts.MN.In_sinks_df.
      exists r2; split; [|exact Hs2].
      apply (GroupFacts.In_group_rows _ _ String.eqb_eq).
      split; [exact Hr2 | symmetry; exact Hmet]. }
  destruct (mapM_Ok_In_l _ _ _ Hgc _ Hst) as [c [Hc Hw]].
  simpl in Hw.
  destruct (MetabolicNetwork.source_weight _ _ (rxn r1)) as [w|];
    simpl in Hw; [|discriminate].
  injection Hw as Hw.
  exists c; split; [apply in_concat; exists cs; split; assumption|].
  rewrite <- Hw; split; reflexivity.
Qed.

(** X2: the directed edges of metabolic_network.py.  Every edge of the list
    carries a weight and a metabolite [m], leaves a reaction that can
    release [m] and enters a reaction that can take [m] up; and whenever
    some metabolite can be released by [ru] and taken up by [rv], the list
    has an edge from [ru] to [rv] (also when [ru] and [rv] are the same
    reaction).  A reaction releases [m] if it is irreversible with a
    positive coefficient, reversible with a positive coefficient and a
    positive maximum flux, or reversible with a negative coefficient and a
    negative minimum flux; taking up is the mirror image. *)
Theorem directed_edge_iff_released_and_taken_up
        (fva : Model -> bool -> Q -> result FvaFrame)
        (model : Model) (table : FvaFrame) (rw loopless : bool)
        (fva_prop : Q) (edges : list Nx.Edge) :
  fva model loopless fva_prop = Ok table ->
  MetabolicNetwork.find_directed_edges_from_model
    fva model rw loopless fva_prop = Ok edges ->
  (forall u v d,
      In (u, v, d) edges ->
      exists w m ru rv,
        d = Nx.mkAttrs (Some w) (Some m)
        /\ In ru model /\ id ru = u /\ In rv model /\ id rv = v
        /\ produces table ru m /\ consumes table rv m)
  /\ (forall m ru rv,
         In ru model -> In rv model ->
         produces table ru m -> consumes table rv m ->
         exists d, In (id ru, id rv, d) edges).
Proof.
  intros Hfva.
  unfold MetabolicNetwork.find_directed_edges_from_model.
  rewrite Hfva; simpl.
  destruct (rxn_met_rows table model) as [rows|] eqn:Hrows; simpl;
    [|discriminate].
  destruct (MetabolicNetwork.edge_weight_rows rw rows) as [cands|] eqn:Hc;
    simpl; [|discriminate].
  unfold MetabolicNetwork.resolve_edges; intros H.
  pose proof (GroupFacts.pair_eqb_spec String.eqb String.eqb_eq) as Hspec.
  split.
  - intros u v d He.
    destruct (mapM_Ok_In _ _ _ H _ He) as [[k df] [Hg Hr]].
    simpl in Hr.
    apply resolve_group_In in Hr; destruct Hr as [c [Hcdf Ee]].
    apply GroupFacts.In_groupby in Hg; destruct Hg as [_ ->].
    apply (GroupFacts.In_group_rows _ _ Hspec) in Hcdf.
    destruct Hcdf as [Hcin Hkey].
    unfold to_edge in Ee; injection Ee as Eu Ev Ed.
    unfold pair_key in Hkey; rewrite <- Hkey in Eu, Ev; simpl in Eu, Ev.
    destruct (candidate_origin rw rows cands c Hc Hcin)
      as [r1 [e1 [r2 [e2 [Hr1 [Hr2 [M1 [M2 [S1 [S2 [Hs1 Hs2]]]]]]]]]]].
    apply (In_rxn_met_rows table model rows Hrows) in Hr1, Hr2.
    destruct Hr1 as [ru [m1 [Hru [_ Hrow1]]]].
    destruct Hr2 as [rv [m2 [Hrv [_ Hrow2]]]].
    destruct (row_of_fields _ _ _ _ Hrow1) as [F1 G1].
    destruct (row_of_fields _ _ _ _ Hrow2) as [F2 G2].
    exists (weight c), (metabolite c), ru, rv.
    split; [exact Ed|].
    split; [exact Hru|]; split; [congruence|].
    split; [exact Hrv|]; split; [congruence|].
    split.
    + rewrite <- M1, G1; exact (source_row_produces _ _ _ _ _ Hrow1 Hs1).
    + rewrite <- M2, G2; exact (sink_row_consumes _ _ _ _ _ Hrow2 Hs2).
  - intros m ru rv Hru Hrv Hp Hcn.
    destruct (produces_source_row _ _ _ Hp) as [r1 [e1 [Hrow1 Hs1]]].
    destruct (consumes_sink_row _ _ _ Hcn) as [r2 [e2 [Hrow2 Hs2]]].
    destruct (row_of_fields _ _ _ _ Hrow1) as [F1 G1].
    destruct (row_of_fields _ _ _ _ Hrow2) as [F2 G2].
    assert (Hr1 : In r1 rows).
    { apply (In_rxn_met_rows table model rows Hrows).
      exists ru, m; split; [exact Hru|].
      split; [exact (row_of_key _ _ _ _ Hrow1) | exact Hrow1]. }
    assert (Hr2 : In r2 rows).
    { apply (In_rxn_met_rows table model rows Hrows).
      exists rv, m; split; [exact Hrv|].
      split; [exact (row_of_key _ _ _ _ Hrow2) | exact Hrow2]. }
    destruct (candidate_of_rows rw rows cands r1 r2 e1 e2 Hc Hr1 Hr2
                (eq_trans G1 (eq_sym G2)) Hs1 Hs2) as [c [Hcin [Sc Tc]]].
    set (k := (id ru, id rv)).
    assert (Hg : In (k, group_rows (pair_eqb String.eqb)
                                   (@pair_key string) k cands)
                    (groupby (pair_eqb String.eqb)
                             (pair_leb String.eqb String.leb)
                             (@pair_key string) cands)).
    { apply GroupFacts.In_groupby; split; [|reflexivity].
      apply (GroupFacts.In_group_keys _ _ _ Hspec).
      exists c; split; [exact Hcin|].
      unfold pair_key, k; congruence. }
    destruct (mapM_Ok_In_l _ _ _ H _ Hg) as [e [He Hr]].
    simpl in Hr; apply resolve_group_key in Hr.
    destruct e as [[a b] d]; simpl in Hr; injection Hr as -> ->.
    exists d; exact He.
Qed.

Lemma directed_edge_iff_released_and_taken_up_witness :
  let A := mkReaction "A" [("M", 2%Q)] false in
  let B := mkReaction "B" [("M", (-1)%Q)] true in
  let table := [("A", mkFluxRange 0 10); ("B", mkFluxRange (-4) 7)] in
  let edges :=
    [("A", "B", Nx.mkAttrs (Some (20 # 1)%Q) (Some "M"));
     ("B", "B", Nx.mkAttrs (Some (4 # 1)%Q) (Some "M"))] in
  (forall u v d,
      In (u, v, d) edges ->
      exists w m ru rv,
        d = Nx.mkAttrs (Some w) (Some m)
        /\ In ru [A; B] /\ id ru = u /\ In rv [A; B] /\ id rv = v
        /\ produces table ru m /\ consumes table rv m)
  /\ (forall m ru rv,
         In ru [A; B] -> In rv [A; B] ->
         produces table ru m -> consumes table rv m ->
         exists d, In (id ru, id rv, d) edges).
Proof.
  cbv zeta.
  apply (directed_edge_iff_released_and_taken_up
           (fixed_fva [("A", mkFluxRange 0 10); ("B", mkFluxRange (-4) 7)])
           [mkReaction "A" [("M", 2%Q)] false;
            mkReaction "B" [("M", (-1)%Q)] true]
           _ false false (95 # 100)).
  - reflexivity.
  - vm_compute; reflexivity.
Defined.

Lemma resolve_edges_keys_mn rw (cands : list (Candidate string))
      (edges : list Nx.Edge) :
  MetabolicNetwork.resolve_edges rw cands = Ok edges ->
  NoDup (map fst edges).
Proof.
  unfold MetabolicNetwork.resolve_edges; intros H.
  rewrite (resolved_edge_keys _ _ _ H), GroupFacts.groupby_keys.
  apply GroupFacts.NoDup_group_keys.
  exact (GroupFacts.pair_eqb_spec String.eqb String.eqb_eq).
Qed.

Lemma resolve_edges_keys_rn rw (cands : list (Candidate ReactionNetwork.cell))
      (edges : list (ReactionNetwork.cell * ReactionNetwork.cell
                     * Nx.Attrs)) :
  ReactionNetwork.resolve_edges rw cands = Ok edges ->
  NoDup (map fst edges).
Proof.
  unfold ReactionNetwork.resolve_edges; intros H.
  rewrite (resolved_edge_keys _ _ _ H).
  apply NoDup_map_filter.
  rewrite GroupFacts.groupby_keys.
  apply GroupFacts.NoDup_group_keys.
  exact (GroupFacts.pair_eqb_spec _ GroupFacts.cell_eqb_spec).
Qed.

(** X3: the edge list of [find_directed_edges_from_model], in either file,
    has at most one edge for an ordered pair of end points. *)
Theorem directed_edges_one_per_pair
        (fva : Model -> bool -> Q -> result FvaFrame)
        (model : Model) (rw loopless : bool) (fva_prop : Q) :
  (forall edges,
      MetabolicNetwork.find_directed_edges_from_model
        fva model rw loopless fva_prop = Ok edges ->
      NoDup (map fst edges))
  /\ (forall edges,
         ReactionNetwork.find_directed_edges_from_model
           fva model rw loopless fva_prop = Ok edges ->
         NoDup (map fst edges)).
Proof.
  split; intros edges.
  - unfold MetabolicNetwork.find_directed_edges_from_model.
    destruct (fva model loopless fva_prop) as [t|]; simpl; [|discriminate].
    destruct (rxn_met_rows t model) as [rows|]; simpl; [|discriminate].
    destruct (MetabolicNetwork.edge_weight_rows rw rows) as [cands|]; simpl;
      [|discriminate].
    apply resolve_edges_keys_mn.
  - unfold ReactionNetwork.find_directed_edges_from_model.
    destruct (fva model loopless fva_prop) as [t|]; simpl; [|discriminate].
    destruct (rxn_met_rows t model) as [rows|]; simpl; [|discriminate].
    destruct (ReactionNetwork.edge_weight_rows rw rows) as [cands|]; simpl;
      [|discriminate].
    apply resolve_edges_keys_rn.
Qed.


Lemma directed_edges_one_per_pair_witness :
  let A := mkReaction "A" [("M", 2%Q); ("N", 1%Q)] false in
  let B := mkReaction "B" [("M", (-1)%Q); ("N", (-1)%Q)] true in
  let fva := fixed_fva [("A", mkFluxRange 0 10); ("B", mkFluxRange (-4) 7)] in
  (exists edges,
      MetabolicNetwork.find_directed_edges_from_model
        fva [A; B] true false (95 # 100) = Ok edges
      /\ NoDup (map fst edges))
  /\ (exists edges,
         ReactionNetwork.find_directed_edges_from_model
           fva [A; B] true false (95 # 100) = Ok edges
         /\ NoDup (map fst edges)).
Proof.
  cbv zeta.
  pose proof (directed_edges_one_per_pair
                (fixed_fva [("A", mkFluxRange 0 10);
                            ("B", mkFluxRange (-4) 7)])
                [mkReaction "A" [("M", 2%Q); ("N", 1%Q)] false;
                 mkReaction "B" [("M", (-1)%Q); ("N", (-1)%Q)] true]
                true false (95 # 100)) as [H1 H2].
  split.
  - eexists; split; [vm_compute; reflexivity|].
    apply H1; vm_compute; reflexivity.
  - eexists; split; [vm_compute; reflexivity|].
    apply H2; vm_compute; reflexivity.
Defined.

(** ** The sign of a weight in reaction_network.py *)






(** ** The two undirected edge lists *)

Lemma filter_all_In {A} (f : A -> bool) (l : list A) :
  (forall x, In x l -> f x = true) -> filter f l = l.
Proof.
  induction l as [|x t IH]; simpl; intros H; [reflexivity|].
  rewrite (H x (or_introl eq_refl)), IH; [reflexivity|].
  intros y Hy; apply H; right; exact Hy.
Qed.

(** The guard [if i != j] of reaction_network.py changes nothing for a
    well formed model. *)
Lemma undirected_edge_lists_agree (model : Model) :
  wf_model model ->
  ReactionNetwork.find_edges_from_model model
  = MetabolicNetwork.find_edges_from_model model.
Proof.
  intros Hwf.
  unfold ReactionNetwork.find_edges_from_model,
    MetabolicNetwork.find_edges_from_model.
  rewrite !flat_map_concat_map; f_equal.
  apply map_ext_in; intros [k grp] Hg; simpl.
  apply GroupFacts.In_groupby in Hg; destruct Hg as [_ ->].
  f_equal; apply filter_all_In; intros [i j] Hij; simpl.
  apply negb_true_iff, String.eqb_neq.
  apply (combinations2_distinct _ i j) in Hij; [exact Hij|].
  exact (FrameFacts.NoDup_group_pairs model k Hwf).
Qed.

(** ** No edge of the undirected graph without a shared metabolite *)

Lemma reaction_of_incident model i :
  incident model i -> exists r, In r model /\ id r = i.
Proof. intros [r [Hr [E _]]]; exists r; split; assumption. Qed.

(** X6: the undirected graph of a well formed model has no edge of its own
    making: whenever [g.get_edge_data(u, v)] is some data, [u] and [v] are
    the ids of two different reactions of the model, and the data is
    [{"metabolite": m}] for a metabolite [m] that both reactions have. *)
Theorem undirected_edges_join_sharing_reactions
        (load_json read_sbml load_yaml load_matlab
         : ModelArg -> result Model)
        (model : Model) (file_type : option string) (g : Nx.Graph) :
  wf_model model ->
  MetabolicNetwork.create_metabolic_network
    load_json read_sbml load_yaml load_matlab (ArgModel model) file_type
  = Ok g ->
  forall u v d,
    Nx.edge_data g u v = Some d ->
    u <> v
    /\ exists r1 r2 m,
        In r1 model /\ In r2 model /\ id r1 = u /\ id r2 = v
        /\ shared r1 r2 m /\ d = Nx.mkAttrs None (Some m).
Proof.
  intros Hwf Hg u v d Hd.
  unfold MetabolicNetwork.create_metabolic_network in Hg; simpl in Hg.
  injection Hg as <-.
  set (g0 := MetabolicNetwork.add_reaction_nodes model (Nx.empty_graph false))
    in *.
  set (es := MetabolicNetwork.find_edges_from_model model) in *.
  assert (Hdir : Nx.directed g0 = false)
    by apply directed_add_reaction_nodes.
  assert (Hbase : forall a b, Nx.edge_data g0 a b = None).
  { intros a b; unfold g0; rewrite edge_data_add_reaction_nodes.
    reflexivity. }
  destruct (edge_data_add_edges_from_inv es g0 u v d Hd)
    as [[d0 H0]|[a [b [dd [Hin Hhit]]]]].
  { rewrite Hbase in H0; discriminate. }
  rewrite Hdir in Hhit.
  destruct (last_such (joinsb u v) es (a, b, dd) Hin Hhit)
    as [l1 [e [l2 [Ees [Hj Hl2]]]]].
  assert (He : In e es) by (rewrite Ees; apply in_elt).
  assert (Hmo : forall e', In e' es -> metabolite_only e').
  { intros e' He'; unfold es in He'; rewrite find_edges_by_group in He'.
    exact (flat_group_edges_metabolite_only model _ e' He'). }
  assert (Hdata : Nx.edge_data (Nx.add_edges_from es g0) u v = Some (snd e)).
  { rewrite Ees; apply last_edge_wins.
    - exact Hdir.
    - intros x y dxy; rewrite Hbase; discriminate.
    - intros e' He'; apply Hmo; rewrite Ees; apply in_or_app; left; exact He'.
    - apply Hmo; exact He.
    - exact Hj.
    - exact Hl2. }
  rewrite Hdata in Hd; injection Hd as <-.
  pose proof (undirected_no_self_loop model e Hwf He) as Hne.
  destruct e as [[i j] de]; simpl in *.
  destruct (find_edges_endpoints model i j de He) as [Hi Hj'].
  apply joinsb_true in Hj; simpl in Hj.
  assert (Huv : u <> v).
  { destruct Hj as [[-> ->]|[-> ->]]; [exact Hne|].
    intros E; apply Hne; symmetry; exact E. }
  split; [exact Huv|].
  assert (Hiu : exists r1 r2, In r1 model /\ In r2 model
                              /\ id r1 = u /\ id r2 = v).
  { apply reaction_of_incident in Hi, Hj'.
    destruct Hi as [ri [Hri Ei]], Hj' as [rj [Hrj Ej]].
    destruct Hj as [[<- <-]|[<- <-]].
    - exists ri, rj; repeat split; assumption.
    - exists rj, ri; repeat split; assumption. }
  destruct Hiu as [r1 [r2 [Hr1 [Hr2 [E1 E2]]]]].
  unfold es in He; rewrite find_edges_by_group in He.
  apply in_flat_map in He; destruct He as [k [_ He]].
  exists r1, r2, k.
  repeat split; try assumption.
  - apply (group_edge_joins_shared model r1 r2 k (i, j, de) Hwf Hr1 Hr2 He).
    rewrite E1, E2; apply joinsb_true; exact Hj.
  - apply (group_edge_joins_shared model r1 r2 k (i, j, de) Hwf Hr1 Hr2 He).
    rewrite E1, E2; apply joinsb_true; exact Hj.
  - exact (group_edges_metabolite_only model k _ He).
Qed.

Lemma undirected_edges_join_sharing_reactions_witness :
  let R1 := mkReaction "R1" [("b", 1%Q); ("a", 1%Q); ("c", 1%Q)] false in
  let R2 := mkReaction "R2" [("a", (-1)%Q); ("b", (-1)%Q)] true in
  let R3 := mkReaction "R3" [("c", (-1)%Q)] false in
  "R2" <> "R1"
  /\ exists r1 r2 m,
      In r1 [R1; R2; R3] /\ In r2 [R1; R2; R3]
      /\ id r1 = "R2" /\ id r2 = "R1"
      /\ shared r1 r2 m /\ Nx.mkAttrs None (Some "b") = Nx.mkAttrs None (Some m).
Proof.
  cbv zeta.
  eapply (undirected_edges_join_sharing_reactions
            no_file no_file no_file no_file
            [mkReaction "R1" [("b", 1%Q); ("a", 1%Q); ("c", 1%Q)] false;
             mkReaction "R2" [("a", (-1)%Q); ("b", (-1)%Q)] true;
             mkReaction "R3" [("c", (-1)%Q)] false]
            None).
  - wf_model_concrete.
  - reflexivity.
  - vm_compute; reflexivity.
Defined.

(** ** The extension of a path *)

Lemma string_app_assoc (a b c : string) : (a ++ b) ++ c = a ++ (b ++ c).
Proof. induction a as [|x a IH]; simpl; [reflexivity | rewrite IH; reflexivity]. Qed.

Lemma string_app_nil_r (a : string) : a ++ "" = a.
Proof. induction a as [|x a IH]; simpl; [reflexivity | rewrite IH; reflexivity]. Qed.

Lemma span_lower_spec (s : string) :
  s = fst (span_lower s) ++ snd (span_lower s)
  /\ all_lower (fst (span_lower s)) = true.
Proof.
  induction s as [|c t [IH1 IH2]]; simpl; [split; reflexivity|].
  destruct (is_lower c) eqn:E; simpl.
  - rewrite E, IH2, <- IH1; split; reflexivity.
  - split; reflexivity.
Qed.

Lemma span_lower_run (run rest : string) :
  all_lower run = true ->
  match rest with
  | EmptyString => True
  | String c _ => is_lower c = false
  end ->
  span_lower (run ++ rest) = (run, rest).
Proof.
  intros Hrun Hrest; induction run as [|c t IH]; simpl.
  - destruct rest as [|c r]; simpl; [reflexivity|].
    rewrite Hrest; reflexivity.
  - simpl in Hrun; apply andb_true_iff in Hrun; destruct Hrun as [Hc Ht].
    rewrite Hc, (IH Ht); reflexivity.
Qed.

Lemma length_snd_span_lower (a b : string) (c : ascii) :
  is_lower c = false ->
  (S (String.length b)
   <= String.length (snd (span_lower (a ++ String c b))))%nat.
Proof.
  intros Hc; induction a as [|x a IH]; simpl.
  - rewrite Hc; simpl; lia.
  - destruct (is_lower x); simpl; [exact IH|].
    clear IH; induction a as [|y a IH]; simpl in *; lia.
Qed.

Lemma at_end_length (s : string) :
  at_end s = true -> (String.length s <= 1)%nat.
Proof.
  destruct s as [|c [|d t]]; simpl; intros H; try lia; discriminate.
Qed.

Lemma at_end_inv (s : string) :
  at_end s = true -> s = EmptyString \/ s = newline.
Proof.
  destruct s as [|c [|d t]]; simpl; intros H; [left; reflexivity | |discriminate].
  right; apply Nat.eqb_eq in H.
  unfold newline; rewrite <- H, ascii_nat_embedding; reflexivity.
Qed.

Lemma string_length_app (a b : string) :
  String.length (a ++ b) = (String.length a + String.length b)%nat.
Proof. induction a as [|x a IH]; simpl; [reflexivity | rewrite IH; reflexivity]. Qed.

Lemma findall_extension_unfold (s : string) :
  findall_extension s =
  match match_extension s with
  | Some m => [m]
  | None => match s with
            | EmptyString => []
            | String _ t => findall_extension t
            end
  end.
Proof. destruct s; reflexivity. Qed.

Lemma match_extension_inv (s m : string) :
  match_extension s = Some m ->
  exists tag, m = "." ++ tag /\ extension_of s tag.
Proof.
  destruct s as [|c t]; simpl; [discriminate|].
  destruct (nat_of_ascii c =? 46)%nat eqn:Ec; [|discriminate].
  destruct (negb (fst (span_lower t) =? "") && at_end (snd (span_lower t)))
    eqn:E; [|discriminate].
  intros H; injection H as <-.
  apply andb_true_iff in E; destruct E as [Hne Hend].
  apply negb_true_iff, String.eqb_neq in Hne.
  apply Nat.eqb_eq in Ec.
  assert (Hdot : c = "."%char).
  { rewrite <- (ascii_nat_embedding c), Ec; reflexivity. }
  destruct (span_lower_spec t) as [Ht Hlow].
  exists (fst (span_lower t)); subst c; split; [reflexivity|].
  exists EmptyString, (snd (span_lower t)); simpl.
  split; [rewrite <- Ht; reflexivity|].
  split; [exact Hne|]; split; [exact Hlow|].
  apply at_end_inv; exact Hend.
Qed.

Lemma findall_extension_inv (path : string) :
  findall_extension path = []
  \/ exists tag, findall_extension path = ["." ++ tag]
                 /\ extension_of path tag.
Proof.
  induction path as [|c t IH].
  - left; reflexivity.
  - rewrite findall_extension_unfold.
    destruct (match_extension (String c t)) as [m|] eqn:E.
    + right; apply match_extension_inv in E.
      destruct E as [tag [-> Hext]]; exists tag; split; [reflexivity|exact Hext].
    + destruct IH as [IH|[tag [IH [stem [nl [Ep Hrest]]]]]];
        [left; exact IH|].
      right; exists tag; split; [exact IH|].
      exists (String c stem), nl; split; [simpl; rewrite Ep; reflexivity|].
      exact Hrest.
Qed.

Lemma is_lower_dot : is_lower "."%char = false.
Proof. reflexivity. Qed.

Lemma findall_extension_suffix (stem tag nl : string) :
  tag <> EmptyString -> all_lower tag = true ->
  nl = EmptyString \/ nl = newline ->
  findall_extension (stem ++ "." ++ tag ++ nl) = ["." ++ tag].
Proof.
  intros Hne Hlow Hnl.
  assert (Hspan : span_lower (tag ++ nl) = (tag, nl)).
  { apply span_lower_run; [exact Hlow|].
    destruct Hnl as [->| ->]; simpl; [exact I | reflexivity]. }
  induction stem as [|c t IH].
  - simpl append at 1; rewrite findall_extension_unfold.
    change ("." ++ tag ++ nl) with (String "."%char (tag ++ nl)).
    unfold match_extension; rewrite Hspan; simpl.
    destruct (String.eqb_spec tag ""); [contradiction|]; simpl.
    destruct Hnl as [->| ->]; reflexivity.
  - rewrite findall_extension_unfold.
    change (String c t ++ "." ++ tag ++ nl)
      with (String c (t ++ "." ++ tag ++ nl)).
    assert (Hnone : match_extension (String c (t ++ "." ++ tag ++ nl)) = None).
    { unfold match_extension.
      destruct (nat_of_ascii c =? 46)%nat; [|reflexivity].
      destruct (at_end (snd (span_lower (t ++ "." ++ tag ++ nl)))) eqn:E;
        [|rewrite andb_false_r; reflexivity].
      apply at_end_length in E.
      assert (Hlen : (S (String.length (tag ++ nl))
                      <= String.length
                           (snd (span_lower (t ++ "." ++ tag ++ nl))))%nat)
        by exact (length_snd_span_lower t (tag ++ nl) "."%char is_lower_dot).
      rewrite string_length_app in Hlen.
      assert (Htag : (1 <= String.length tag)%nat)
        by (destruct tag; [contradiction | simpl; lia]).
      lia. }
    rewrite Hnone; exact IH.
Qed.

Lemma infer_extension (path tag : string) (hint : option string) :
  falsy hint = true -> extension_of path tag ->
  infer_file_type (ArgStr path) hint = Ok (Some tag)
  /\ infer_file_type (ArgStr path) (Some tag) = Ok (Some tag).
Proof.
  intros Hf [stem [nl [-> [Hne [Hlow Hnl]]]]].
  unfold infer_file_type; rewrite Hf.
  rewrite (findall_extension_suffix stem tag nl Hne Hlow Hnl).
  split; [reflexivity|].
  unfold falsy; destruct (String.eqb_spec tag ""); [contradiction|].
  reflexivity.
Qed.

(** X11: a path given without a format hint (no hint, or the empty string).
    If the path ends in a dot and lower case letters, with at most a
    newline after them, it is loaded exactly as it would be with those
    letters as the hint; if it does not, the loader raises [IndexError]. *)
Theorem loader_reads_the_extension
        (load_json read_sbml load_yaml load_matlab
         : ModelArg -> result Model)
        (path : string) (hint : option string) :
  falsy hint = true ->
  (forall tag,
      extension_of path tag ->
      load_cobra_model_from_file load_json read_sbml load_yaml load_matlab
        (ArgStr path) hint
      = load_cobra_model_from_file load_json read_sbml load_yaml load_matlab
          (ArgStr path) (Some tag))
  /\ ((forall tag, ~ extension_of path tag) ->
      load_cobra_model_from_file load_json read_sbml load_yaml load_matlab
        (ArgStr path) hint = Raise IndexError).
Proof.
  intros Hf; unfold load_cobra_model_from_file; split.
  - intros tag Hext.
    destruct (infer_extension path tag hint Hf Hext) as [-> ->].
    reflexivity.
  - intros Hnone; unfold infer_file_type; rewrite Hf.
    destruct (findall_extension_inv path) as [->|[tag [_ Hext]]];
      [reflexivity|].
    exfalso; exact (Hnone tag Hext).
Qed.

Lemma last_char_app (a b : string) :
  b <> EmptyString -> last_char (a ++ b) = last_char b.
Proof.
  intros Hb; induction a as [|c a IH]; simpl; [reflexivity|].
  rewrite IH; destruct (a ++ b) eqn:E; [|reflexivity].
  destruct a; simpl in E; [contradiction | discriminate].
Qed.

Lemma last_char_lower (tag : string) :
  tag <> EmptyString -> all_lower tag = true ->
  exists c, last_char tag = Some c /\ is_lower c = true.
Proof.
  induction tag as [|c t IH]; intros Hne Hlow; [contradiction|].
  simpl in Hlow; apply andb_true_iff in Hlow; destruct Hlow as [Hc Ht].
  destruct t as [|d t'].
  - exists c; split; [reflexivity | exact Hc].
  - destruct IH as [x [Hx Hl]]; [discriminate | exact Ht|].
    exists x; split; [exact Hx | exact Hl].
Qed.

(** The last character of a path that has an extension: a lower case
    letter or a newline. *)
Lemma extension_last_char (path tag : string) :
  extension_of path tag ->
  exists c, last_char path = Some c
            /\ (is_lower c = true \/ c = ascii_of_nat 10).
Proof.
  intros [stem [nl [-> [Hne [Hlow Hnl]]]]].
  destruct Hnl as [->| ->].
  - rewrite string_app_nil_r.
    destruct (last_char_lower tag Hne Hlow) as [c [Hc Hl]].
    exists c; split; [|left; exact Hl].
    rewrite last_char_app; [|discriminate].
    change ("." ++ tag) with (String "."%char tag); simpl.
    destruct tag; [contradiction | exact Hc].
  - exists (ascii_of_nat 10); split; [|right; reflexivity].
    rewrite <- !string_app_assoc.
    rewrite last_char_app; [reflexivity | discriminate].
Qed.

(** X12: what a path is loaded with when no hint is given.  The endings
    [.json], [.xml], [.sbml], [.yaml] and [.mat] reach the loader of their
    format and return its result; [.yml] and [.m] reach none and return
    [None], although [".yml"] is a tag of the YAML branch; an upper case
    ending such as [.JSON] raises [IndexError], although ["JSON"] is a tag
    of the JSON branch; and only the last extension counts. *)
Theorem loader_dispatch_on_the_suffix
        (load_json read_sbml load_yaml load_matlab
         : ModelArg -> result Model)
        (stem : string) :
  let load := load_cobra_model_from_file
                load_json read_sbml load_yaml load_matlab in
  load (ArgStr (stem ++ ".json")) None
  = (m <- load_json (ArgStr (stem ++ ".json")) ;; Ok (Some m))
  /\ load (ArgStr (stem ++ ".xml")) None
     = (m <- read_sbml (ArgStr (stem ++ ".xml")) ;; Ok (Some m))
  /\ load (ArgStr (stem ++ ".sbml")) None
     = (m <- read_sbml (ArgStr (stem ++ ".sbml")) ;; Ok (Some m))
  /\ load (ArgStr (stem ++ ".yaml")) None
     = (m <- load_yaml (ArgStr (stem ++ ".yaml")) ;; Ok (Some m))
  /\ load (ArgStr (stem ++ ".mat")) None
     = (m <- load_matlab (ArgStr (stem ++ ".mat")) ;; Ok (Some m))
  /\ load (ArgStr (stem ++ ".yml")) None = Ok None
  /\ load (ArgStr (stem ++ ".m")) None = Ok None
  /\ load (ArgStr (stem ++ ".JSON")) None = Raise IndexError
  /\ load (ArgStr (stem ++ ".json.gz")) None = Ok None.
Proof.
  intros load.
  assert (Hext : forall tag,
             tag <> EmptyString -> all_lower tag = true ->
             load (ArgStr (stem ++ "." ++ tag)) None
             = load (ArgStr (stem ++ "." ++ tag)) (Some tag)).
  { intros tag Hne Hlow.
    apply (loader_reads_the_extension
             load_json read_sbml load_yaml load_matlab
             (stem ++ "." ++ tag) None eq_refl).
    exists stem, EmptyString; rewrite string_app_nil_r.
    repeat split; try assumption; left; reflexivity. }
  repeat split.
  - exact (Hext "json" ltac:(discriminate) eq_refl).
  - exact (Hext "xml" ltac:(discriminate) eq_refl).
  - exact (Hext "sbml" ltac:(discriminate) eq_refl).
  - exact (Hext "yaml" ltac:(discriminate) eq_refl).
  - exact (Hext "mat" ltac:(discriminate) eq_refl).
  - exact (Hext "yml" ltac:(discriminate) eq_refl).
  - exact (Hext "m" ltac:(discriminate) eq_refl).
  - apply (loader_reads_the_extension
             load_json read_sbml load_yaml load_matlab
             (stem ++ ".JSON") None eq_refl).
    intros tag Hx; apply extension_last_char in Hx.
    destruct Hx as [c [Hc Hl]].
    rewrite last_char_app in Hc; [|discriminate].
    simpl in Hc; injection Hc as <-.
    destruct Hl as [Hl|Hl]; discriminate.
  - pose proof (Hext' := loader_reads_the_extension
             load_json read_sbml load_yaml load_matlab
             (stem ++ ".json.gz") None eq_refl).
    destruct Hext' as [H _].
    unfold load; rewrite (H "gz"); [reflexivity|].
    exists (stem ++ ".json"), EmptyString.
    rewrite string_app_assoc.
    repeat split; try discriminate; left; reflexivity.
Qed.

Lemma loader_reads_the_extension_witness :
  (load_cobra_model_from_file (fun _ => Ok []) no_file no_file no_file
     (ArgStr "models/iEK1011.json") (Some "")
   = load_cobra_model_from_file (fun _ => Ok []) no_file no_file no_file
       (ArgStr "models/iEK1011.json") (Some "json"))
  /\ load_cobra_model_from_file (fun _ => Ok []) no_file no_file no_file
       (ArgStr "models/iEK1011") None = Raise IndexError.
Proof.
  split.
  - apply (loader_reads_the_extension
             (fun _ => Ok []) no_file no_file no_file
             "models/iEK1011.json" (Some "") eq_refl).
    exists "models/iEK1011", EmptyString.
    repeat split; try discriminate; left; reflexivity.
  - apply (loader_reads_the_extension
             (fun _ => Ok []) no_file no_file no_file
             "models/iEK1011" None eq_refl).
    intros tag Hx; apply extension_last_char in Hx.
    destruct Hx as [c [Hc Hl]]; simpl in Hc; injection Hc as <-.
    destruct Hl as [Hl|Hl]; discriminate.
Defined.

(** ** The progress bar *)

Lemma print_bar_zero_per (bar : Progress.ProgressBar) (p : Z) :
  Progress.per bar = 0%Z ->
  Progress.print_bar bar p = Progress.Throw Progress.ZeroDivisionError.
Proof.
  intros H; unfold Progress.print_bar, Progress.int_div; rewrite H.
  reflexivity.
Qed.

(** X9: a progress bar over fewer items than it has divisions gets
    [per = total // divisions = 0], and every [print_bar] and [inc] of it
    raises [ZeroDivisionError]. *)
Theorem progress_bar_divides_by_zero (c r : string) (total divisions : Z) :
  (0 <= total < divisions)%Z ->
  exists bar,
    Progress.init c r total (Some divisions) 10 = Progress.Return bar
    /\ Progress.per bar = 0%Z
    /\ (forall p, Progress.print_bar bar p
                  = Progress.Throw Progress.ZeroDivisionError)
    /\ Progress.inc bar = Progress.Throw Progress.ZeroDivisionError.
Proof.
  intros H.
  assert (Hd : (divisions =? 0)%Z = false) by (apply Z.eqb_neq; lia).
  assert (Hper : (total / divisions = 0)%Z) by (apply Z.div_small; lia).
  unfold Progress.init; rewrite Hd, Hper.
  eexists; split; [reflexivity|]; split; [reflexivity|]; split.
  - intros p; apply print_bar_zero_per; reflexivity.
  - unfold Progress.inc; rewrite print_bar_zero_per; reflexivity.
Qed.

Lemma progress_bar_divides_by_zero_witness :
  exists bar,
    Progress.init Progress.black_square Progress.white_square 9
                  (Some 10%Z) 10 = Progress.Return bar
    /\ Progress.per bar = 0%Z
    /\ (forall p, Progress.print_bar bar p
                  = Progress.Throw Progress.ZeroDivisionError)
    /\ Progress.inc bar = Progress.Throw Progress.ZeroDivisionError.
Proof.
  apply (progress_bar_divides_by_zero
           Progress.black_square Progress.white_square 9 10).
  lia.
Defined.



(** ** [verbose] in reaction_network.py *)

Lemma tick_runs (b : Progress.ProgressBar) :
  Progress.per b <> 0%Z -> Progress.total b <> 0%Z ->
  exists b',
    Progress.tick (Some b) = Progress.Return (Some b')
    /\ Progress.per b' = Progress.per b
    /\ Progress.total b' = Progress.total b.
Proof.
  intros Hp Ht.
  unfold Progress.tick, Progress.inc, Progress.print_bar, Progress.int_div.
  simpl.
  destruct (Z.eqb_spec (Progress.per b) 0); [contradiction|].
  destruct (Z.eqb_spec (Progress.total b) 0); [contradiction|].
  simpl; eexists; split; [reflexivity|]; split; reflexivity.
Qed.

Lemma tick_stuck (b : Progress.ProgressBar) :
  Progress.per b = 0%Z ->
  Progress.tick (Some b) = Progress.Throw Progress.ZeroDivisionError.
Proof.
  intros Hp.
  unfold Progress.tick, Progress.inc.
  rewrite print_bar_zero_per; [reflexivity | exact Hp].
Qed.


Lemma tick_keeps_running (bar : option Progress.ProgressBar) :
  runs bar -> exists bar', Progress.tick bar = Progress.Return bar'
                           /\ runs bar'.
Proof.
  destruct bar as [b|]; simpl.
  - intros [Hp Ht]; destruct (tick_runs b Hp Ht) as [b' [E [Ep Et]]].
    exists (Some b'); split; [exact E|]; simpl.
    rewrite Ep, Et; split; assumption.
  - intros _; exists None; split; [reflexivity | exact I].
Qed.

Lemma rxn_met_loop_runs bar (reactions : list Reaction) acc :
  runs bar ->
  VerboseReactionNetwork.rxn_met_loop bar reactions acc
  = Progress.Return (acc ++ rxn_met_pairs reactions)%list.
Proof.
  revert bar acc; induction reactions as [|r rest IH]; intros bar acc Hb;
    simpl.
  - rewrite app_nil_r; reflexivity.
  - destruct (tick_keeps_running bar Hb) as [bar' [-> Hb']]; simpl.
    rewrite (IH bar' _ Hb'), <- app_assoc; reflexivity.
Qed.

Lemma edge_loop_runs bar (groups : list (string * list (string * string)))
      acc :
  runs bar ->
  VerboseReactionNetwork.edge_loop bar groups acc
  = Progress.Return
      (acc ++ flat_map
                (fun grp =>
                   map (fun ij => (fst ij, snd ij,
                                   Nx.mkAttrs None (Some (fst grp))))
                       (filter (fun ij => negb (String.eqb (fst ij) (snd ij)))
                               (combinations2 (map fst (snd grp)))))
                groups)%list.
Proof.
  revert bar acc; induction groups as [|g rest IH]; intros bar acc Hb; simpl.
  - rewrite app_nil_r; reflexivity.
  - destruct (tick_keeps_running bar Hb) as [bar' [-> Hb']]; simpl.
    rewrite (IH bar' _ Hb'), <- app_assoc; reflexivity.
Qed.

Lemma rxn_met_loop_cons bar (r : Reaction) rest acc :
  VerboseReactionNetwork.rxn_met_loop bar (r :: rest) acc
  = Progress.bind (Progress.tick bar)
      (fun bar =>
         VerboseReactionNetwork.rxn_met_loop bar rest
           (acc ++ map (fun m => (id r, fst m)) (metabolites r))%list).
Proof. reflexivity. Qed.

Lemma edge_loop_cons bar (grp : string * list (string * string)) rest acc :
  VerboseReactionNetwork.edge_loop bar (grp :: rest) acc
  = Progress.bind (Progress.tick bar)
      (fun bar =>
         VerboseReactionNetwork.edge_loop bar rest
           (acc ++ map (fun ij => (fst ij, snd ij,
                                   Nx.mkAttrs None (Some (fst grp))))
                       (filter (fun ij => negb (String.eqb (fst ij) (snd ij)))
                               (combinations2 (map fst (snd grp)))))%list).
Proof. reflexivity. Qed.

Lemma find_edges_quiet (model : Model) :
  VerboseReactionNetwork.find_edges_from_model model false
  = Progress.Return (ReactionNetwork.find_edges_from_model model).
Proof.
  unfold VerboseReactionNetwork.find_edges_from_model,
    ReactionNetwork.find_edges_from_model.
  simpl Progress.bind.
  rewrite rxn_met_loop_runs by exact I; simpl app; simpl Progress.bind.
  rewrite edge_loop_runs by exact I; reflexivity.
Qed.

Lemma start_verbose (n : nat) :
  exists b,
    Progress.start true (Z.of_nat n) = Progress.Return (Some b)
    /\ Progress.total b = Z.of_nat n
    /\ Progress.per b = (Z.of_nat n / 10)%Z.
Proof.
  unfold Progress.start, Progress.init; simpl.
  eexists; split; [reflexivity|]; split; reflexivity.
Qed.

Lemma too_few_cases (n : nat) :
  (n = 0%nat /\ too_few n = false)
  \/ (too_few n = true /\ (Z.of_nat n / 10 = 0)%Z /\ n <> 0%nat)
  \/ (too_few n = false /\ (Z.of_nat n / 10 <> 0)%Z /\ Z.of_nat n <> 0%Z).
Proof.
  unfold too_few.
  destruct (Nat.ltb_spec 0 n) as [H0|H0]; simpl.
  - destruct (Nat.ltb_spec n 10) as [H1|H1].
    + right; left; split; [reflexivity|]; split; [|lia].
      apply Z.div_small; lia.
    + right; right; split; [reflexivity|]; split; [|lia].
      assert (0 < Z.of_nat n / 10)%Z by (apply Z.div_str_pos; lia); lia.
  - left; split; [lia | reflexivity].
Qed.

Lemma groupby_length (pairs : list (string * string)) :
  List.length (groupby String.eqb String.leb snd pairs)
  = List.length (unique String.eqb (map snd pairs)).
Proof.
  unfold groupby, group_keys; rewrite length_map.
  symmetry; apply Permutation_length, GroupFacts.sort_perm.
Qed.

(** X8: [find_edges_from_model] of reaction_network.py with [verbose].
    Without [verbose] it returns the edge list.  With [verbose] it raises
    [ZeroDivisionError] when the model has between one and nine reactions,
    or between one and nine metabolites, and returns the same edge list
    otherwise. *)
Theorem verbose_progress_needs_ten_items (model : Model) (verbose : bool) :
  VerboseReactionNetwork.find_edges_from_model model verbose
  = if verbose && (too_few (List.length model)
                   || too_few (metabolite_count model))
    then Progress.Throw Progress.ZeroDivisionError
    else Progress.Return (ReactionNetwork.find_edges_from_model model).
Proof.
  unfold VerboseReactionNetwork.find_edges_from_model,
    ReactionNetwork.find_edges_from_model.
  destruct verbose; simpl andb.
  - destruct (start_verbose (List.length model)) as [b [-> [Ht Hp]]].
    simpl Progress.bind.
    destruct (too_few_cases (List.length model))
      as [[Hn ->]|[[-> [Hz Hn]]|[-> [Hz Hn]]]]; simpl orb.
    + destruct model; [|discriminate]; simpl.
      reflexivity.
    + destruct model as [|r rest]; [contradiction|].
      rewrite rxn_met_loop_cons, tick_stuck by (rewrite Hp; exact Hz).
      reflexivity.
    + rewrite rxn_met_loop_runs by (simpl; rewrite Hp, Ht; split; assumption).
      simpl app; simpl Progress.bind.
      fold (metabolite_count model).
      pose proof (groupby_length (rxn_met_pairs model)) as Hlen.
      fold (metabolite_count model) in Hlen.
      destruct (too_few_cases (metabolite_count model))
        as [[Hk ->]|[[-> [Hz2 Hk]]|[-> [Hz2 Hk]]]].
      * rewrite Hk in Hlen.
        destruct (groupby String.eqb String.leb snd (rxn_met_pairs model));
          [reflexivity | discriminate].
      * destruct (groupby String.eqb String.leb snd (rxn_met_pairs model))
          as [|g rest]; [simpl in Hlen; congruence|].
        rewrite edge_loop_cons, tick_stuck by exact Hz2.
        reflexivity.
      * rewrite edge_loop_runs by (simpl; split; assumption).
        reflexivity.
  - apply find_edges_quiet.
Qed.

(** X7: for a well formed model, and without [verbose],
    [create_reaction_network] of reaction_network.py builds the graph that
    [create_metabolic_network] of metabolic_network.py builds. *)
Theorem create_reaction_network_builds_the_same_graph
        (load_json read_sbml load_yaml load_matlab
         : ModelArg -> Py.result Model)
        (model : Model) (file_type : option string) :
  wf_model model ->
  VerboseReactionNetwork.create_reaction_network
    load_json read_sbml load_yaml load_matlab (ArgModel model) file_type false
  = Progress.lift
      (MetabolicNetwork.create_metabolic_network
         load_json read_sbml load_yaml load_matlab (ArgModel model) file_type).
Proof.
  intros Hwf.
  unfold VerboseReactionNetwork.create_reaction_network,
    MetabolicNetwork.create_metabolic_network; simpl.
  rewrite find_edges_quiet, (undirected_edge_lists_agree model Hwf).
  reflexivity.
Qed.

Lemma create_reaction_network_witness :
  let R1 := mkReaction "R1" [("b", 1%Q); ("a", 1%Q); ("c", 1%Q)] false in
  let R2 := mkReaction "R2" [("a", (-1)%Q); ("b", (-1)%Q)] true in
  let R3 := mkReaction "R3" [("c", (-1)%Q)] false in
  VerboseReactionNetwork.create_reaction_network
    no_file no_file no_file no_file (ArgModel [R1; R2; R3]) None false
  = Progress.lift
      (MetabolicNetwork.create_metabolic_network
         no_file no_file no_file no_file (ArgModel [R1; R2; R3]) None).
Proof.
  cbv zeta.
  apply create_reaction_network_builds_the_same_graph; wf_model_concrete.
Defined.

(** ** The edges of the metabolite network *)

Lemma substrateb_spec r m : substrateb r m = true <-> substrate r m.
Proof.
  unfold substrateb, substrate; split.
  - destruct (dict_get m (metabolites r)) as [c|]; [|discriminate].
    intros H; exists c; split; [reflexivity|].
    apply orb_true_iff in H; destruct H as [H|H]; [left; exact H|].
    right; apply FrameFacts.Qltb_lt; exact H.
  - intros [c [-> H]]; apply orb_true_iff.
    destruct H as [H|H]; [left; exact H|].
    right; apply FrameFacts.Qltb_lt; exact H.
Qed.

Lemma releasedb_spec r m : releasedb r m = true <-> released r m.
Proof.
  unfold releasedb, released; split.
  - destruct (dict_get m (metabolites r)) as [c|]; [|discriminate].
    intros H; exists c; split; [reflexivity|].
    apply orb_true_iff in H; destruct H as [H|H]; [left; exact H|].
    right; apply FrameFacts.Qltb_lt; exact H.
  - intros [c [-> H]]; apply orb_true_iff.
    destruct H as [H|H]; [left; exact H|].
    right; apply FrameFacts.Qltb_lt; exact H.
Qed.

Lemma classify_filter (r : Reaction) (st : list string * list string)
      (m : string) :
  In m (keys (metabolites r)) ->
  MetaboliteNetwork.classify r st m
  = Ok ((fst st ++ filter (substrateb r) [m])%list,
        (snd st ++ filter (releasedb r) [m])%list).
Proof.
  intros Hm.
  destruct (dict_get m (metabolites r)) as [c|] eqn:Ec;
    [|apply dict_get_None in Ec; contradiction].
  unfold MetaboliteNetwork.classify, get_coefficient, substrateb, releasedb.
  simpl filter; rewrite Ec; simpl.
  destruct (reversibility r); simpl; [reflexivity|].
  destruct (Qltb c 0) eqn:Eneg; simpl.
  - destruct (Qltb 0 c) eqn:Epos.
    + exfalso; exact (FrameFacts.Qltb_asym _ _ Eneg Epos).
    + rewrite app_nil_r; reflexivity.
  - destruct (Qltb 0 c); rewrite ?app_nil_r; destruct st; reflexivity.
Qed.

Lemma classify_all_filter (r : Reaction) (mets : list string)
      (st : list string * list string) :
  (forall m, In m mets -> In m (keys (metabolites r))) ->
  MetaboliteNetwork.classify_all r mets st
  = Ok ((fst st ++ filter (substrateb r) mets)%list,
        (snd st ++ filter (releasedb r) mets)%list).
Proof.
  revert st; induction mets as [|m rest IH]; intros st Hin.
  - simpl; rewrite !app_nil_r; destruct st; reflexivity.
  - change (MetaboliteNetwork.classify_all r (m :: rest) st)
      with (st' <- MetaboliteNetwork.classify r st m ;;
            MetaboliteNetwork.classify_all r rest st').
    rewrite (classify_filter r st m) by (apply Hin; left; reflexivity).
    simpl Py.bind.
    rewrite IH by (intros m' Hm'; apply Hin; right; exact Hm').
    simpl fst; simpl snd; rewrite <- !app_assoc.
    change (m :: rest) with ([m] ++ rest)%list.
    rewrite !filter_app; reflexivity.
Qed.

Lemma metabolite_edge_loop_runs bar (reactions : list Reaction)
      (acc : list MetaboliteNetwork.Edge) :
  runs bar ->
  MetaboliteNetwork.edge_loop bar reactions acc
  = Progress.Return (acc ++ flat_map metabolite_edges reactions)%list.
Proof.
  revert bar acc; induction reactions as [|r rest IH]; intros bar acc Hb.
  - simpl; rewrite app_nil_r; reflexivity.
  - change (MetaboliteNetwork.edge_loop bar (r :: rest) acc)
      with (Progress.bind (Progress.tick bar)
              (fun bar =>
                 Progress.bind
                   (Progress.lift
                      (MetaboliteNetwork.classify_all
                         r (keys (metabolites r)) ([], [])))
                   (fun st =>
                      MetaboliteNetwork.edge_loop bar rest
                        (acc ++ MetaboliteNetwork.reaction_edges r st)%list))).
    destruct (tick_keeps_running bar Hb) as [bar' [-> Hb']].
    simpl Progress.bind.
    rewrite classify_all_filter by (intros m Hm; exact Hm).
    simpl Progress.lift; simpl Progress.bind.
    rewrite (IH bar' _ Hb'), <- app_assoc; reflexivity.
Qed.

Lemma In_metabolite_edges (r : Reaction) (s t i : string) :
  In (s, t, i) (metabolite_edges r) <->
  s <> t /\ id r = i /\ substrate r s /\ released r t.
Proof.
  unfold metabolite_edges, MetaboliteNetwork.reaction_edges; simpl.
  rewrite in_map_iff; split.
  - intros [[a b] [E Hin]]; simpl in E; injection E as -> -> <-.
    apply filter_In in Hin; destruct Hin as [Hin Hne]; simpl in Hne.
    apply FrameFacts.In_product in Hin; destruct Hin as [Hs Ht].
    apply filter_In in Hs, Ht.
    split; [apply String.eqb_neq, negb_true_iff; exact Hne|].
    split; [reflexivity|]; split.
    + apply substrateb_spec; exact (proj2 Hs).
    + apply releasedb_spec; exact (proj2 Ht).
  - intros [Hne [<- [Hs Ht]]].
    exists (s, t); split; [reflexivity|].
    apply filter_In; split;
      [|simpl; apply negb_true_iff, String.eqb_neq; exact Hne].
    apply FrameFacts.In_product; split; apply filter_In; split.
    + destruct Hs as [c [Hc _]].
      apply dict_get_In in Hc; apply (in_map fst) in Hc; exact Hc.
    + apply substrateb_spec; exact Hs.
    + destruct Ht as [c [Hc _]].
      apply dict_get_In in Hc; apply (in_map fst) in Hc; exact Hc.
    + apply releasedb_spec; exact Ht.
Qed.

Lemma metabolite_find_edges_cases (model : Model) (verbose : bool) :
  MetaboliteNetwork.find_edges_from_model model verbose
  = if verbose && too_few (List.length model)
    then Progress.Throw Progress.ZeroDivisionError
    else Progress.Return (flat_map metabolite_edges model).
Proof.
  unfold MetaboliteNetwork.find_edges_from_model.
  destruct verbose; simpl andb.
  - destruct (start_verbose (List.length model)) as [b [-> [Ht Hp]]].
    simpl Progress.bind.
    destruct (too_few_cases (List.length model))
      as [[Hn ->]|[[-> [Hz Hn]]|[-> [Hz Hn]]]].
    + destruct model; [reflexivity | discriminate].
    + destruct model as [|r rest]; [contradiction|].
      change (MetaboliteNetwork.edge_loop (Some b) (r :: rest) [])
        with (Progress.bind (Progress.tick (Some b))
                (fun bar =>
                   Progress.bind
                     (Progress.lift
                        (MetaboliteNetwork.classify_all
                           r (keys (metabolites r)) ([], [])))
                     (fun st =>
                        MetaboliteNetwork.edge_loop bar rest
                          ([] ++ MetaboliteNetwork.reaction_edges r st)%list))).
      rewrite tick_stuck by (rewrite Hp; exact Hz).
      reflexivity.
    + rewrite metabolite_edge_loop_runs
        by (simpl; rewrite Hp, Ht; split; assumption).
      reflexivity.
  - simpl Progress.bind.
    rewrite metabolite_edge_loop_runs by exact I; reflexivity.
Qed.

(** X15: the edges of the metabolite network.  When
    [find_edges_from_model] returns, [(s, t, {"reaction": i})] is in its
    list exactly when [s] and [t] are different and some reaction with id
    [i] can use up [s] and release [t]: a reversible reaction does both
    with each of its metabolites, an irreversible one uses up those with a
    negative coefficient and releases those with a positive one. *)
Theorem metabolite_edges_run_from_substrate_to_product
        (model : Model) (verbose : bool)
        (edges : list MetaboliteNetwork.Edge) :
  MetaboliteNetwork.find_edges_from_model model verbose
  = Progress.Return edges ->
  forall s t i,
    In (s, t, i) edges <->
    s <> t
    /\ exists r, In r model /\ id r = i /\ substrate r s /\ released r t.
Proof.
  rewrite metabolite_find_edges_cases.
  destruct (verbose && too_few (List.length model)); [discriminate|].
  intros H s t i; injection H as <-.
  rewrite in_flat_map; split.
  - intros [r [Hr He]]; apply In_metabolite_edges in He.
    destruct He as [Hne He]; split; [exact Hne|].
    exists r; split; [exact Hr | exact He].
  - intros [Hne [r [Hr He]]].
    exists r; split; [exact Hr|].
    apply In_metabolite_edges; split; [exact Hne | exact He].
Qed.

Lemma metabolite_edges_witness :
  let R := mkReaction "R" [("a", (-1)%Q); ("b", 2%Q); ("c", 0%Q)] false in
  let S := mkReaction "S" [("a", (-1)%Q); ("b", 1%Q)] true in
  exists edges,
    MetaboliteNetwork.find_edges_from_model [R; S] false
    = Progress.Return edges
    /\ edges = [("a", "b", "R"); ("a", "b", "S"); ("b", "a", "S")]
    /\ forall s t i,
        In (s, t, i) edges <->
        s <> t
        /\ exists r, In r [R; S] /\ id r = i /\ substrate r s /\ released r t.
Proof.
  cbv zeta.
  eexists; split; [vm_compute; reflexivity|]; split; [reflexivity|].
  apply (metabolite_edges_run_from_substrate_to_product
           [mkReaction "R" [("a", (-1)%Q); ("b", 2%Q); ("c", 0%Q)] false;
            mkReaction "S" [("a", (-1)%Q); ("b", 1%Q)] true] false).
  vm_compute; reflexivity.
Defined.

(** X16: [find_edges_from_model] of metabolite_network.py always returns
    without [verbose]; with [verbose] it raises [ZeroDivisionError] for a
    model of one to nine reactions and returns the same list otherwise. *)
Theorem metabolite_verbose_needs_ten_reactions (model : Model) :
  exists edges,
    MetaboliteNetwork.find_edges_from_model model false
    = Progress.Return edges
    /\ MetaboliteNetwork.find_edges_from_model model true
       = if too_few (List.length model)
         then Progress.Throw Progress.ZeroDivisionError
         else Progress.Return edges.
Proof.
  exists (flat_map metabolite_edges model).
  rewrite !metabolite_find_edges_cases; split; reflexivity.
Qed.

(** ** The command line tool never writes a network *)

(** X14: [main] of scripts/create_metabolic_network.py never writes a
    network.  Whenever the command line is parsed and the model is loaded,
    the call that builds the network raises [TypeError]: it passes the
    keyword [verbose], which neither [create_metabolic_network] nor
    [create_directed_metabolic_network] of metabolic_network.py accepts. *)
Theorem main_never_writes_a_network
        (scan : list string -> list string
                -> result (list (string * list string)))
        (load_json read_sbml load_yaml load_matlab
         : ModelArg -> result Model)
        (body : Script.Call -> result Nx.Graph)
        (argv : list string) (fs : MetabolicNetwork.FileSystem) :
  (forall fs',
      ScriptMain.main scan load_json read_sbml load_yaml load_matlab body
                      argv fs <> Ok fs')
  /\ (forall c,
         Script.main_call scan load_json read_sbml load_yaml load_matlab argv
         = Ok c ->
         ScriptMain.call body c = Raise TypeError
         /\ ScriptMain.main scan load_json read_sbml load_yaml load_matlab
                            body argv fs = Raise TypeError).
Proof.
  assert (Hcall : forall c, ScriptMain.call body c = Raise TypeError).
  { intros c; destruct c; reflexivity. }
  unfold ScriptMain.main, Script.main_call.
  destruct (Script.arg_parse scan argv) as [args|e]; simpl;
    [|split; [discriminate | intros c H; discriminate]].
  destruct (Script.getattr args "verbose") as [verbose|e]; simpl;
    [|split; [discriminate | intros c H; discriminate]].
  destruct (Script.getattr args "input_file") as [input_file|e]; simpl;
    [|split; [discriminate | intros c H; discriminate]].
  destruct (Script.getattr args "file_type") as [file_type|e]; simpl;
    [|split; [discriminate | intros c H; discriminate]].
  destruct (load_cobra_model_from_file _ _ _ _ _ _) as [model|e]; simpl;
    [|split; [discriminate | intros c H; discriminate]].
  destruct (Script.getattr args "directed") as [directed|e]; simpl;
    [|split; [discriminate | intros c H; discriminate]].
  destruct (Script.truthy directed).
  - destruct (Script.getattr args "reciprocal") as [reciprocal|e]; simpl;
      [|split; [discriminate | intros c H; discriminate]].
    destruct (Script.getattr args "loopless") as [loopless|e]; simpl;
      [|split; [discriminate | intros c H; discriminate]].
    destruct (Script.getattr args "fva_prop") as [fva_prop|e]; simpl;
      [|split; [discriminate | intros c H; discriminate]].
    split; [discriminate|].
    intros c H; split; [apply Hcall | reflexivity].
  - split; [discriminate|].
    intros c H; split; [apply Hcall | reflexivity].
Qed.

Lemma main_never_writes_a_network_witness :
  Script.main_call simple_scan (fun _ => Ok []) no_file no_file no_file
    ["--directed"; "-i"; "model.json"; "-o"; "graph.json"]
  = Ok (Script.create_directed_metabolic_network
          (Some []) (Script.VBool true) (Script.VBool false)
          (Script.VFloat (95 # 100)) (Script.VBool false))
  /\ ScriptMain.main simple_scan (fun _ => Ok []) no_file no_file no_file
       (fun _ => Ok (Nx.empty_graph true))
       ["--directed"; "-i"; "model.json"; "-o"; "graph.json"] []
     = Raise TypeError.
Proof.
  split; [vm_compute; reflexivity|].
  refine (proj2 (proj2 (main_never_writes_a_network
                          simple_scan (fun _ => Ok []) no_file no_file no_file
                          (fun _ => Ok (Nx.empty_graph true))
                          ["--directed"; "-i"; "model.json"; "-o";
                           "graph.json"] []) _ _)).
  vm_compute; reflexivity.
Defined.

(** ** Gene lists *)

Lemma findall_alnum_tokens (s run : string) :
  all_alnum run = true ->
  forall tok, In tok (ReadGeneList.findall_alnum run s) -> is_token tok.
Proof.
  revert run; induction s as [|c t IH]; intros run Hrun tok; simpl.
  - destruct (String.eqb_spec run ""); [intros []|].
    intros [<-|[]]; split; assumption.
  - destruct (ReadGeneList.is_alnum c) eqn:Ec.
    + apply IH.
      clear IH; induction run as [|x run IHr]; simpl in *.
      * rewrite Ec; reflexivity.
      * apply andb_true_iff in Hrun; destruct Hrun as [Hx Hr].
        rewrite Hx, (IHr Hr); reflexivity.
    + rewrite in_app_iff; intros [H|H]; [|exact (IH "" eq_refl tok H)].
      destruct (String.eqb_spec run ""); [destruct H|].
      destruct H as [<-|[]]; split; assumption.
Qed.

Lemma findall_alnum_run (tok s run : string) :
  all_alnum tok = true ->
  ReadGeneList.findall_alnum run (tok ++ s)
  = ReadGeneList.findall_alnum (run ++ tok) s.
Proof.
  revert run; induction tok as [|c t IH]; intros run Htok; simpl.
  - rewrite string_app_nil_r; reflexivity.
  - simpl in Htok; apply andb_true_iff in Htok; destruct Htok as [Hc Ht].
    rewrite Hc, (IH _ Ht), string_app_assoc; reflexivity.
Qed.

Lemma findall_alnum_gap (sep s : string) :
  no_alnum sep = true ->
  ReadGeneList.findall_alnum "" (sep ++ s) = ReadGeneList.findall_alnum "" s.
Proof.
  induction sep as [|c t IH]; intros Hsep; simpl; [reflexivity|].
  simpl in Hsep; apply andb_true_iff in Hsep; destruct Hsep as [Hc Ht].
  apply negb_true_iff in Hc; rewrite Hc; simpl; exact (IH Ht).
Qed.

Lemma findall_alnum_sep (sep s run : string) :
  sep <> "" -> no_alnum sep = true -> run <> "" ->
  ReadGeneList.findall_alnum run (sep ++ s)
  = run :: ReadGeneList.findall_alnum "" s.
Proof.
  intros Hne Hsep Hrun; destruct sep as [|c t]; [contradiction|].
  simpl in Hsep; apply andb_true_iff in Hsep; destruct Hsep as [Hc Ht].
  apply negb_true_iff in Hc; simpl; rewrite Hc.
  destruct (String.eqb_spec run ""); [contradiction|]; simpl.
  rewrite (findall_alnum_gap t s Ht); reflexivity.
Qed.

Lemma parse_joined (sep : string) (toks : list string) :
  sep <> "" -> no_alnum sep = true ->
  (forall tok, In tok toks -> is_token tok) ->
  ReadGeneList.parse_list (String.concat sep toks) = toks.
Proof.
  intros Hne Hsep; unfold ReadGeneList.parse_list.
  induction toks as [|x rest IH]; intros Htok; [reflexivity|].
  destruct (Htok x (or_introl eq_refl)) as [Hx Hax].
  destruct rest as [|y rest'].
  - simpl; rewrite <- (string_app_nil_r x) at 1.
    rewrite (findall_alnum_run x "" "" Hax); simpl.
    destruct (String.eqb_spec x ""); [contradiction | reflexivity].
  - change (String.concat sep (x :: y :: rest'))
      with (x ++ sep ++ String.concat sep (y :: rest')).
    rewrite (findall_alnum_run x _ "" Hax); simpl append at 1.
    rewrite (findall_alnum_sep sep _ x Hne Hsep Hx).
    rewrite IH; [reflexivity|].
    intros tok Ht; apply Htok; right; exact Ht.
Qed.

(** X17: every gene that [parse_list] returns is a non-empty string of
    letters and digits, and parsing is stable: joining the genes with any
    non-empty separator free of letters and digits and parsing again gives
    the same list. *)
Theorem parse_list_is_stable (genes sep : string) :
  (forall tok, In tok (ReadGeneList.parse_list genes) -> is_token tok)
  /\ (sep <> "" -> no_alnum sep = true ->
      ReadGeneList.parse_list
        (String.concat sep (ReadGeneList.parse_list genes))
      = ReadGeneList.parse_list genes).
Proof.
  assert (Htok : forall tok, In tok (ReadGeneList.parse_list genes) ->
                             is_token tok)
    by (apply findall_alnum_tokens; reflexivity).
  split; [exact Htok|].
  intros Hne Hsep; apply parse_joined; assumption.
Qed.

Lemma parse_list_is_stable_witness :
  ReadGeneList.parse_list "Rv1746-Rv5467, Rv2346,Rv5600 Rv5123"
  = ["Rv1746"; "Rv5467"; "Rv2346"; "Rv5600"; "Rv5123"]
  /\ ReadGeneList.parse_list
       (String.concat "; "
          (ReadGeneList.parse_list "Rv1746-Rv5467, Rv2346,Rv5600 Rv5123"))
     = ReadGeneList.parse_list "Rv1746-Rv5467, Rv2346,Rv5600 Rv5123".
Proof.
  split; [reflexivity|].
  apply (parse_list_is_stable "Rv1746-Rv5467, Rv2346,Rv5600 Rv5123" "; ");
    [discriminate | reflexivity].
Defined.

Lemma translate_genes_locus_of (names uniprot : dict string)
      (locus : list string) (genes_list final_list : list string) :
  ReadGeneList.translate_genes
    (ReadGeneList.JDict names) (ReadGeneList.JDict uniprot)
    (ReadGeneList.JList locus) genes_list final_list
  = Ok (final_list ++ flat_map (locus_of names uniprot locus) genes_list)%list.
Proof.
  revert final_list; induction genes_list as [|g rest IH]; intros final_list.
  - simpl; rewrite app_nil_r; reflexivity.
  - simpl ReadGeneList.translate_genes.
    unfold ReadGeneList.translate_gene, locus_of at 1; simpl.
    unfold dict_mem.
    destruct (mem g locus); simpl.
    + rewrite IH, <- app_assoc; reflexivity.
    + destruct (dict_get g uniprot) as [l|]; simpl.
      * rewrite IH, <- app_assoc; reflexivity.
      * destruct (dict_get g names) as [l|]; simpl.
        -- rewrite IH, <- app_assoc; reflexivity.
        -- rewrite IH; reflexivity.
Qed.

(** X18: [translate_list], when the three files hold two dicts and a list.
    It returns; every locus tag it returns comes from a gene of the input:
    the gene itself if it is in the locus list, else its UniProt entry,
    else its entry by name; a gene that is none of the three is dropped, so
    the result is never longer than the parsed input; and an input of
    locus tags only is returned as parsed, whatever the dicts hold. *)
Theorem translate_list_prefers_locus_tags
        (fs : dict ReadGeneList.json) (genes : string)
        (names_path uniprot_path locus_path : string)
        (names uniprot : dict string) (locus : list string) :
  dict_get names_path fs = Some (ReadGeneList.JDict names) ->
  dict_get uniprot_path fs = Some (ReadGeneList.JDict uniprot) ->
  dict_get locus_path fs = Some (ReadGeneList.JList locus) ->
  exists out,
    ReadGeneList.translate_list fs genes names_path uniprot_path locus_path
    = Ok out
    /\ (forall x,
           In x out ->
           exists gene,
             In gene (ReadGeneList.parse_list genes)
             /\ ((x = gene /\ In gene locus)
                 \/ (~ In gene locus /\ dict_get gene uniprot = Some x)
                 \/ (~ In gene locus /\ dict_get gene uniprot = None
                     /\ dict_get gene names = Some x)))
    /\ (List.length out <= List.length (ReadGeneList.parse_list genes))%nat
    /\ ((forall gene, In gene (ReadGeneList.parse_list genes) ->
                      In gene locus) ->
        out = ReadGeneList.parse_list genes).
Proof.
  intros Hn Hu Hl.
  unfold ReadGeneList.translate_list, ReadGeneList.load.
  rewrite Hn, Hu, Hl; simpl.
  rewrite translate_genes_locus_of; simpl.
  eexists; split; [reflexivity|].
  generalize (ReadGeneList.parse_list genes) as toks; intros toks.
  assert (Hmem : forall g, mem g locus = true <-> In g locus).
  { intros g; unfold mem; rewrite existsb_exists; split.
    - intros [y [Hy E]]; apply String.eqb_eq in E; subst y; exact Hy.
    - intros Hg; exists g; split; [exact Hg | apply String.eqb_refl]. }
  split; [|split].
  - intros x Hx; apply in_flat_map in Hx; destruct Hx as [g [Hg Hx]].
    exists g; split; [exact Hg|].
    unfold locus_of in Hx.
    destruct (mem g locus) eqn:Em.
    + destruct Hx as [<-|[]]; left; split; [reflexivity|].
      apply Hmem; exact Em.
    + assert (Hnot : ~ In g locus)
        by (intros Hin; apply Hmem in Hin; congruence).
      destruct (dict_get g uniprot) as [l|].
      * destruct Hx as [<-|[]]; right; left; split; [exact Hnot|reflexivity].
      * destruct (dict_get g names) as [l|]; [|destruct Hx].
        destruct Hx as [<-|[]]; right; right.
        split; [exact Hnot|]; split; reflexivity.
  - induction toks as [|g rest IH]; simpl; [lia|].
    rewrite length_app.
    assert (List.length (locus_of names uniprot locus g) <= 1)%nat.
    { unfold locus_of; destruct (mem g locus); [simpl; lia|].
      destruct (dict_get g uniprot); [simpl; lia|].
      destruct (dict_get g names); simpl; lia. }
    lia.
  - induction toks as [|g rest IH]; intros Hall; simpl; [reflexivity|].
    unfold locus_of at 1.
    rewrite (proj2 (Hmem g) (Hall g (or_introl eq_refl))); simpl.
    rewrite IH; [reflexivity|].
    intros g' Hg'; apply Hall; right; exact Hg'.
Qed.

Lemma translate_list_witness :
  let fs :=
    [("names.json", ReadGeneList.JDict [("pknB", "Rv0014c");
                                        ("Rv1746", "Rv9999")]);
     ("uniprot.json", ReadGeneList.JDict [("P9WI81", "Rv0014c")]);
     ("locus.json", ReadGeneList.JList ["Rv0014c"; "Rv1746"])] in
  exists out,
    ReadGeneList.translate_list fs "Rv1746, Rv0014c" "names.json"
                                "uniprot.json" "locus.json" = Ok out
    /\ out = ReadGeneList.parse_list "Rv1746, Rv0014c".
Proof.
  cbv zeta.
  destruct (translate_list_prefers_locus_tags
              [("names.json", ReadGeneList.JDict [("pknB", "Rv0014c");
                                                  ("Rv1746", "Rv9999")]);
               ("uniprot.json", ReadGeneList.JDict [("P9WI81", "Rv0014c")]);
               ("locus.json", ReadGeneList.JList ["Rv0014c"; "Rv1746"])]
              "Rv1746, Rv0014c" "names.json" "uniprot.json" "locus.json"
              [("pknB", "Rv0014c"); ("Rv1746", "Rv9999")]
              [("P9WI81", "Rv0014c")] ["Rv0014c"; "Rv1746"]
              eq_refl eq_refl eq_refl) as [out [H [_ [_ Hall]]]].
  exists out; split; [exact H|].
  apply Hall; intros gene Hg; vm_compute in Hg.
  destruct Hg as [<-|[<-|[]]]; simpl; tauto.
Defined.

(** ** The directed graph and its edge list *)

Lemma add_edges_from_cons (e : Nx.Edge) (es : list Nx.Edge) (g : Nx.Graph) :
  Nx.add_edges_from (e :: es) g
  = Nx.add_edges_from es
      (Nx.add_edge (fst (fst e)) (snd (fst e)) (snd e) g).
Proof. reflexivity. Qed.

Lemma hits_directed a b u v :
  NxSpec.hits true a b u v = true <-> (u, v) = (a, b).
Proof.
  unfold NxSpec.hits; simpl; rewrite orb_false_r, andb_true_iff.
  rewrite !String.eqb_eq; split.
  - intros [-> ->]; reflexivity.
  - intros E; injection E as -> ->; split; reflexivity.
Qed.

(** Edges with pairwise different end points, added to a directed graph
    that has none of them, are stored as they are. *)
Lemma edge_data_add_edges_directed (es : list Nx.Edge) (g : Nx.Graph) u v d :
  Nx.directed g = true -> NoDup (map fst es) ->
  (forall a b, In (a, b) (map fst es) -> Nx.edge_data g a b = None) ->
  (Nx.edge_data (Nx.add_edges_from es g) u v = Some d <->
   In (u, v, d) es
   \/ (~ In (u, v) (map fst es) /\ Nx.edge_data g u v = Some d)).
Proof.
  revert g; induction es as [|[[a b] dd] t IH]; intros g Hdir Hnd Hnone.
  - simpl; tauto.
  - rewrite add_edges_from_cons; simpl fst; simpl snd.
    simpl in Hnd; inversion Hnd as [|? ? Hn Hnd']; subst.
    set (g1 := Nx.add_edge a b dd g).
    assert (Hdata : forall x y,
               Nx.edge_data g1 x y
               = if NxSpec.hits true a b x y then Some dd
                 else Nx.edge_data g x y).
    { intros x y; unfold g1; rewrite NxFacts.edge_data_add_edge, Hdir.
      unfold NxSpec.datadict.
      rewrite (Hnone a b (or_introl eq_refl)), NxFacts.update_no_attrs.
      reflexivity. }
    rewrite (IH g1).
    + rewrite Hdata; simpl In.
      destruct (NxSpec.hits true a b u v) eqn:Eh.
      * apply hits_directed in Eh; injection Eh as -> ->.
        split.
        -- intros [H|[_ H]]; [left; right; exact H|].
           injection H as <-; left; left; reflexivity.
        -- intros [[H|H]|[H _]].
           ++ injection H as <-; right; split; [exact Hn | reflexivity].
           ++ left; exact H.
           ++ exfalso; apply H; left; reflexivity.
      * assert (Hne : (a, b) <> (u, v)).
        { intros E; symmetry in E; apply hits_directed in E; congruence. }
        split.
        -- intros [H|[H1 H2]]; [left; right; exact H|].
           right; split; [|exact H2].
           intros [E|E]; [exact (Hne E) | exact (H1 E)].
        -- intros [[H|H]|[H1 H2]].
           ++ injection H as -> -> _; exfalso; apply Hne; reflexivity.
           ++ left; exact H.
           ++ right; split; [|exact H2].
              intros E; apply H1; right; exact E.
    + unfold g1; rewrite NxFacts.directed_add_edge; exact Hdir.
    + exact Hnd'.
    + intros x y Hxy; rewrite Hdata.
      destruct (NxSpec.hits true a b x y) eqn:Eh.
      * apply hits_directed in Eh; injection Eh as -> ->; contradiction.
      * apply Hnone; right; exact Hxy.
Qed.

(** X4: [create_directed_metabolic_network] stores the edge list as it is:
    [g.get_edge_data(u, v)] is the data of the edge from [u] to [v] in the
    list returned by [find_directed_edges_from_model], the edge view of the
    graph has the edges of the list, each once, and no data of two edges
    is merged. *)
Theorem directed_graph_holds_the_edge_list
        (fva : Model -> bool -> Q -> result FvaFrame)
        (load_json read_sbml load_yaml load_matlab
         : ModelArg -> result Model)
        (model : Model) (file_type : option string)
        (rw loopless : bool) (fva_prop : Q) (g : Nx.Graph) :
  MetabolicNetwork.create_directed_metabolic_network
    fva load_json read_sbml load_yaml load_matlab
    (ArgModel model) file_type rw loopless fva_prop = Ok g ->
  exists edges,
    MetabolicNetwork.find_directed_edges_from_model
      fva model rw loopless fva_prop = Ok edges
    /\ (forall u v d, Nx.edge_data g u v = Some d <-> In (u, v, d) edges)
    /\ (forall e, In e (Nx.edges g) <-> In e edges)
    /\ NoDup (Nx.edges g)
    /\ List.length (Nx.edges g) = List.length edges.
Proof.
  intros Hg.
  pose proof (created_graph_wf fva load_json read_sbml load_yaml load_matlab
                (ArgModel model) file_type rw loopless fva_prop g
                (or_intror Hg)) as Hwf.
  unfold MetabolicNetwork.create_directed_metabolic_network in Hg.
  simpl in Hg.
  destruct (MetabolicNetwork.find_directed_edges_from_model
              fva model rw loopless fva_prop) as [edges|] eqn:He;
    simpl in Hg; [|discriminate].
  injection Hg as <-.
  exists edges; split; [reflexivity|].
  set (g0 := MetabolicNetwork.add_reaction_nodes model (Nx.empty_graph true))
    in *.
  assert (Hdir : Nx.directed g0 = true) by apply directed_add_reaction_nodes.
  assert (Hbase : forall a b, Nx.edge_data g0 a b = None).
  { intros a b; unfold g0; rewrite edge_data_add_reaction_nodes.
    reflexivity. }
  assert (Hnd : NoDup (map fst edges)).
  { revert He; unfold MetabolicNetwork.find_directed_edges_from_model.
    destruct (fva model loopless fva_prop) as [t|]; simpl; [|discriminate].
    destruct (rxn_met_rows t model) as [rows|]; simpl; [|discriminate].
    destruct (MetabolicNetwork.edge_weight_rows rw rows) as [cands|]; simpl;
      [|discriminate].
    apply resolve_edges_keys_mn. }
  assert (Hdata : forall u v d,
             Nx.edge_data (Nx.add_edges_from edges g0) u v = Some d
             <-> In (u, v, d) edges).
  { intros u v d.
    rewrite (edge_data_add_edges_directed edges g0 u v d Hdir Hnd
               (fun a b _ => Hbase a b)).
    rewrite Hbase; split; [intros [H|[_ H]]; [exact H | discriminate]|].
    intros H; left; exact H. }
  assert (Hdir' : Nx.directed (Nx.add_edges_from edges g0) = true).
  { rewrite NxFacts.directed_add_edges_from; exact Hdir. }
  assert (Hedges : forall e, In e (Nx.edges (Nx.add_edges_from edges g0))
                             <-> In e edges).
  { intros [[u v] d]; rewrite <- Hdata; split.
    - apply NxFacts.edges_sound; exact Hwf.
    - apply NxFacts.edges_directed_complete; exact Hdir'. }
  assert (Hnd' : NoDup edges).
  { apply (NoDup_map_inv fst); exact Hnd. }
  split; [exact Hdata|]; split; [exact Hedges|].
  split; [apply NxFacts.NoDup_edges; exact Hwf|].
  apply Permutation_length, NoDup_Permutation;
    [apply NxFacts.NoDup_edges; exact Hwf | exact Hnd' | exact Hedges].
Qed.

Lemma directed_graph_holds_the_edge_list_witness :
  let A := mkReaction "A" [("M", 2%Q); ("N", 1%Q)] false in
  let B := mkReaction "B" [("M", (-1)%Q); ("N", (-1)%Q)] true in
  let fva := fixed_fva [("A", mkFluxRange 0 10); ("B", mkFluxRange (-4) 7)] in
  exists g edges,
    MetabolicNetwork.create_directed_metabolic_network
      fva no_file no_file no_file no_file
      (ArgModel [A; B]) None true false (95 # 100) = Ok g
    /\ MetabolicNetwork.find_directed_edges_from_model
         fva [A; B] true false (95 # 100) = Ok edges
    /\ (forall u v d, Nx.edge_data g u v = Some d <-> In (u, v, d) edges)
    /\ (forall e, In e (Nx.edges g) <-> In e edges)
    /\ NoDup (Nx.edges g)
    /\ List.length (Nx.edges g) = List.length edges.
Proof.
  cbv zeta.
  assert (H : exists g,
             MetabolicNetwork.create_directed_metabolic_network
               (fixed_fva [("A", mkFluxRange 0 10);
                           ("B", mkFluxRange (-4) 7)])
               no_file no_file no_file no_file
               (ArgModel [mkReaction "A" [("M", 2%Q); ("N", 1%Q)] false;
                          mkReaction "B" [("M", (-1)%Q); ("N", (-1)%Q)] true])
               None true false (95 # 100) = Ok g)
    by (eexists; vm_compute; reflexivity).
  destruct H as [g Hg]; exists g.
  destruct (directed_graph_holds_the_edge_list _ _ _ _ _ _ _ _ _ _ _ Hg)
    as [edges Hrest].
  exists edges; split; [exact Hg | exact Hrest].
Defined.

(** ** Building a network from a file of an unknown format *)

(** X13: building a network from anything but a cobra model whose format
    tag is not recognised raises [AttributeError], in the two functions of
    metabolic_network.py and in [create_reaction_network]: the loader
    returns [None], and the builder reads [None.reactions]. *)
Theorem unknown_format_is_an_AttributeError
        (fva : Model -> bool -> Q -> result FvaFrame)
        (load_json read_sbml load_yaml load_matlab
         : ModelArg -> result Model)
        (model : ModelArg) (file_type : option string) (tag : string)
        (rw loopless : bool) (fva_prop : Q) :
  (forall m, model <> ArgModel m) ->
  infer_file_type model file_type = Ok (Some tag) ->
  tag <> EmptyString -> mem tag recognised_tags = false ->
  MetabolicNetwork.create_metabolic_network
    load_json read_sbml load_yaml load_matlab model file_type
  = Raise AttributeError
  /\ MetabolicNetwork.create_directed_metabolic_network
       fva load_json read_sbml load_yaml load_matlab
       model file_type rw loopless fva_prop = Raise AttributeError
  /\ (forall verbose,
         VerboseReactionNetwork.create_reaction_network
           load_json read_sbml load_yaml load_matlab model file_type verbose
         = Progress.Throw (Progress.Other AttributeError)).
Proof.
  intros Hnot Hinfer Hne Hmem.
  assert (Hload : load_cobra_model_from_file
                    load_json read_sbml load_yaml load_matlab model file_type
                  = Ok None).
  { unfold load_cobra_model_from_file.
    rewrite Hinfer; simpl.
    apply String.eqb_neq in Hne; rewrite Hne.
    unfold mem, recognised_tags in Hmem; simpl in Hmem.
    repeat (apply orb_false_elim in Hmem; destruct Hmem as [?E Hmem]).
    unfold mem; simpl.
    rewrite E, E0, E1, E2, E3, E4, E5, E6, E7, E8, E9, E10, E11, E12, E13.
    reflexivity. }
  assert (Hres : resolve_model load_json read_sbml load_yaml load_matlab
                               model file_type = Raise AttributeError).
  { unfold resolve_model.
    destruct model as [path|h|m|]; try (rewrite Hload; reflexivity).
    exfalso; exact (Hnot m eq_refl). }
  unfold MetabolicNetwork.create_metabolic_network,
    MetabolicNetwork.create_directed_metabolic_network,
    VerboseReactionNetwork.create_reaction_network.
  rewrite Hres; repeat split.
Qed.

Lemma unknown_format_witness :
  MetabolicNetwork.create_metabolic_network
    no_file no_file no_file no_file (ArgStr "models/iEK1011.yml") None
  = Raise AttributeError
  /\ MetabolicNetwork.create_directed_metabolic_network
       (fixed_fva []) no_file no_file no_file no_file
       (ArgStr "models/iEK1011.yml") None true false (95 # 100)
     = Raise AttributeError
  /\ (forall verbose,
         VerboseReactionNetwork.create_reaction_network
           no_file no_file no_file no_file (ArgStr "models/iEK1011.yml") None
           verbose
         = Progress.Throw (Progress.Other AttributeError)).
Proof.
  apply (unknown_format_is_an_AttributeError
           (fixed_fva []) no_file no_file no_file no_file
           (ArgStr "models/iEK1011.yml") None "yml" true false (95 # 100)).
  - discriminate.
  - reflexivity.
  - discriminate.
  - reflexivity.
Defined.
